(** * LiBoard: move recognition from occupancy snapshots

    A shallow embedding of the two recognisers of the repository,
    [LiBoard] (src/liboard/__init__.py) and [DoubleSidedMoveRecognizer]
    (src/liboard/move_recognition.py), and the properties of the
    specification that concern them.

    Conventions.
    - A [bitstring.Bits] value is the list of its bits, most significant
      first, so that [Bits.findall('0b1')] yields list positions.
    - A Python [set] of squares is a [gset Z]; the order in which CPython
      enumerates a set is not fixed by the language and is taken as a
      parameter ([SetOrder]).
    - [chess.Board] and [chess.Move] belong to python-chess, which is not
      part of the repository: they are an interface ([Oracle]).
    - [time_ns()] is an argument of the operation that reads the clock.
    - Each object carries a ghost log [events] recording handler calls
      (with the value the handler returned) and classification attempts. *)

From Stdlib Require Import ZArith.
From Stdlib.Strings Require Import Byte.
From stdpp Require Import gmap list.

Local Open Scope Z_scope.

(** ** Python values used by the code *)

Inductive PyExc := TypeError | ValueError | KeyError.

Inductive Outcome (A : Type) :=
  | Returned (a : A)
  | Raised (e : PyExc).
Arguments Returned {A} a.
Arguments Raised {A} e.

(** ** bitstring.Bits *)

Definition Bits := list bool.

(** The eight bits of a byte, most significant first. *)
Definition byte_bits (b : byte) : list bool :=
  let '(b0, (b1, (b2, (b3, (b4, (b5, (b6, b7))))))) := Byte.to_bits b in
  [b7; b6; b5; b4; b3; b2; b1; b0].

(** [Bits(bytes)] *)
Definition Bits_of_bytes (bs : list byte) : Bits :=
  concat (map byte_bits bs).

(** [Bits(uint=n, length=len)]: bit [i] of the result is bit [len-1-i]
    of [n].  python-chess keeps [Board.occupied] below [2^64], so the
    [CreationError] of bitstring for a value that does not fit is not
    modelled. *)
Definition Bits_of_uint (n : Z) (len : nat) : Bits :=
  map (fun i : nat => Z.testbit n (Z.of_nat i)) (rev (seq 0 len)).
Arguments Bits_of_uint : simpl never.

(** [Bits(hex='FFFF00000000FFFF')] *)
Definition Bits_hex_FFFF00000000FFFF : Bits :=
  Bits_of_bytes [xff; xff; x00; x00; x00; x00; xff; xff].
Arguments Bits_hex_FFFF00000000FFFF : simpl never.

(** [Bits(l)] for a list [l] of integers: bitstring takes a list (any
    iterable that is neither a string nor a bytes object) as a sequence
    of truth values, one bit per element. *)
Definition Bits_of_iterable (l : list byte) : Bits :=
  map (λ x, negb (Byte.eqb x x00)) l.

Fixpoint findall_from (i : Z) (b : Bits) : list Z :=
  match b with
  | [] => []
  | true :: r => i :: findall_from (i + 1) r
  | false :: r => findall_from (i + 1) r
  end.

(** [bits.findall('0b1')] *)
Definition findall_1 (b : Bits) : list Z := findall_from 0 b.

(** [{63 - i for i in bits.findall('0b1')}] *)
Definition squares_of_bits (b : Bits) : gset Z :=
  list_to_set (map (fun i => 63 - i) (findall_1 b)).

(** ** Python sets *)

(** The enumeration order of a set: some arrangement of its elements. *)
Class SetOrder := {
  set_iter : gset Z → list Z;
  set_iter_perm : ∀ X, set_iter X ≡ₚ elements X
}.

(** [len(X)] *)
Definition py_len (X : gset Z) : nat := size X.

(** [X.pop()] on a set: the element CPython meets first; [None] stands
    for the [KeyError] of an empty set. *)
Definition py_pop `{SetOrder} (X : gset Z) : option Z := head (set_iter X).

(** [X += Y] where [X] and [Y] are sets.  [set] defines [__ior__],
    [__iand__], [__isub__] and [__ixor__], but neither [__iadd__] nor
    [__add__] nor [__radd__]: the statement raises [TypeError] and binds
    nothing. *)
Definition set_iadd (X Y : gset Z) : Outcome (gset Z) := Raised TypeError.

(** ** The rules oracle (python-chess) *)

Inductive FindResult (Move : Type) :=
  | Found (m : Move)
  | NoLegalMove.   (* [Board.find_move] raises [ValueError] *)
Arguments Found {Move} m.
Arguments NoLegalMove {Move}.

Class Oracle (Board Move : Type) := {
  new_board : Board;                                   (* [chess.Board()] *)
  board_reset : Board → Board;                         (* [board.reset()] *)
  board_occupied : Board → Z;                          (* [board.occupied] *)
  board_find_move : Board → Z → Z → FindResult Move;   (* [board.find_move(f, t)] *)
  board_is_capture : Board → Move → bool;
  board_is_castling : Board → Move → bool;
  board_is_en_passant : Board → Move → bool;
  board_is_legal : Board → Move → bool;                (* [move in board.legal_moves] *)
  board_push : Board → Move → Board;                   (* [board.push(move)] *)
  move_bool : Move → bool                              (* [bool(move)] *)
}.

(** What the code relies on from python-chess. *)
Section OracleContract.
Context {Board Move : Type} `{Oracle Board Move}.

(** [find_move] only returns legal moves, and a legal move is not the
    null move, the only falsy [Move]. *)
Definition find_move_sound : Prop :=
  ∀ b f t m, board_find_move b f t = Found m →
             move_bool m = true ∧ board_is_legal b m = true.

(** After [reset()] the occupancy is that of the starting position. *)
Definition reset_occupied_start : Prop :=
  ∀ b, board_occupied (board_reset b) = 0xFFFF00000000FFFF.

End OracleContract.

(** ** Ghost log *)

Inductive Event (Move : Type) :=
  | StartHandlerCalled (ret : bool)
  | MoveHandlerCalled (m : Move) (ret : bool)
  | ClassificationAttempt.
Arguments StartHandlerCalled {Move} ret.
Arguments MoveHandlerCalled {Move} m ret.
Arguments ClassificationAttempt {Move}.

Definition is_attempt {Move} (e : Event Move) : bool :=
  match e with ClassificationAttempt => true | _ => false end.

Definition is_move_event {Move} (e : Event Move) : bool :=
  match e with MoveHandlerCalled _ _ => true | _ => false end.

(** Number of classification attempts recorded in a log. *)
Definition attempts {Move} (l : list (Event Move)) : nat :=
  length (filter (λ e, is_attempt e = true) l).

(** ** LiBoard (src/liboard/__init__.py) *)

Module LiBoard.
Section Model.
Context {Board Move : Type} `{Oracle Board Move} `{SetOrder}.

(** The object.  [serial_in] holds the bytes waiting in [self._serial]
    ([in_waiting] is its length, [read(8)] takes its first eight). *)
Record state := {
  serial_in : list byte;
  chessboard : Board;
  _move_delay : Z;
  _known_position_data : Bits;
  _physical_position_data : Bits;
  _last_change : Z;
  _pos_checked : bool;
  _lifted_pieces : gset Z;
  events : list (Event Move)
}.

(** The registered handlers; each is called with [self] and its result
    is dropped by the caller. *)
Record handlers := {
  _start_handler : option (state → bool);
  _move_handler : option (state → Move → bool)
}.

Definition set_serial_in (s : state) (v : list byte) : state :=
  {| serial_in := v; chessboard := chessboard s; _move_delay := _move_delay s;
     _known_position_data := _known_position_data s;
     _physical_position_data := _physical_position_data s;
     _last_change := _last_change s; _pos_checked := _pos_checked s;
     _lifted_pieces := _lifted_pieces s; events := events s |}.

Definition set_chessboard (s : state) (v : Board) : state :=
  {| serial_in := serial_in s; chessboard := v; _move_delay := _move_delay s;
     _known_position_data := _known_position_data s;
     _physical_position_data := _physical_position_data s;
     _last_change := _last_change s; _pos_checked := _pos_checked s;
     _lifted_pieces := _lifted_pieces s; events := events s |}.

Definition set_known_position_data (s : state) (v : Bits) : state :=
  {| serial_in := serial_in s; chessboard := chessboard s; _move_delay := _move_delay s;
     _known_position_data := v;
     _physical_position_data := _physical_position_data s;
     _last_change := _last_change s; _pos_checked := _pos_checked s;
     _lifted_pieces := _lifted_pieces s; events := events s |}.

Definition set_physical_position_data (s : state) (v : Bits) : state :=
  {| serial_in := serial_in s; chessboard := chessboard s; _move_delay := _move_delay s;
     _known_position_data := _known_position_data s;
     _physical_position_data := v;
     _last_change := _last_change s; _pos_checked := _pos_checked s;
     _lifted_pieces := _lifted_pieces s; events := events s |}.

Definition set_last_change (s : state) (v : Z) : state :=
  {| serial_in := serial_in s; chessboard := chessboard s; _move_delay := _move_delay s;
     _known_position_data := _known_position_data s;
     _physical_position_data := _physical_position_data s;
     _last_change := v; _pos_checked := _pos_checked s;
     _lifted_pieces := _lifted_pieces s; events := events s |}.

Definition set_pos_checked (s : state) (v : bool) : state :=
  {| serial_in := serial_in s; chessboard := chessboard s; _move_delay := _move_delay s;
     _known_position_data := _known_position_data s;
     _physical_position_data := _physical_position_data s;
     _last_change := _last_change s; _pos_checked := v;
     _lifted_pieces := _lifted_pieces s; events := events s |}.

Definition set_lifted_pieces (s : state) (v : gset Z) : state :=
  {| serial_in := serial_in s; chessboard := chessboard s; _move_delay := _move_delay s;
     _known_position_data := _known_position_data s;
     _physical_position_data := _physical_position_data s;
     _last_change := _last_change s; _pos_checked := _pos_checked s;
     _lifted_pieces := v; events := events s |}.

(** Ghost: append an entry to the log. *)
Definition record_event (s : state) (e : Event Move) : state :=
  {| serial_in := serial_in s; chessboard := chessboard s; _move_delay := _move_delay s;
     _known_position_data := _known_position_data s;
     _physical_position_data := _physical_position_data s;
     _last_change := _last_change s; _pos_checked := _pos_checked s;
     _lifted_pieces := _lifted_pieces s; events := events s ++ [e] |}.

Definition STARTING_POSITION : Bits := Bits_hex_FFFF00000000FFFF.

Definition _is_starting_position (bits : Bits) : bool :=
  bool_decide (bits = STARTING_POSITION).

Definition _get_occupied_squares (bits : Bits) : gset Z :=
  squares_of_bits bits.

(** [__init__]; [now] is the value of [time_ns()]. *)
Definition init (move_delay now : Z) : state :=
  {| serial_in := []; chessboard := new_board; _move_delay := move_delay;
     _known_position_data := STARTING_POSITION;
     _physical_position_data := STARTING_POSITION;
     _last_change := now; _pos_checked := false;
     _lifted_pieces := ∅; events := [] |}.

(** The environment: bytes arrive on the serial line. *)
Definition serial_receive (s : state) (data : list byte) : state :=
  set_serial_in s (serial_in s ++ data).

Definition start_game (h : handlers) (s : state) : state :=
  let s := set_chessboard s (board_reset (chessboard s)) in
  let s := set_known_position_data s STARTING_POSITION in
  let s := set_lifted_pieces s ∅ in
  match _start_handler h with
  | Some handler => record_event s (StartHandlerCalled (handler s))
  | None => s
  end.

Definition _get_board_data (h : handlers) (s : state) (now : Z) : state :=
  if (8 <=? length (serial_in s))%nat then
    let s := set_serial_in
               (set_physical_position_data s (Bits_of_bytes (take 8 (serial_in s))))
               (drop 8 (serial_in s)) in
    if _is_starting_position (_physical_position_data s) then
      start_game h s
    else
      let s := set_pos_checked s false in
      let s := set_last_change s now in
      set_lifted_pieces s
        (_lifted_pieces s ∪
           (_get_occupied_squares (_known_position_data s) ∖
              _get_occupied_squares (_physical_position_data s)))
  else s.

Definition _find_candidate_move (s : state) (from_square to_square : Z)
  : option Move :=
  match board_find_move (chessboard s) from_square to_square with
  | Found m => Some m
  | NoLegalMove => None
  end.

Definition _make_move (h : handlers) (s : state) (move : Move) : bool * state :=
  if board_is_legal (chessboard s) move then
    let s := set_known_position_data s (_physical_position_data s) in
    let s := set_lifted_pieces s ∅ in
    let s := set_chessboard s (board_push (chessboard s) move) in
    let s := match _move_handler h with
             | Some handler => record_event s (MoveHandlerCalled move (handler s move))
             | None => s
             end in
    (true, s)
  else (false, s).

(** [for tlp in temporarily_lifted_pieces: ...] of the capture branch;
    an exhausted loop falls through to the final [return False]. *)
Fixpoint capture_loop (h : handlers) (s : state) (from_square : Z)
    (tlps : list Z) : bool * state :=
  match tlps with
  | [] => (false, s)
  | tlp :: rest =>
      match _find_candidate_move s from_square tlp with
      | Some move =>
          if move_bool move && board_is_capture (chessboard s) move then
            let '(made, s') := _make_move h s move in
            if made then (true, s') else capture_loop h s' from_square rest
          else capture_loop h s from_square rest
      | None => capture_loop h s from_square rest
      end
  end.

(** [for from_square in disappearances: ...] of the en passant branch. *)
Fixpoint en_passant_loop (h : handlers) (s : state) (froms : list Z)
    (to_square : Z) : bool * state :=
  match froms with
  | [] => (false, s)
  | from_square :: rest =>
      match _find_candidate_move s from_square to_square with
      | Some move =>
          if move_bool move && board_is_en_passant (chessboard s) move then
            let '(made, s') := _make_move h s move in
            if made then (true, s') else en_passant_loop h s' rest to_square
          else en_passant_loop h s rest to_square
      | None => en_passant_loop h s rest to_square
      end
  end.

(** The two nested loops of the castling branch; [Some r] when a
    [return] was executed, [None] when the loop ran to its end. *)
Fixpoint castling_inner (h : handlers) (s : state) (from_square : Z)
    (tos : list Z) : option (bool * state) :=
  match tos with
  | [] => None
  | to_square :: rest =>
      match _find_candidate_move s from_square to_square with
      | Some move =>
          if move_bool move && board_is_castling (chessboard s) move then
            Some (_make_move h s move)
          else castling_inner h s from_square rest
      | None => castling_inner h s from_square rest
      end
  end.

Fixpoint castling_outer (h : handlers) (s : state) (froms tos : list Z)
    : option (bool * state) :=
  match froms with
  | [] => None
  | from_square :: rest =>
      match castling_inner h s from_square tos with
      | Some r => Some r
      | None => castling_outer h s rest tos
      end
  end.

(** The result is the truth value of what the method returns ([None]
    from the first branch counts as [False]). The [None] cases of
    [py_pop] stand for a [KeyError] the length tests exclude. *)
Definition _generate_move (h : handlers) (s : state) : bool * state :=
  let s := set_pos_checked (record_event s ClassificationAttempt) true in
  let current_position_occupied_squares :=
    _get_occupied_squares (_known_position_data s) in
  let known_position_occupied_squares :=
    _get_occupied_squares (_physical_position_data s) in
  let disappearances :=
    current_position_occupied_squares ∖ known_position_occupied_squares in
  let appearances :=
    known_position_occupied_squares ∖ current_position_occupied_squares in
  let temporarily_lifted_pieces :=
    _lifted_pieces s ∩ known_position_occupied_squares in
  if (py_len disappearances =? 1)%nat && (py_len appearances =? 1)%nat then
    match py_pop disappearances, py_pop appearances with
    | Some from_square, Some to_square =>
        match _find_candidate_move s from_square to_square with
        | Some move =>
            if move_bool move
               && negb (board_is_capture (chessboard s) move)
               && negb (board_is_castling (chessboard s) move)
            then _make_move h s move
            else (false, s)
        | None => (false, s)
        end
    | _, _ => (false, s)
    end
  else if (py_len disappearances =? 1)%nat
          && (py_len appearances =? 0)%nat
          && negb (py_len temporarily_lifted_pieces =? 0)%nat then
    match py_pop disappearances with
    | Some from_square =>
        capture_loop h s from_square (set_iter temporarily_lifted_pieces)
    | None => (false, s)
    end
  else if (py_len disappearances =? 2)%nat && (py_len appearances =? 1)%nat then
    match py_pop appearances with
    | Some to_square =>
        en_passant_loop h s (set_iter disappearances) to_square
    | None => (false, s)
    end
  else if (py_len disappearances =? 2)%nat && (py_len appearances =? 2)%nat then
    match castling_outer h s (set_iter disappearances) (set_iter appearances) with
    | Some r => r
    | None => (false, s)
    end
  else (false, s).

(** [now_read] and [now_check] are the two readings of [time_ns()],
    in [_get_board_data] and in the test. *)
Definition update (h : handlers) (s : state) (now_read now_check : Z) : state :=
  let s := _get_board_data h s now_read in
  if bool_decide (_physical_position_data s ≠ _known_position_data s)
     && (_last_change s + _move_delay s * 10 ^ 6 <=? now_check)
     && negb (_pos_checked s)
  then snd (_generate_move h s)
  else s.

End Model.
End LiBoard.

(** ** MoveRecognizer and DoubleSidedMoveRecognizer
       (src/liboard/move_recognition.py) *)

Module MoveRecognition.
Section Model.
Context {Board Move : Type} `{Oracle Board Move} `{SetOrder}.

(** *** _Position *)

Record _Position := {
  bits : Bits
}.

(** [self.occupied_squares], computed from [self.bits] when the object
    is built and never assigned again. *)
Definition occupied_squares (p : _Position) : gset Z :=
  squares_of_bits (bits p).

(** [_Position(bits)] for a [Bits] argument *)
Definition _Position_of_Bits (b : Bits) : _Position :=
  {| bits := b |}.

(** [_Position(board)] for a [Board] argument *)
Definition _Position_of_Board (b : Board) : _Position :=
  _Position_of_Bits (Bits_of_uint (board_occupied b) 64).

(** [_Position.__eq__] *)
Definition _Position_eq (self other : _Position) : bool :=
  bool_decide (bits other = bits self).

Definition _STARTING_POSITION : _Position :=
  _Position_of_Bits Bits_hex_FFFF00000000FFFF.

(** *** MoveRecognizer *)

Definition _find_candidate_move (board : Board) (from_square to_square : Z)
  : option Move :=
  match board_find_move board from_square to_square with
  | Found m => Some m
  | NoLegalMove => None
  end.

Fixpoint capture_loop (board : Board) (from_square : Z) (tlps : list Z)
  : option Move :=
  match tlps with
  | [] => None
  | tlp :: rest =>
      match _find_candidate_move board from_square tlp with
      | Some move =>
          if move_bool move && board_is_capture board move then Some move
          else capture_loop board from_square rest
      | None => capture_loop board from_square rest
      end
  end.

Fixpoint en_passant_loop (board : Board) (froms : list Z) (to_square : Z)
  : option Move :=
  match froms with
  | [] => None
  | from_square :: rest =>
      match _find_candidate_move board from_square to_square with
      | Some move =>
          if move_bool move && board_is_en_passant board move then Some move
          else en_passant_loop board rest to_square
      | None => en_passant_loop board rest to_square
      end
  end.

Fixpoint castling_inner (board : Board) (from_square : Z) (tos : list Z)
  : option Move :=
  match tos with
  | [] => None
  | to_square :: rest =>
      match _find_candidate_move board from_square to_square with
      | Some move =>
          if move_bool move && board_is_castling board move then Some move
          else castling_inner board from_square rest
      | None => castling_inner board from_square rest
      end
  end.

Fixpoint castling_outer (board : Board) (froms tos : list Z) : option Move :=
  match froms with
  | [] => None
  | from_square :: rest =>
      match castling_inner board from_square tos with
      | Some move => Some move
      | None => castling_outer board rest tos
      end
  end.

(** [MoveRecognizer.find_move]; [board] is [self.board].  The method
    ends without a [return] when no rule accepts: the result is [None]. *)
Definition find_move (board : Board)
    (appearances disappearances temp_lifted : gset Z) : option Move :=
  if (py_len disappearances =? 1)%nat && (py_len appearances =? 1)%nat then
    match py_pop disappearances, py_pop appearances with
    | Some from_square, Some to_square =>
        match _find_candidate_move board from_square to_square with
        | Some move =>
            if move_bool move
               && negb (board_is_capture board move)
               && negb (board_is_castling board move)
            then Some move
            else None
        | None => None
        end
    | _, _ => None
    end
  else if (py_len disappearances =? 1)%nat
          && (py_len appearances =? 0)%nat
          && negb (py_len temp_lifted =? 0)%nat then
    match py_pop disappearances with
    | Some from_square => capture_loop board from_square (set_iter temp_lifted)
    | None => None
    end
  else if (py_len disappearances =? 2)%nat && (py_len appearances =? 1)%nat then
    match py_pop appearances with
    | Some to_square => en_passant_loop board (set_iter disappearances) to_square
    | None => None
    end
  else if (py_len disappearances =? 2)%nat && (py_len appearances =? 2)%nat then
    castling_outer board (set_iter disappearances) (set_iter appearances)
  else None.

(** *** DoubleSidedMoveRecognizer *)

Record state := {
  _board : Board;
  _move_delay : Z;
  _physical_pos : _Position;
  _physical_pos_timestamp : Z;
  _pos_checked : bool;
  _lifted : gset Z;
  events : list (Event Move)
}.

(** The registered handlers; the start handler is called with the
    board, the move handler with the board and the move. *)
Record handlers := {
  _start_handler : option (Board → bool);
  _move_handler : option (Board → Move → bool)
}.

Definition set_board (s : state) (v : Board) : state :=
  {| _board := v; _move_delay := _move_delay s; _physical_pos := _physical_pos s;
     _physical_pos_timestamp := _physical_pos_timestamp s;
     _pos_checked := _pos_checked s; _lifted := _lifted s; events := events s |}.

Definition set_physical_pos (s : state) (v : _Position) : state :=
  {| _board := _board s; _move_delay := _move_delay s; _physical_pos := v;
     _physical_pos_timestamp := _physical_pos_timestamp s;
     _pos_checked := _pos_checked s; _lifted := _lifted s; events := events s |}.

Definition set_physical_pos_timestamp (s : state) (v : Z) : state :=
  {| _board := _board s; _move_delay := _move_delay s; _physical_pos := _physical_pos s;
     _physical_pos_timestamp := v;
     _pos_checked := _pos_checked s; _lifted := _lifted s; events := events s |}.

Definition set_pos_checked (s : state) (v : bool) : state :=
  {| _board := _board s; _move_delay := _move_delay s; _physical_pos := _physical_pos s;
     _physical_pos_timestamp := _physical_pos_timestamp s;
     _pos_checked := v; _lifted := _lifted s; events := events s |}.

Definition set_lifted (s : state) (v : gset Z) : state :=
  {| _board := _board s; _move_delay := _move_delay s; _physical_pos := _physical_pos s;
     _physical_pos_timestamp := _physical_pos_timestamp s;
     _pos_checked := _pos_checked s; _lifted := v; events := events s |}.

(** Ghost: append an entry to the log. *)
Definition record_event (s : state) (e : Event Move) : state :=
  {| _board := _board s; _move_delay := _move_delay s; _physical_pos := _physical_pos s;
     _physical_pos_timestamp := _physical_pos_timestamp s;
     _pos_checked := _pos_checked s; _lifted := _lifted s;
     events := events s ++ [e] |}.

(** [__init__] *)
Definition init (move_delay : Z) : state :=
  {| _board := new_board; _move_delay := move_delay;
     _physical_pos := _STARTING_POSITION; _physical_pos_timestamp := 0;
     _pos_checked := false; _lifted := ∅; events := [] |}.

(** The class keeps no copy of the last confirmed occupancy: wherever
    it needs it, it computes [_Position(self.board)]. *)
Definition known_position (s : state) : _Position :=
  _Position_of_Board (_board s).

Definition start_game (h : handlers) (s : state) : state :=
  let s := set_board s (board_reset (_board s)) in
  let s := set_lifted s ∅ in
  match _start_handler h with
  | Some handler => record_event s (StartHandlerCalled (handler (_board s)))
  | None => s
  end.

(** The second component is the object as the call leaves it, also
    when the call ends in an exception. *)
Definition new_board_data (h : handlers) (s : state) (bits : Bits) (now : Z)
  : Outcome unit * state :=
  let s := set_physical_pos s (_Position_of_Bits bits) in
  if _Position_eq (_physical_pos s) _STARTING_POSITION then
    (Returned tt, start_game h s)
  else
    let s := set_physical_pos_timestamp s now in
    let s := set_pos_checked s false in
    match set_iadd (_lifted s)
            (occupied_squares (_Position_of_Board (_board s))
               ∖ occupied_squares (_physical_pos s)) with
    | Returned l => (Returned tt, set_lifted s l)
    | Raised e => (Raised e, s)
    end.

(** The body of [if move:] in [tick]: the move is committed. *)
Definition tick_commit (h : handlers) (s : state) (move : Move) : state :=
  let s := set_board s (board_push (_board s) move) in
  let s := set_lifted s ∅ in
  match _move_handler h with
  | Some handler =>
      record_event s (MoveHandlerCalled move (handler (_board s) move))
  | None => s
  end.

Definition tick (h : handlers) (s : state) (now : Z) : state :=
  if negb (_pos_checked s)
     && (_physical_pos_timestamp s + _move_delay s <=? now)
     && negb (_Position_eq (_physical_pos s) (_Position_of_Board (_board s)))
  then
    let s := set_pos_checked (record_event s ClassificationAttempt) true in
    let appearances :=
      occupied_squares (_physical_pos s)
        ∖ occupied_squares (_Position_of_Board (_board s)) in
    let disappearances :=
      occupied_squares (_Position_of_Board (_board s))
        ∖ occupied_squares (_physical_pos s) in
    let temp_lifted := _lifted s ∩ occupied_squares (_physical_pos s) in
    match find_move (_board s) appearances disappearances temp_lifted with
    | Some move => if move_bool move then tick_commit h s move else s
    | None => s
    end
  else s.

End Model.
End MoveRecognition.

(** ** _USBBoardProtocol (src/liboard/physical.py) *)

Module Physical.

(** The protocol object.  [_bytes] is a Python list: [self._bytes += data]
    appends the integers of the bytes received.  The registered handler
    is opaque; two ghost fields record the frames cut from the buffer and
    the bitboards passed to a handler. *)
Record state (Handler : Type) := {
  _bytes : list byte;
  _bitboard_handler : option Handler;
  extracted : list (list byte);
  delivered : list Bits
}.
Arguments _bytes {Handler} s.
Arguments _bitboard_handler {Handler} s.
Arguments extracted {Handler} s.
Arguments delivered {Handler} s.

(** [__init__] *)
Definition init {Handler : Type} : state Handler :=
  {| _bytes := []; _bitboard_handler := None; extracted := []; delivered := [] |}.

Definition register_bitboard_handler {Handler : Type} (s : state Handler)
    (handler : option Handler) : state Handler :=
  {| _bytes := _bytes s; _bitboard_handler := handler;
     extracted := extracted s; delivered := delivered s |}.

Definition data_received {Handler : Type} (s : state Handler) (data : list byte)
  : state Handler :=
  let buffer := _bytes s ++ data in
  if (8 <=? length buffer)%nat then
    let bitboard := Bits_of_iterable (take 8 buffer) in
    {| _bytes := drop 8 buffer;
       _bitboard_handler := _bitboard_handler s;
       extracted := extracted s ++ [take 8 buffer];
       delivered :=
         match _bitboard_handler s with
         | Some _ => delivered s ++ [bitboard]
         | None => delivered s
         end |}
  else
    {| _bytes := buffer; _bitboard_handler := _bitboard_handler s;
       extracted := extracted s; delivered := delivered s |}.

(** Successive calls of [data_received]. *)
Definition receive_all {Handler : Type} (s : state Handler)
    (chunks : list (list byte)) : state Handler :=
  fold_left data_received chunks s.

End Physical.

(** ** A concrete oracle: a finite fragment of chess

    A board is a node of a game tree: its occupancy and the legal moves
    out of it that the examples query, each with the board it leads to.
    A move carries the classification python-chess gives it. *)

Module GameTree.

Record move := {
  from_square : Z;
  to_square : Z;
  capture : bool;
  castling : bool;
  en_passant : bool
}.

#[warnings="-register-all"]
Inductive board :=
  | Node (occupied : Z) (moves : list (move * board)).

Definition occupied (b : board) : Z := let '(Node o _) := b in o.
Definition moves (b : board) : list (move * board) := let '(Node _ l) := b in l.

Definition move_eqb (m1 m2 : move) : bool :=
  (from_square m1 =? from_square m2) && (to_square m1 =? to_square m2)
  && Bool.eqb (capture m1) (capture m2)
  && Bool.eqb (castling m1) (castling m2)
  && Bool.eqb (en_passant m1) (en_passant m2).

Fixpoint lookup_squares (f t : Z) (l : list (move * board)) : FindResult move :=
  match l with
  | [] => NoLegalMove
  | (m, _) :: rest =>
      if (from_square m =? f) && (to_square m =? t) && negb (f =? t)
      then Found m
      else lookup_squares f t rest
  end.

Fixpoint successor (m : move) (l : list (move * board)) : option board :=
  match l with
  | [] => None
  | (m', b) :: rest => if move_eqb m m' then Some b else successor m rest
  end.

(** Take whatever stands on [f] and put it on [t]. *)
Definition shift_piece (occ f t : Z) : Z :=
  Z.lor (Z.ldiff occ (Z.shiftl 1 f)) (Z.shiftl 1 t).

(** Squares: a1 = 0, b1 = 1, ..., h1 = 7, a2 = 8, ..., h8 = 63. *)
Definition e1 : Z := 4.
Definition f1 : Z := 5.
Definition g1 : Z := 6.
Definition h1 : Z := 7.
Definition a2 : Z := 8.
Definition e2 : Z := 12.
Definition a3 : Z := 16.
Definition f3 : Z := 21.
Definition c4 : Z := 26.
Definition e4 : Z := 28.
Definition c5 : Z := 34.
Definition d5 : Z := 35.
Definition e5 : Z := 36.
Definition c6 : Z := 42.
Definition d7 : Z := 51.
Definition e7 : Z := 52.
Definition b8 : Z := 57.
Definition f8 : Z := 61.

Definition quiet (f t : Z) : move :=
  {| from_square := f; to_square := t;
     capture := false; castling := false; en_passant := false |}.
Definition takes (f t : Z) : move :=
  {| from_square := f; to_square := t;
     capture := true; castling := false; en_passant := false |}.
Definition castles (f t : Z) : move :=
  {| from_square := f; to_square := t;
     capture := false; castling := true; en_passant := false |}.

Definition start_occupied : Z := 0xFFFF00000000FFFF.

(** After 1. e4 *)
Definition after_e4 : board :=
  Node (shift_piece start_occupied e2 e4) [].

(** The starting position, with the move 1. e4. *)
Definition start : board :=
  Node start_occupied [(quiet e2 e4, after_e4)].

(** After 1. e4 d5: White may take on d5. *)
Definition e4_d5_occupied : Z :=
  shift_piece (shift_piece start_occupied e2 e4) d7 d5.
Definition after_exd5 : board :=
  Node (Z.ldiff e4_d5_occupied (Z.shiftl 1 e4)) [].
Definition e4_d5 : board :=
  Node e4_d5_occupied [(takes e4 d5, after_exd5); (quiet e4 e5, Node (shift_piece e4_d5_occupied e4 e5) [])].

(** After 1. e4 e5 2. Nf3 Nc6 3. Bc4 Bc5: White may castle short.  The
    moves listed are the legal ones among the pairs of squares
    {e1, h1, a2} x {f1, g1, a3}. *)
Definition italian_occupied : Z :=
  shift_piece (shift_piece (shift_piece (shift_piece (shift_piece (shift_piece
    start_occupied e2 e4) e7 e5) g1 f3) b8 c6) f1 c4) f8 c5.
Definition after_castling : board :=
  Node (shift_piece (shift_piece italian_occupied e1 g1) h1 f1) [].
Definition italian : board :=
  Node italian_occupied
    [ (castles e1 g1, after_castling);
      (quiet e1 f1, Node (shift_piece italian_occupied e1 f1) []);
      (quiet h1 f1, Node (shift_piece italian_occupied h1 f1) []);
      (quiet h1 g1, Node (shift_piece italian_occupied h1 g1) []);
      (quiet a2 a3, Node (shift_piece italian_occupied a2 a3) []) ].

Definition a6 : Z := 40.
Definition d6 : Z := 43.
Definition a7 : Z := 48.

Definition takes_en_passant (f t : Z) : move :=
  {| from_square := f; to_square := t;
     capture := true; castling := false; en_passant := true |}.

(** After 1. e4 a6 2. e5 d5: White may take the d5 pawn en passant.  The
    moves listed are the legal ones among the pairs {e5, d5} x {d6, e6}. *)
Definition e5_d5_occupied : Z :=
  shift_piece (shift_piece (shift_piece start_occupied e2 e5) a7 a6) d7 d5.
Definition after_en_passant : board :=
  Node (Z.ldiff (shift_piece e5_d5_occupied e5 d6) (Z.shiftl 1 d5)) [].
Definition e5_d5 : board :=
  Node e5_d5_occupied
    [ (takes_en_passant e5 d6, after_en_passant);
      (quiet e5 44, Node (shift_piece e5_d5_occupied e5 44) []) ].

#[global] Instance oracle : Oracle board move := {|
  new_board := start;
  board_reset := λ _, start;
  board_occupied := occupied;
  board_find_move := λ b f t, lookup_squares f t (moves b);
  board_is_capture := λ _ m, capture m;
  board_is_castling := λ _ m, castling m;
  board_is_en_passant := λ _ m, en_passant m;
  board_is_legal := λ b m, bool_decide (is_Some (successor m (moves b)));
  board_push := λ b m,
    match successor m (moves b) with
    | Some b' => b'
    | None => Node (shift_piece (occupied b) (from_square m) (to_square m)) []
    end;
  move_bool := λ m, negb (from_square m =? 0) || negb (to_square m =? 0)
|}.

(** The 64-bit snapshot a sensor board sends for an occupancy. *)
Definition snapshot (occ : Z) : Bits := Bits_of_uint occ 64.

(** The eight bytes of that snapshot, as they travel on the wire. *)
Definition wire (occ : Z) : list byte :=
  map (λ k : nat,
         default x00 (Byte.of_N (Z.to_N (Z.land (Z.shiftr occ (Z.of_nat (8 * k))) 255))))
      (rev (seq 0 8)).

End GameTree.

(** One enumeration order: that of [elements]. *)
#[global] Instance elements_order : SetOrder := {|
  set_iter := elements;
  set_iter_perm := λ X, reflexivity (elements X)
|}.

(** ** Vocabulary of the statements *)

Section Vocabulary.
Context {Board Move : Type} `{Oracle Board Move} `{SetOrder}.

(** The entry a start handler leaves in the log of a [LiBoard]. *)
Definition li_start_entries (h : @LiBoard.handlers Board Move)
    (s : @LiBoard.state Board Move) : list (Event Move) :=
  match LiBoard._start_handler h with
  | Some handler => [StartHandlerCalled (handler s)]
  | None => []
  end.

(** The entry a start handler leaves in the log of a
    [DoubleSidedMoveRecognizer]. *)
Definition ds_start_entries (h : @MoveRecognition.handlers Board Move)
    (b : Board) : list (Event Move) :=
  match MoveRecognition._start_handler h with
  | Some handler => [StartHandlerCalled (handler b)]
  | None => []
  end.
(** Successive calls of [LiBoard.update]; each reads the clock twice. *)
Fixpoint li_updates (h : @LiBoard.handlers Board Move)
    (s : @LiBoard.state Board Move) (clock : list (Z * Z)) : LiBoard.state :=
  match clock with
  | [] => s
  | (now_read, now_check) :: later =>
      li_updates h (LiBoard.update h s now_read now_check) later
  end.

(** Successive calls of [DoubleSidedMoveRecognizer.tick]. *)
Fixpoint ds_ticks (h : @MoveRecognition.handlers Board Move)
    (s : @MoveRecognition.state Board Move) (clock : list Z)
    : MoveRecognition.state :=
  match clock with
  | [] => s
  | now :: later => ds_ticks h (MoveRecognition.tick h s now) later
  end.

(** What a classification leaves alone in a [LiBoard]: the line, the
    delay, the Physical Position, the Pending Timestamp, the gate and the
    number of attempts logged. *)
Definition li_kept (s s' : @LiBoard.state Board Move) : Prop :=
  LiBoard.serial_in s' = LiBoard.serial_in s
  ∧ LiBoard._move_delay s' = LiBoard._move_delay s
  ∧ LiBoard._physical_position_data s' = LiBoard._physical_position_data s
  ∧ LiBoard._last_change s' = LiBoard._last_change s
  ∧ LiBoard._pos_checked s' = LiBoard._pos_checked s
  ∧ attempts (LiBoard.events s') = attempts (LiBoard.events s).
(** [first_accepted find kind cands r]: the candidate pairs [cands] are
    tried in order; [r] is the move of the first pair for which the
    oracle finds a legal move and classifies it as [kind], and [None]
    when no pair has one. *)
Inductive first_accepted (find : Z → Z → FindResult Move) (kind : Move → bool)
  : list (Z * Z) → option Move → Prop :=
  | fa_exhausted :
      first_accepted find kind [] None
  | fa_accept (f t : Z) (m : Move) (rest : list (Z * Z)) :
      find f t = Found m → kind m = true →
      first_accepted find kind ((f, t) :: rest) (Some m)
  | fa_no_legal_move (f t : Z) (rest : list (Z * Z)) (r : option Move) :
      find f t = NoLegalMove →
      first_accepted find kind rest r →
      first_accepted find kind ((f, t) :: rest) r
  | fa_other_kind (f t : Z) (m : Move) (rest : list (Z * Z)) (r : option Move) :
      find f t = Found m → kind m = false →
      first_accepted find kind rest r →
      first_accepted find kind ((f, t) :: rest) r.

(** The pairs of two nested loops, the outer one over [froms]. *)
Definition candidate_pairs (froms tos : list Z) : list (Z * Z) :=
  flat_map (λ from_square, map (λ to_square, (from_square, to_square)) tos) froms.

(** The delta [LiBoard._generate_move] computes. *)
Definition li_disappeared (s : @LiBoard.state Board Move) : gset Z :=
  squares_of_bits (LiBoard._known_position_data s)
    ∖ squares_of_bits (LiBoard._physical_position_data s).
Definition li_appeared (s : @LiBoard.state Board Move) : gset Z :=
  squares_of_bits (LiBoard._physical_position_data s)
    ∖ squares_of_bits (LiBoard._known_position_data s).
Definition li_temp_lifted (s : @LiBoard.state Board Move) : gset Z :=
  LiBoard._lifted_pieces s ∩ squares_of_bits (LiBoard._physical_position_data s).

(** The delta [DoubleSidedMoveRecognizer.tick] computes. *)
Definition ds_disappeared (s : @MoveRecognition.state Board Move) : gset Z :=
  MoveRecognition.occupied_squares (MoveRecognition.known_position s)
    ∖ MoveRecognition.occupied_squares (MoveRecognition._physical_pos s).
Definition ds_appeared (s : @MoveRecognition.state Board Move) : gset Z :=
  MoveRecognition.occupied_squares (MoveRecognition._physical_pos s)
    ∖ MoveRecognition.occupied_squares (MoveRecognition.known_position s).
Definition ds_temp_lifted (s : @MoveRecognition.state Board Move) : gset Z :=
  MoveRecognition._lifted s
    ∩ MoveRecognition.occupied_squares (MoveRecognition._physical_pos s).

(** The object once a classification has begun: the gate is set (and
    the attempt logged). *)
Definition li_classifying (s : @LiBoard.state Board Move) : LiBoard.state :=
  LiBoard.set_pos_checked (LiBoard.record_event s ClassificationAttempt) true.
Definition ds_classifying (s : @MoveRecognition.state Board Move)
  : MoveRecognition.state :=
  MoveRecognition.set_pos_checked
    (MoveRecognition.record_event s ClassificationAttempt) true.

(** [res] is what [LiBoard._generate_move] must yield on [s] when the
    classification is [r]: a move is committed and [True] returned, or
    nothing but the gate changes and the result is false. *)
Definition li_outcome (s : @LiBoard.state Board Move) (r : option Move)
    (res : bool * @LiBoard.state Board Move) : Prop :=
  match r with
  | Some m =>
      res.1 = true
      ∧ LiBoard.chessboard res.2 = board_push (LiBoard.chessboard s) m
      ∧ LiBoard._known_position_data res.2 = LiBoard._physical_position_data s
      ∧ LiBoard._lifted_pieces res.2 = ∅
      ∧ LiBoard._pos_checked res.2 = true
  | None => res = (false, li_classifying s)
  end.

(** The same for the state [DoubleSidedMoveRecognizer.tick] yields. *)
Definition ds_outcome (s : @MoveRecognition.state Board Move) (r : option Move)
    (s' : @MoveRecognition.state Board Move) : Prop :=
  match r with
  | Some m =>
      MoveRecognition._board s' = board_push (MoveRecognition._board s) m
      ∧ MoveRecognition._lifted s' = ∅
      ∧ MoveRecognition._pos_checked s' = true
  | None => s' = ds_classifying s
  end.
(** *** Runs and what handlers can influence *)

(** What a [LiBoard] is subjected to: bytes arriving on the line, and
    calls of its public methods. *)
Inductive li_input :=
  | LiReceive (data : list byte)
  | LiUpdate (now_read now_check : Z)
  | LiStartGame.

Definition li_step (h : @LiBoard.handlers Board Move)
    (s : @LiBoard.state Board Move) (i : li_input) : LiBoard.state :=
  match i with
  | LiReceive data => LiBoard.serial_receive s data
  | LiUpdate now_read now_check => LiBoard.update h s now_read now_check
  | LiStartGame => LiBoard.start_game h s
  end.

Definition li_run (h : @LiBoard.handlers Board Move)
    (s : @LiBoard.state Board Move) (inputs : list li_input) : LiBoard.state :=
  fold_left (li_step h) inputs s.

(** Calls of the methods of a [DoubleSidedMoveRecognizer]; after a call
    of [new_board_data] that raised, the run goes on with the object as
    the call left it. *)
Inductive ds_input :=
  | DsFrame (bits : Bits) (now : Z)
  | DsTick (now : Z)
  | DsStartGame.

Definition ds_step (h : @MoveRecognition.handlers Board Move)
    (s : @MoveRecognition.state Board Move) (i : ds_input)
    : MoveRecognition.state :=
  match i with
  | DsFrame bits now => (MoveRecognition.new_board_data h s bits now).2
  | DsTick now => MoveRecognition.tick h s now
  | DsStartGame => MoveRecognition.start_game h s
  end.

Definition ds_run (h : @MoveRecognition.handlers Board Move)
    (s : @MoveRecognition.state Board Move) (inputs : list ds_input)
    : MoveRecognition.state :=
  fold_left (ds_step h) inputs s.

(** A log entry without the value the handler returned. *)
Definition forget_ret (e : Event Move) : Event Move :=
  match e with
  | StartHandlerCalled _ => StartHandlerCalled false
  | MoveHandlerCalled m _ => MoveHandlerCalled m false
  | ClassificationAttempt => ClassificationAttempt
  end.

(** The object with the returned values wiped from its log. *)
Definition li_erase (s : @LiBoard.state Board Move) : LiBoard.state :=
  {| LiBoard.serial_in := LiBoard.serial_in s;
     LiBoard.chessboard := LiBoard.chessboard s;
     LiBoard._move_delay := LiBoard._move_delay s;
     LiBoard._known_position_data := LiBoard._known_position_data s;
     LiBoard._physical_position_data := LiBoard._physical_position_data s;
     LiBoard._last_change := LiBoard._last_change s;
     LiBoard._pos_checked := LiBoard._pos_checked s;
     LiBoard._lifted_pieces := LiBoard._lifted_pieces s;
     LiBoard.events := map forget_ret (LiBoard.events s) |}.

Definition ds_erase (s : @MoveRecognition.state Board Move)
  : MoveRecognition.state :=
  {| MoveRecognition._board := MoveRecognition._board s;
     MoveRecognition._move_delay := MoveRecognition._move_delay s;
     MoveRecognition._physical_pos := MoveRecognition._physical_pos s;
     MoveRecognition._physical_pos_timestamp :=
       MoveRecognition._physical_pos_timestamp s;
     MoveRecognition._pos_checked := MoveRecognition._pos_checked s;
     MoveRecognition._lifted := MoveRecognition._lifted s;
     MoveRecognition.events := map forget_ret (MoveRecognition.events s) |}.

(** The same handlers registered, each returning [False]. *)
Definition li_mute (h : @LiBoard.handlers Board Move)
  : @LiBoard.handlers Board Move :=
  {| LiBoard._start_handler :=
       match LiBoard._start_handler h with
       | Some _ => Some (λ _ : @LiBoard.state Board Move, false)
       | None => None
       end;
     LiBoard._move_handler :=
       match LiBoard._move_handler h with
       | Some _ => Some (λ (_ : @LiBoard.state Board Move) (_ : Move), false)
       | None => None
       end |}.

Definition ds_mute (h : @MoveRecognition.handlers Board Move)
  : @MoveRecognition.handlers Board Move :=
  {| MoveRecognition._start_handler :=
       match MoveRecognition._start_handler h with
       | Some _ => Some (λ _ : Board, false)
       | None => None
       end;
     MoveRecognition._move_handler :=
       match MoveRecognition._move_handler h with
       | Some _ => Some (λ (_ : Board) (_ : Move), false)
       | None => None
       end |}.

(** Two registrations that differ at most in what the handlers return. *)
Definition li_same_registration (h1 h2 : @LiBoard.handlers Board Move) : Prop :=
  (is_Some (LiBoard._start_handler h1) ↔ is_Some (LiBoard._start_handler h2))
  ∧ (is_Some (LiBoard._move_handler h1) ↔ is_Some (LiBoard._move_handler h2)).

Definition ds_same_registration (h1 h2 : @MoveRecognition.handlers Board Move)
  : Prop :=
  (is_Some (MoveRecognition._start_handler h1)
   ↔ is_Some (MoveRecognition._start_handler h2))
  ∧ (is_Some (MoveRecognition._move_handler h1)
     ↔ is_Some (MoveRecognition._move_handler h2)).

(** Two objects that agree on everything but the returned values in
    their logs. *)
Definition li_same_core (s1 s2 : @LiBoard.state Board Move) : Prop :=
  LiBoard._known_position_data s1 = LiBoard._known_position_data s2
  ∧ LiBoard._physical_position_data s1 = LiBoard._physical_position_data s2
  ∧ LiBoard._lifted_pieces s1 = LiBoard._lifted_pieces s2
  ∧ LiBoard._pos_checked s1 = LiBoard._pos_checked s2
  ∧ LiBoard.chessboard s1 = LiBoard.chessboard s2
  ∧ LiBoard._last_change s1 = LiBoard._last_change s2
  ∧ LiBoard.serial_in s1 = LiBoard.serial_in s2
  ∧ map forget_ret (LiBoard.events s1) = map forget_ret (LiBoard.events s2).

Definition ds_same_core (s1 s2 : @MoveRecognition.state Board Move) : Prop :=
  MoveRecognition.known_position s1 = MoveRecognition.known_position s2
  ∧ MoveRecognition._physical_pos s1 = MoveRecognition._physical_pos s2
  ∧ MoveRecognition._lifted s1 = MoveRecognition._lifted s2
  ∧ MoveRecognition._pos_checked s1 = MoveRecognition._pos_checked s2
  ∧ MoveRecognition._board s1 = MoveRecognition._board s2
  ∧ MoveRecognition._physical_pos_timestamp s1
    = MoveRecognition._physical_pos_timestamp s2
  ∧ map forget_ret (MoveRecognition.events s1)
    = map forget_ret (MoveRecognition.events s2).
(** A result of [_make_move] or [_generate_move], log wiped. *)
Definition li_erase_result (r : bool * @LiBoard.state Board Move)
  : bool * @LiBoard.state Board Move :=
  (r.1, li_erase r.2).

(** *** Invariants *)

(** Every square of the Transiently-Lifted Set of a [LiBoard] is
    occupied in its Known Position. *)
Definition li_lifted_known (s : @LiBoard.state Board Move) : Prop :=
  LiBoard._lifted_pieces s ⊆ squares_of_bits (LiBoard._known_position_data s).
End Vocabulary.

(** ** Concrete objects used in the examples *)

Module Examples.
Import GameTree.

Definition li_state := @LiBoard.state board move.
Definition ds_state := @MoveRecognition.state board move.

Definition li_no_handlers : @LiBoard.handlers board move :=
  {| LiBoard._start_handler := None; LiBoard._move_handler := None |}.
Definition li_handlers (r : bool) : @LiBoard.handlers board move :=
  {| LiBoard._start_handler := Some (λ _, r);
     LiBoard._move_handler := Some (λ _ _, r) |}.
Definition ds_no_handlers : @MoveRecognition.handlers board move :=
  {| MoveRecognition._start_handler := None;
     MoveRecognition._move_handler := None |}.
Definition ds_handlers (r : bool) : @MoveRecognition.handlers board move :=
  {| MoveRecognition._start_handler := Some (λ _, r);
     MoveRecognition._move_handler := Some (λ _ _, r) |}.

(** The starting position with the e2 pawn lifted off the board. *)
Definition e2_lifted : Z := Z.ldiff start_occupied (Z.shiftl 1 e2).

(** A [LiBoard] whose chess board and known position are those of
    [b], showing the same occupancy, with [data] waiting on the line. *)
Definition li_at (b : board) (delay : Z) (data : list byte) : li_state :=
  {| LiBoard.serial_in := data; LiBoard.chessboard := b;
     LiBoard._move_delay := delay;
     LiBoard._known_position_data := snapshot (occupied b);
     LiBoard._physical_position_data := snapshot (occupied b);
     LiBoard._last_change := 0; LiBoard._pos_checked := false;
     LiBoard._lifted_pieces := ∅; LiBoard.events := [] |}.

(** A [LiBoard] whose chess board and known position are those of [b],
    whose last snapshot shows occupancy [occ], with nothing waiting on
    the line. *)
Definition li_seen (b : board) (delay : Z) (occ : Z) (lifted : gset Z) : li_state :=
  {| LiBoard.serial_in := []; LiBoard.chessboard := b;
     LiBoard._move_delay := delay;
     LiBoard._known_position_data := snapshot (occupied b);
     LiBoard._physical_position_data := snapshot occ;
     LiBoard._last_change := 0; LiBoard._pos_checked := false;
     LiBoard._lifted_pieces := lifted; LiBoard.events := [] |}.

(** A [DoubleSidedMoveRecognizer] whose board is [b] and whose last
    snapshot shows occupancy [occ]. *)
Definition ds_at (b : board) (delay : Z) (occ : Z) (lifted : gset Z) : ds_state :=
  {| MoveRecognition._board := b; MoveRecognition._move_delay := delay;
     MoveRecognition._physical_pos := MoveRecognition._Position_of_Bits (snapshot occ);
     MoveRecognition._physical_pos_timestamp := 0;
     MoveRecognition._pos_checked := false;
     MoveRecognition._lifted := lifted; MoveRecognition.events := [] |}.
End Examples.

(** * Properties *)

(** ** Enumeration of sets *)

Section SetFacts.
Context `{SetOrder}.

Lemma set_iter_elem (X : gset Z) (x : Z) : x ∈ set_iter X ↔ x ∈ X.
Proof. rewrite (set_iter_perm X). apply elem_of_elements. Qed.

Lemma set_iter_length (X : gset Z) : length (set_iter X) = size X.
Proof. rewrite (set_iter_perm X). reflexivity. Qed.

Lemma set_iter_NoDup (X : gset Z) : NoDup (set_iter X).
Proof. rewrite (set_iter_perm X). apply NoDup_elements. Qed.

Lemma set_iter_singleton (x : Z) : set_iter ({[x]} : gset Z) = [x].
Proof.
  apply Permutation_singleton_r.
  rewrite (set_iter_perm {[x]}), elements_singleton. reflexivity.
Qed.

Lemma py_pop_singleton (x : Z) : py_pop ({[x]} : gset Z) = Some x.
Proof. unfold py_pop. rewrite set_iter_singleton. reflexivity. Qed.

Lemma py_len_singleton (x : Z) : py_len ({[x]} : gset Z) = 1%nat.
Proof. apply size_singleton. Qed.

Lemma py_len_empty : py_len (∅ : gset Z) = 0%nat.
Proof. apply size_empty. Qed.
End SetFacts.

(** ** Snapshots *)

Lemma Bits_of_uint_start :
  Bits_of_uint 0xFFFF00000000FFFF 64 = Bits_hex_FFFF00000000FFFF.
Proof. vm_compute. reflexivity. Qed.

(** ** Frame intake *)

Section FrameIntake.
Context {Board Move : Type} `{Oracle Board Move}.
Local Abbreviation LiBoard_state := (@LiBoard.state Board Move).
Local Abbreviation LiBoard_handlers := (@LiBoard.handlers Board Move).
Local Abbreviation Recognizer_state := (@MoveRecognition.state Board Move).
Local Abbreviation Recognizer_handlers := (@MoveRecognition.handlers Board Move).

Lemma take_drop_frame (frame rest : list byte) :
  length frame = 8%nat →
  take 8 (frame ++ rest) = frame ∧ drop 8 (frame ++ rest) = rest
  ∧ (8 <=? length (frame ++ rest))%nat = true.
Proof.
  intros Hlen. split; [|split].
  - rewrite <- Hlen. apply take_app_length.
  - rewrite <- Hlen. apply drop_app_length.
  - apply Nat.leb_le. rewrite length_app. lia.
Qed.

(** [LiBoard._get_board_data] on a frame that is not the starting
    pattern. *)
Lemma li_get_board_data_frame (h : LiBoard_handlers) (s : LiBoard_state)
    (now : Z) (frame rest : list byte) :
  LiBoard.serial_in s = frame ++ rest →
  length frame = 8%nat →
  Bits_of_bytes frame ≠ LiBoard.STARTING_POSITION →
  LiBoard._get_board_data h s now =
    {| LiBoard.serial_in := rest;
       LiBoard.chessboard := LiBoard.chessboard s;
       LiBoard._move_delay := LiBoard._move_delay s;
       LiBoard._known_position_data := LiBoard._known_position_data s;
       LiBoard._physical_position_data := Bits_of_bytes frame;
       LiBoard._last_change := now;
       LiBoard._pos_checked := false;
       LiBoard._lifted_pieces :=
         LiBoard._lifted_pieces s ∪
           (squares_of_bits (LiBoard._known_position_data s)
              ∖ squares_of_bits (Bits_of_bytes frame));
       LiBoard.events := LiBoard.events s |}.
Proof.
  intros Hin Hlen Hne.
  destruct (take_drop_frame frame rest Hlen) as (Htake & Hdrop & Hge).
  unfold LiBoard._get_board_data. rewrite Hin, Hge, Htake, Hdrop. simpl.
  unfold LiBoard._is_starting_position.
  rewrite bool_decide_eq_false_2 by exact Hne. reflexivity.
Qed.

(** [LiBoard._get_board_data] with fewer than eight bytes waiting. *)
Lemma li_get_board_data_idle (h : LiBoard_handlers) (s : LiBoard_state) (now : Z) :
  (length (LiBoard.serial_in s) < 8)%nat →
  LiBoard._get_board_data h s now = s.
Proof.
  intros Hlt. unfold LiBoard._get_board_data.
  assert ((8 <=? length (LiBoard.serial_in s))%nat = false) as ->
    by (apply Nat.leb_gt; exact Hlt).
  reflexivity.
Qed.

(** [DoubleSidedMoveRecognizer.new_board_data] on a snapshot that is
    not the starting pattern: the statement [self._lifted += ...] is
    reached and raises. *)
Lemma ds_new_board_data_frame (h : Recognizer_handlers)
    (s : Recognizer_state) (bits : Bits) (now : Z) :
  bits ≠ Bits_hex_FFFF00000000FFFF →
  MoveRecognition.new_board_data h s bits now =
    (Raised TypeError,
     {| MoveRecognition._board := MoveRecognition._board s;
        MoveRecognition._move_delay := MoveRecognition._move_delay s;
        MoveRecognition._physical_pos := MoveRecognition._Position_of_Bits bits;
        MoveRecognition._physical_pos_timestamp := now;
        MoveRecognition._pos_checked := false;
        MoveRecognition._lifted := MoveRecognition._lifted s;
        MoveRecognition.events := MoveRecognition.events s |}).
Proof.
  intros Hne. unfold MoveRecognition.new_board_data. simpl.
  unfold MoveRecognition._Position_eq. simpl.
  rewrite bool_decide_eq_false_2; [reflexivity|].
  intros E. apply Hne. symmetry. exact E.
Qed.

(** C1. For a snapshot other than the starting pattern,
    [LiBoard._get_board_data] returns with the Physical Position equal
    to the snapshot, the Recognition Gate cleared, the Pending
    Timestamp set to the clock reading and the Transiently-Lifted Set
    extended by the squares occupied in the Known Position and free in
    the snapshot.  [DoubleSidedMoveRecognizer.new_board_data] does not
    complete: it stores the snapshot, the timestamp and the cleared
    gate, then raises [TypeError] at [self._lifted += ...], and the
    Transiently-Lifted Set keeps its old value. *)
Theorem C1_frame_intake
    (lh : LiBoard_handlers) (ls : LiBoard_state)
    (dh : Recognizer_handlers) (ds : Recognizer_state)
    (now : Z) (frame rest : list byte) :
  LiBoard.serial_in ls = frame ++ rest →
  length frame = 8%nat →
  Bits_of_bytes frame ≠ Bits_hex_FFFF00000000FFFF →
  (let ls' := LiBoard._get_board_data lh ls now in
   LiBoard._physical_position_data ls' = Bits_of_bytes frame
   ∧ LiBoard._pos_checked ls' = false
   ∧ LiBoard._last_change ls' = now
   ∧ LiBoard._lifted_pieces ls' =
       LiBoard._lifted_pieces ls ∪
         (LiBoard._get_occupied_squares (LiBoard._known_position_data ls)
            ∖ LiBoard._get_occupied_squares (Bits_of_bytes frame)))
  ∧
  (let r := MoveRecognition.new_board_data dh ds (Bits_of_bytes frame) now in
   r.1 = Raised TypeError
   ∧ MoveRecognition._physical_pos r.2 =
       MoveRecognition._Position_of_Bits (Bits_of_bytes frame)
   ∧ MoveRecognition._pos_checked r.2 = false
   ∧ MoveRecognition._physical_pos_timestamp r.2 = now
   ∧ MoveRecognition._lifted r.2 = MoveRecognition._lifted ds).
Proof.
  intros Hin Hlen Hne. split.
  - rewrite (li_get_board_data_frame lh ls now frame rest Hin Hlen Hne).
    simpl. auto.
  - rewrite (ds_new_board_data_frame dh ds _ now Hne). simpl. auto.
Qed.
End FrameIntake.

(** C1 at the frame sent when the e2 pawn is lifted from the starting
    position, [FFFF00000000EFFF]. *)
Lemma C1_frame_intake_witness :
  let frame := GameTree.wire Examples.e2_lifted in
  let ls := Examples.li_at GameTree.start 0 frame in
  let r := MoveRecognition.new_board_data Examples.ds_no_handlers
             (MoveRecognition.init 0) (Bits_of_bytes frame) 7 in
  frame = [xff; xff; x00; x00; x00; x00; xef; xff]
  ∧ LiBoard._lifted_pieces (LiBoard._get_board_data Examples.li_no_handlers ls 7)
      = {[ GameTree.e2 ]}
  ∧ r.1 = Raised TypeError
  ∧ MoveRecognition._lifted r.2 = ∅.
Proof.
  pose proof (C1_frame_intake Examples.li_no_handlers
      (Examples.li_at GameTree.start 0 (GameTree.wire Examples.e2_lifted))
      Examples.ds_no_handlers (MoveRecognition.init 0) 7
      (GameTree.wire Examples.e2_lifted) []
      eq_refl eq_refl ltac:(vm_compute; discriminate)) as [HA HB].
  cbv zeta in HA, HB. cbv zeta.
  destruct HA as (_ & _ & _ & HA). destruct HB as (HB1 & _ & _ & _ & HB2).
  split; [vm_compute; reflexivity|].
  split; [rewrite HA; vm_compute; reflexivity|].
  split; [exact HB1 | exact HB2].
Defined.

(** ** Game start *)

Section GameStart.
Context {Board Move : Type} `{Oracle Board Move} `{SetOrder}.
Local Abbreviation LiBoard_state := (@LiBoard.state Board Move).
Local Abbreviation LiBoard_handlers := (@LiBoard.handlers Board Move).
Local Abbreviation Recognizer_state := (@MoveRecognition.state Board Move).
Local Abbreviation Recognizer_handlers := (@MoveRecognition.handlers Board Move).

Lemma li_start_game_fields (h : LiBoard_handlers) (s : LiBoard_state) :
  let s' := LiBoard.start_game h s in
  LiBoard.serial_in s' = LiBoard.serial_in s
  ∧ LiBoard.chessboard s' = board_reset (LiBoard.chessboard s)
  ∧ LiBoard._move_delay s' = LiBoard._move_delay s
  ∧ LiBoard._known_position_data s' = LiBoard.STARTING_POSITION
  ∧ LiBoard._physical_position_data s' = LiBoard._physical_position_data s
  ∧ LiBoard._last_change s' = LiBoard._last_change s
  ∧ LiBoard._pos_checked s' = LiBoard._pos_checked s
  ∧ LiBoard._lifted_pieces s' = ∅
  ∧ ∃ s0, LiBoard.events s' = LiBoard.events s ++ li_start_entries h s0.
Proof.
  unfold LiBoard.start_game, li_start_entries.
  destruct (LiBoard._start_handler h) as [handler|]; simpl;
    repeat (split; [reflexivity|]).
  - eexists. reflexivity.
  - exists s. symmetry. apply app_nil_r.
Qed.

Lemma li_get_board_data_start (h : LiBoard_handlers) (s : LiBoard_state)
    (now : Z) (frame rest : list byte) :
  LiBoard.serial_in s = frame ++ rest →
  length frame = 8%nat →
  Bits_of_bytes frame = LiBoard.STARTING_POSITION →
  LiBoard._get_board_data h s now =
    LiBoard.start_game h
      (LiBoard.set_serial_in
         (LiBoard.set_physical_position_data s LiBoard.STARTING_POSITION) rest).
Proof.
  intros Hin Hlen Heq.
  destruct (take_drop_frame frame rest Hlen) as (Htake & Hdrop & Hge).
  unfold LiBoard._get_board_data. rewrite Hin, Hge, Htake, Hdrop. simpl.
  unfold LiBoard._is_starting_position.
  rewrite bool_decide_eq_true_2 by exact Heq. rewrite Heq. reflexivity.
Qed.

(** [update] on the starting pattern stops after [start_game]: the
    test that guards [_generate_move] fails. *)
Lemma li_update_start (h : LiBoard_handlers) (s : LiBoard_state)
    (now_read now_check : Z) (frame rest : list byte) :
  LiBoard.serial_in s = frame ++ rest →
  length frame = 8%nat →
  Bits_of_bytes frame = LiBoard.STARTING_POSITION →
  LiBoard.update h s now_read now_check = LiBoard._get_board_data h s now_read.
Proof.
  intros Hin Hlen Heq. unfold LiBoard.update.
  rewrite (li_get_board_data_start h s now_read frame rest Hin Hlen Heq).
  match goal with |- context [LiBoard.start_game h ?s0] =>
    destruct (li_start_game_fields h s0) as (_ & _ & _ & Hk & Hp & _)
  end.
  rewrite Hk, Hp.
  cbn [LiBoard._physical_position_data LiBoard.set_serial_in
       LiBoard.set_physical_position_data].
  rewrite bool_decide_eq_false_2; [reflexivity|].
  intros Hne. apply Hne. reflexivity.
Qed.

Lemma ds_start_game_eq (h : Recognizer_handlers) (s : Recognizer_state) :
  MoveRecognition.start_game h s =
    {| MoveRecognition._board := board_reset (MoveRecognition._board s);
       MoveRecognition._move_delay := MoveRecognition._move_delay s;
       MoveRecognition._physical_pos := MoveRecognition._physical_pos s;
       MoveRecognition._physical_pos_timestamp :=
         MoveRecognition._physical_pos_timestamp s;
       MoveRecognition._pos_checked := MoveRecognition._pos_checked s;
       MoveRecognition._lifted := ∅;
       MoveRecognition.events :=
         MoveRecognition.events s
           ++ ds_start_entries h (board_reset (MoveRecognition._board s)) |}.
Proof.
  unfold MoveRecognition.start_game, ds_start_entries.
  destruct (MoveRecognition._start_handler h); simpl; [reflexivity|].
  rewrite app_nil_r. reflexivity.
Qed.

Lemma ds_new_board_data_start (h : Recognizer_handlers) (s : Recognizer_state)
    (now : Z) :
  MoveRecognition.new_board_data h s Bits_hex_FFFF00000000FFFF now =
    (Returned tt,
     MoveRecognition.start_game h
       (MoveRecognition.set_physical_pos s MoveRecognition._STARTING_POSITION)).
Proof.
  unfold MoveRecognition.new_board_data.
  change (MoveRecognition._Position_of_Bits Bits_hex_FFFF00000000FFFF)
    with (@MoveRecognition._STARTING_POSITION).
  cbn [MoveRecognition._physical_pos MoveRecognition.set_physical_pos].
  replace (MoveRecognition._Position_eq MoveRecognition._STARTING_POSITION
             MoveRecognition._STARTING_POSITION) with true
    by (symmetry; apply bool_decide_eq_true_2; reflexivity).
  reflexivity.
Qed.

Lemma ds_known_after_reset (b : Board) :
  reset_occupied_start →
  MoveRecognition._Position_of_Board (board_reset b)
    = MoveRecognition._STARTING_POSITION.
Proof.
  intros Hreset. unfold MoveRecognition._Position_of_Board.
  rewrite Hreset, Bits_of_uint_start. reflexivity.
Qed.

(** C2 (amended). Whatever the state, a snapshot equal to the starting
    pattern takes the game-start path and no classification is
    attempted: the Known Position and the oracle's board are those of
    the starting position, the Transiently-Lifted Set is empty, and the
    start handler, when one is registered, is called once.  The
    Recognition Gate is not written: it keeps the value it had. *)
Theorem C2_game_start
    (lh : LiBoard_handlers) (ls : LiBoard_state)
    (dh : Recognizer_handlers) (ds : Recognizer_state)
    (now_read now_check : Z) (frame rest : list byte) :
  reset_occupied_start →
  LiBoard.serial_in ls = frame ++ rest →
  length frame = 8%nat →
  Bits_of_bytes frame = Bits_hex_FFFF00000000FFFF →
  (let ls' := LiBoard.update lh ls now_read now_check in
   LiBoard._known_position_data ls' = LiBoard.STARTING_POSITION
   ∧ LiBoard._physical_position_data ls' = LiBoard.STARTING_POSITION
   ∧ LiBoard.chessboard ls' = board_reset (LiBoard.chessboard ls)
   ∧ LiBoard._lifted_pieces ls' = ∅
   ∧ LiBoard._pos_checked ls' = LiBoard._pos_checked ls
   ∧ ∃ s0, LiBoard.events ls' = LiBoard.events ls ++ li_start_entries lh s0)
  ∧
  (let r := MoveRecognition.new_board_data dh ds (Bits_of_bytes frame) now_read in
   r.1 = Returned tt
   ∧ MoveRecognition.known_position r.2 = MoveRecognition._STARTING_POSITION
   ∧ MoveRecognition._physical_pos r.2 = MoveRecognition._STARTING_POSITION
   ∧ MoveRecognition._board r.2 = board_reset (MoveRecognition._board ds)
   ∧ MoveRecognition._lifted r.2 = ∅
   ∧ MoveRecognition._pos_checked r.2 = MoveRecognition._pos_checked ds
   ∧ MoveRecognition.events r.2 =
       MoveRecognition.events ds
         ++ ds_start_entries dh (board_reset (MoveRecognition._board ds))
   ∧ ∀ now, MoveRecognition.tick dh r.2 now = r.2).
Proof.
  intros Hreset Hin Hlen Heq. split.
  - rewrite (li_update_start lh ls now_read now_check frame rest Hin Hlen Heq).
    rewrite (li_get_board_data_start lh ls now_read frame rest Hin Hlen Heq).
    match goal with |- context [LiBoard.start_game lh ?s0] =>
      destruct (li_start_game_fields lh s0)
        as (_ & Hb & _ & Hk & Hp & _ & Hg & Hl & He)
    end.
    cbv zeta. rewrite Hb, Hk, Hp, Hg, Hl. simpl. repeat split. exact He.
  - rewrite Heq, ds_new_board_data_start, ds_start_game_eq.
    cbv zeta. unfold MoveRecognition.known_position.
    cbn [fst snd MoveRecognition._board MoveRecognition._physical_pos
         MoveRecognition._lifted MoveRecognition._pos_checked
         MoveRecognition.events MoveRecognition.set_physical_pos].
    rewrite (ds_known_after_reset _ Hreset).
    repeat (split; [reflexivity|]).
    intros now. unfold MoveRecognition.tick.
    cbn [MoveRecognition._board MoveRecognition._physical_pos
         MoveRecognition._pos_checked MoveRecognition._physical_pos_timestamp
         MoveRecognition._move_delay].
    rewrite (ds_known_after_reset _ Hreset).
    replace (MoveRecognition._Position_eq MoveRecognition._STARTING_POSITION
               MoveRecognition._STARTING_POSITION) with true
      by (symmetry; apply bool_decide_eq_true_2; reflexivity).
    rewrite !andb_false_r. reflexivity.
Qed.
End GameStart.

(** ** The game-tree oracle honours the contract *)

Lemma GameTree_move_eqb_refl (m : GameTree.move) : GameTree.move_eqb m m = true.
Proof.
  unfold GameTree.move_eqb.
  rewrite !Z.eqb_refl, !Bool.eqb_reflx. reflexivity.
Qed.

Lemma GameTree_successor_listed (m : GameTree.move) (b : GameTree.board)
    (l : list (GameTree.move * GameTree.board)) :
  (m, b) ∈ l → is_Some (GameTree.successor m l).
Proof.
  induction l as [|[m' b'] l IH]; intros Hin.
  - inversion Hin.
  - simpl. destruct (GameTree.move_eqb m m') eqn:E; [eauto|].
    apply elem_of_cons in Hin as [Heq|Hin]; [|auto].
    inversion Heq; subst. rewrite GameTree_move_eqb_refl in E. discriminate.
Qed.

Lemma GameTree_lookup_found (f t : Z) (m : GameTree.move)
    (l : list (GameTree.move * GameTree.board)) :
  GameTree.lookup_squares f t l = Found m →
  GameTree.from_square m = f ∧ GameTree.to_square m = t ∧ f ≠ t
  ∧ ∃ b, (m, b) ∈ l.
Proof.
  induction l as [|[m' b'] l IH]; simpl; intros Hfound; [discriminate|].
  destruct ((GameTree.from_square m' =? f) && (GameTree.to_square m' =? t)
            && negb (f =? t)) eqn:E.
  - inversion Hfound; subst m'.
    apply andb_prop in E as [E Hne]. apply andb_prop in E as [Hf Ht].
    apply Z.eqb_eq in Hf, Ht. apply negb_true_iff, Z.eqb_neq in Hne.
    repeat split; auto. exists b'. left.
  - destruct (IH Hfound) as (Hf & Ht & Hne & b & Hin).
    repeat split; auto. exists b. right. exact Hin.
Qed.

Lemma GameTree_find_move_sound : @find_move_sound _ _ GameTree.oracle.
Proof.
  intros b f t m Hfound. simpl in Hfound.
  destruct (GameTree_lookup_found f t m _ Hfound) as (Hf & Ht & Hne & b' & Hin).
  split.
  - simpl. rewrite Hf, Ht.
    destruct (f =? 0) eqn:Ef; [|reflexivity].
    destruct (t =? 0) eqn:Et; [|reflexivity].
    apply Z.eqb_eq in Ef, Et. congruence.
  - simpl. apply bool_decide_eq_true_2.
    eapply GameTree_successor_listed. exact Hin.
Qed.

Lemma GameTree_reset_occupied_start : @reset_occupied_start _ _ GameTree.oracle.
Proof. intros b. reflexivity. Qed.

(** C2 on a game in progress whose pieces are set up again. *)
Lemma C2_game_start_witness :
  let frame := GameTree.wire GameTree.start_occupied in
  let ls := Examples.li_at GameTree.italian 0 frame in
  let ds := Examples.ds_at GameTree.italian 0 GameTree.italian_occupied ∅ in
  let ls' := LiBoard.update (Examples.li_handlers true) ls 1 2 in
  let r := MoveRecognition.new_board_data (Examples.ds_handlers true) ds
             (Bits_of_bytes frame) 1 in
  Bits_of_bytes frame = Bits_hex_FFFF00000000FFFF
  ∧ LiBoard.chessboard ls' = GameTree.start
  ∧ LiBoard._known_position_data ls' = LiBoard.STARTING_POSITION
  ∧ LiBoard._lifted_pieces ls' = ∅
  ∧ MoveRecognition._board r.2 = GameTree.start
  ∧ MoveRecognition.known_position r.2 = MoveRecognition._STARTING_POSITION
  ∧ MoveRecognition.events r.2 = [StartHandlerCalled true].
Proof.
  pose proof (C2_game_start (Examples.li_handlers true)
      (Examples.li_at GameTree.italian 0 (GameTree.wire GameTree.start_occupied))
      (Examples.ds_handlers true)
      (Examples.ds_at GameTree.italian 0 GameTree.italian_occupied ∅)
      1 2 (GameTree.wire GameTree.start_occupied) []
      GameTree_reset_occupied_start eq_refl eq_refl
      ltac:(vm_compute; reflexivity)) as [HA HB].
  cbv zeta in HA, HB. cbv zeta.
  destruct HA as (Hk & _ & Hb & Hl & _).
  destruct HB as (_ & Hdk & _ & Hdb & _ & _ & Hde & _).
  split; [vm_compute; reflexivity|].
  split; [exact Hb|]. split; [exact Hk|]. split; [exact Hl|].
  split; [exact Hdb|]. split; [exact Hdk|]. exact Hde.
Defined.

(** C2 as stated fails: the e2 pawn is lifted, the classification that
    follows finds nothing and sets the Recognition Gate; the pawn is put
    back and the board sends the starting pattern.  The game-start path
    runs and the gate is still set. *)
Lemma C2_counterexample_gate_stays_set :
  let lh := Examples.li_no_handlers in
  let ls0 := Examples.li_at GameTree.start 0 (GameTree.wire Examples.e2_lifted) in
  let ls1 := LiBoard.update lh ls0 1 2 in
  let ls2 := LiBoard.serial_receive ls1 (GameTree.wire GameTree.start_occupied) in
  let ls3 := LiBoard.update lh ls2 3 4 in
  let dh := Examples.ds_no_handlers in
  let ds1 := (MoveRecognition.new_board_data dh (MoveRecognition.init 0)
                (GameTree.snapshot Examples.e2_lifted) 1).2 in
  let ds2 := MoveRecognition.tick dh ds1 2 in
  let r3 := MoveRecognition.new_board_data dh ds2
              (GameTree.snapshot GameTree.start_occupied) 3 in
  LiBoard._pos_checked ls1 = true
  ∧ LiBoard._physical_position_data ls3 = LiBoard.STARTING_POSITION
  ∧ LiBoard._known_position_data ls3 = LiBoard.STARTING_POSITION
  ∧ LiBoard._pos_checked ls3 = true
  ∧ MoveRecognition._pos_checked ds2 = true
  ∧ r3.1 = Returned tt
  ∧ MoveRecognition._physical_pos r3.2 = MoveRecognition._STARTING_POSITION
  ∧ MoveRecognition._pos_checked r3.2 = true.
Proof. vm_compute. repeat split. Qed.

(** ** What a classification changes in a LiBoard *)

Section LiBoardClassification.
Context {Board Move : Type} `{Oracle Board Move} `{SetOrder}.
Local Abbreviation LiBoard_state := (@LiBoard.state Board Move).
Local Abbreviation LiBoard_handlers := (@LiBoard.handlers Board Move).

Lemma attempts_snoc_other (l : list (Event Move)) (e : Event Move) :
  is_attempt e = false → attempts (l ++ [e]) = attempts l.
Proof.
  intros He. unfold attempts. rewrite filter_app, length_app.
  rewrite filter_cons_False by (rewrite He; discriminate).
  rewrite filter_nil. simpl. lia.
Qed.

Lemma attempts_snoc_attempt (l : list (Event Move)) :
  attempts (l ++ [ClassificationAttempt]) = S (attempts l).
Proof.
  unfold attempts. rewrite filter_app, length_app.
  rewrite filter_cons_True by reflexivity.
  rewrite filter_nil. simpl. lia.
Qed.

Lemma li_kept_refl (s : LiBoard_state) : li_kept s s.
Proof. unfold li_kept. repeat split. Qed.

Lemma li_kept_trans (s1 s2 s3 : LiBoard_state) :
  li_kept s1 s2 → li_kept s2 s3 → li_kept s1 s3.
Proof.
  unfold li_kept. intros (A1 & A2 & A3 & A4 & A5 & A6) (B1 & B2 & B3 & B4 & B5 & B6).
  repeat split; congruence.
Qed.

(** [_make_move] on a legal move. *)
Lemma li_make_move_legal (h : LiBoard_handlers) (s : LiBoard_state) (m : Move) :
  board_is_legal (LiBoard.chessboard s) m = true →
  ∃ s', LiBoard._make_move h s m = (true, s')
        ∧ LiBoard._known_position_data s' = LiBoard._physical_position_data s
        ∧ LiBoard._lifted_pieces s' = ∅
        ∧ LiBoard.chessboard s' = board_push (LiBoard.chessboard s) m
        ∧ li_kept s s'
        ∧ (LiBoard.events s' = LiBoard.events s
           ∨ ∃ r, LiBoard.events s' = LiBoard.events s ++ [MoveHandlerCalled m r]).
Proof.
  intros Hlegal. unfold LiBoard._make_move. rewrite Hlegal.
  eexists. split; [reflexivity|].
  destruct (LiBoard._move_handler h) as [handler|]; simpl.
  - repeat (split; [reflexivity|]). split.
    + unfold li_kept. simpl. repeat (split; [reflexivity|]).
      apply attempts_snoc_other. reflexivity.
    + right. eexists. reflexivity.
  - repeat (split; [reflexivity|]). split.
    + unfold li_kept. simpl. repeat split.
    + left. reflexivity.
Qed.

(** [_make_move] on a move that is not legal. *)
Lemma li_make_move_illegal (h : LiBoard_handlers) (s : LiBoard_state) (m : Move) :
  board_is_legal (LiBoard.chessboard s) m = false →
  LiBoard._make_move h s m = (false, s).
Proof. intros Hillegal. unfold LiBoard._make_move. rewrite Hillegal. reflexivity. Qed.

Lemma li_make_move_kept (h : LiBoard_handlers) (s : LiBoard_state) (m : Move) :
  li_kept s (LiBoard._make_move h s m).2.
Proof.
  destruct (board_is_legal (LiBoard.chessboard s) m) eqn:E.
  - destruct (li_make_move_legal h s m E) as (s' & -> & _ & _ & _ & Hk & _).
    exact Hk.
  - rewrite (li_make_move_illegal h s m E). apply li_kept_refl.
Qed.

Lemma li_capture_loop_kept (h : LiBoard_handlers) (from_square : Z) (l : list Z) :
  ∀ s : LiBoard_state, li_kept s (LiBoard.capture_loop h s from_square l).2.
Proof.
  induction l as [|tlp rest IH]; intros s; simpl; [apply li_kept_refl|].
  destruct (LiBoard._find_candidate_move s from_square tlp) as [move|]; [|apply IH].
  destruct (move_bool move && board_is_capture (LiBoard.chessboard s) move); [|apply IH].
  pose proof (li_make_move_kept h s move) as Hk.
  destruct (LiBoard._make_move h s move) as [made s']. simpl in Hk.
  destruct made; [exact Hk|].
  eapply li_kept_trans; [exact Hk | apply IH].
Qed.

Lemma li_en_passant_loop_kept (h : LiBoard_handlers) (to_square : Z) (l : list Z) :
  ∀ s : LiBoard_state, li_kept s (LiBoard.en_passant_loop h s l to_square).2.
Proof.
  induction l as [|from_square rest IH]; intros s; simpl; [apply li_kept_refl|].
  destruct (LiBoard._find_candidate_move s from_square to_square) as [move|]; [|apply IH].
  destruct (move_bool move && board_is_en_passant (LiBoard.chessboard s) move); [|apply IH].
  pose proof (li_make_move_kept h s move) as Hk.
  destruct (LiBoard._make_move h s move) as [made s']. simpl in Hk.
  destruct made; [exact Hk|].
  eapply li_kept_trans; [exact Hk | apply IH].
Qed.

Lemma li_castling_inner_kept (h : LiBoard_handlers) (s : LiBoard_state)
    (from_square : Z) (l : list Z) (r : bool * LiBoard_state) :
  LiBoard.castling_inner h s from_square l = Some r → li_kept s r.2.
Proof.
  induction l as [|to_square rest IH]; simpl; [discriminate|].
  destruct (LiBoard._find_candidate_move s from_square to_square) as [move|]; [|exact IH].
  destruct (move_bool move && board_is_castling (LiBoard.chessboard s) move); [|exact IH].
  intros [= <-]. apply li_make_move_kept.
Qed.

Lemma li_castling_outer_kept (h : LiBoard_handlers) (s : LiBoard_state)
    (froms tos : list Z) (r : bool * LiBoard_state) :
  LiBoard.castling_outer h s froms tos = Some r → li_kept s r.2.
Proof.
  induction froms as [|from_square rest IH]; simpl; [discriminate|].
  destruct (LiBoard.castling_inner h s from_square tos) as [r'|] eqn:E; [|exact IH].
  intros [= <-]. eapply li_castling_inner_kept. exact E.
Qed.

(** The state in which [_generate_move] starts classifying: the gate is
    set (and the attempt logged). *)
Lemma li_generate_move_kept (h : LiBoard_handlers) (s : LiBoard_state) :
  li_kept (LiBoard.set_pos_checked (LiBoard.record_event s ClassificationAttempt) true)
          (LiBoard._generate_move h s).2.
Proof.
  unfold LiBoard._generate_move.
  set (s1 := LiBoard.set_pos_checked (LiBoard.record_event s ClassificationAttempt) true).
  cbv zeta.
  repeat match goal with
  | |- li_kept _ (if ?c then _ else _).2 => destruct c
  | |- li_kept _ (match ?o with Some _ => _ | None => _ end).2 =>
      let E := fresh "E" in destruct o eqn:E
  end;
  try apply li_kept_refl;
  try apply li_make_move_kept;
  try apply li_capture_loop_kept;
  try apply li_en_passant_loop_kept.
  eapply li_castling_outer_kept; eassumption.
Qed.

(** After [_generate_move] the gate is set and one more attempt is
    logged; the line, the delay, the Physical Position and the Pending
    Timestamp are as before. *)
Lemma li_generate_move_effect (h : LiBoard_handlers) (s : LiBoard_state) :
  let s' := (LiBoard._generate_move h s).2 in
  LiBoard._pos_checked s' = true
  ∧ attempts (LiBoard.events s') = S (attempts (LiBoard.events s))
  ∧ LiBoard.serial_in s' = LiBoard.serial_in s
  ∧ LiBoard._physical_position_data s' = LiBoard._physical_position_data s
  ∧ LiBoard._last_change s' = LiBoard._last_change s
  ∧ LiBoard._move_delay s' = LiBoard._move_delay s.
Proof.
  destruct (li_generate_move_kept h s) as (K1 & K2 & K3 & K4 & K5 & K6).
  cbv zeta. rewrite K1, K2, K3, K4, K5, K6. simpl.
  rewrite attempts_snoc_attempt. repeat split.
Qed.
End LiBoardClassification.

(** ** The settle timer *)

Section SettleTimer.
Context {Board Move : Type} `{Oracle Board Move} `{SetOrder}.
Local Abbreviation LiBoard_state := (@LiBoard.state Board Move).
Local Abbreviation LiBoard_handlers := (@LiBoard.handlers Board Move).
Local Abbreviation Recognizer_state := (@MoveRecognition.state Board Move).
Local Abbreviation Recognizer_handlers := (@MoveRecognition.handlers Board Move).

(** [update] with no frame waiting, when the test fails. *)
Lemma li_update_not_due (h : LiBoard_handlers) (s : LiBoard_state)
    (now_read now_check : Z) :
  (length (LiBoard.serial_in s) < 8)%nat →
  LiBoard._physical_position_data s = LiBoard._known_position_data s
  ∨ now_check < LiBoard._last_change s + LiBoard._move_delay s * 10 ^ 6
  ∨ LiBoard._pos_checked s = true →
  LiBoard.update h s now_read now_check = s.
Proof.
  intros Hidle Hcase. unfold LiBoard.update.
  rewrite (li_get_board_data_idle h s now_read Hidle).
  destruct Hcase as [Heq | [Hearly | Hgate]].
  - rewrite bool_decide_eq_false_2; [reflexivity|]. intros Hne. exact (Hne Heq).
  - assert ((LiBoard._last_change s + LiBoard._move_delay s * 10 ^ 6 <=? now_check)
            = false) as -> by (apply Z.leb_gt; exact Hearly).
    rewrite andb_false_r. reflexivity.
  - rewrite Hgate. rewrite andb_false_r. reflexivity.
Qed.

(** [update] with no frame waiting, when the test succeeds. *)
Lemma li_update_due (h : LiBoard_handlers) (s : LiBoard_state)
    (now_read now_check : Z) :
  (length (LiBoard.serial_in s) < 8)%nat →
  LiBoard._physical_position_data s ≠ LiBoard._known_position_data s →
  LiBoard._last_change s + LiBoard._move_delay s * 10 ^ 6 ≤ now_check →
  LiBoard._pos_checked s = false →
  LiBoard.update h s now_read now_check = (LiBoard._generate_move h s).2.
Proof.
  intros Hidle Hne Hlate Hgate. unfold LiBoard.update.
  rewrite (li_get_board_data_idle h s now_read Hidle).
  rewrite bool_decide_eq_true_2 by exact Hne.
  assert ((LiBoard._last_change s + LiBoard._move_delay s * 10 ^ 6 <=? now_check)
          = true) as -> by (apply Z.leb_le; exact Hlate).
  rewrite Hgate. reflexivity.
Qed.

Lemma li_updates_early (h : LiBoard_handlers) (s : LiBoard_state)
    (clock : list (Z * Z)) :
  (length (LiBoard.serial_in s) < 8)%nat →
  Forall (λ c, c.2 < LiBoard._last_change s + LiBoard._move_delay s * 10 ^ 6) clock →
  li_updates h s clock = s.
Proof.
  intros Hidle Hclock. induction Hclock as [|[now_read now_check] later Hc _ IH]; simpl.
  - reflexivity.
  - rewrite li_update_not_due by (auto; right; left; exact Hc). exact IH.
Qed.

(** [tick] when the test fails. *)
Lemma ds_tick_not_due (h : Recognizer_handlers) (s : Recognizer_state) (now : Z) :
  MoveRecognition._pos_checked s = true
  ∨ now < MoveRecognition._physical_pos_timestamp s + MoveRecognition._move_delay s
  ∨ MoveRecognition.bits (MoveRecognition._physical_pos s)
    = MoveRecognition.bits (MoveRecognition.known_position s) →
  MoveRecognition.tick h s now = s.
Proof.
  intros Hcase. unfold MoveRecognition.tick.
  destruct Hcase as [Hgate | [Hearly | Heq]].
  - rewrite Hgate. reflexivity.
  - assert ((MoveRecognition._physical_pos_timestamp s + MoveRecognition._move_delay s
             <=? now) = false) as -> by (apply Z.leb_gt; exact Hearly).
    rewrite andb_false_r. reflexivity.
  - unfold MoveRecognition._Position_eq.
    rewrite bool_decide_eq_true_2 by (symmetry; exact Heq).
    rewrite andb_false_r. reflexivity.
Qed.

(** What [tick] does once the test has succeeded. *)
Lemma ds_tick_due (h : Recognizer_handlers) (s : Recognizer_state) (now : Z) :
  MoveRecognition._pos_checked s = false →
  MoveRecognition._physical_pos_timestamp s + MoveRecognition._move_delay s ≤ now →
  MoveRecognition.bits (MoveRecognition._physical_pos s)
    ≠ MoveRecognition.bits (MoveRecognition.known_position s) →
  MoveRecognition.tick h s now =
    match MoveRecognition.find_move (MoveRecognition._board s)
            (ds_appeared s) (ds_disappeared s) (ds_temp_lifted s) with
    | Some move =>
        if move_bool move
        then MoveRecognition.tick_commit h (ds_classifying s) move
        else ds_classifying s
    | None => ds_classifying s
    end.
Proof.
  intros Hgate Hlate Hne. unfold MoveRecognition.tick.
  rewrite Hgate.
  assert ((MoveRecognition._physical_pos_timestamp s + MoveRecognition._move_delay s
           <=? now) = true) as -> by (apply Z.leb_le; exact Hlate).
  unfold MoveRecognition._Position_eq.
  rewrite bool_decide_eq_false_2
    by (intros E; apply Hne; symmetry; exact E).
  unfold ds_appeared, ds_disappeared, ds_temp_lifted, ds_classifying,
    MoveRecognition.known_position.
  reflexivity.
Qed.

Lemma ds_tick_commit_fields (h : Recognizer_handlers) (s : Recognizer_state)
    (m : Move) :
  let s' := MoveRecognition.tick_commit h s m in
  MoveRecognition._board s' = board_push (MoveRecognition._board s) m
  ∧ MoveRecognition._lifted s' = ∅
  ∧ MoveRecognition._move_delay s' = MoveRecognition._move_delay s
  ∧ MoveRecognition._physical_pos s' = MoveRecognition._physical_pos s
  ∧ MoveRecognition._physical_pos_timestamp s'
    = MoveRecognition._physical_pos_timestamp s
  ∧ MoveRecognition._pos_checked s' = MoveRecognition._pos_checked s
  ∧ attempts (MoveRecognition.events s') = attempts (MoveRecognition.events s)
  ∧ (MoveRecognition.events s' = MoveRecognition.events s
     ∨ ∃ r, MoveRecognition.events s'
            = MoveRecognition.events s ++ [MoveHandlerCalled m r]).
Proof.
  unfold MoveRecognition.tick_commit.
  destruct (MoveRecognition._move_handler h) as [handler|]; simpl.
  - repeat (split; [reflexivity|]). split.
    + apply attempts_snoc_other. reflexivity.
    + right. eexists. reflexivity.
  - repeat (split; [reflexivity|]). left. reflexivity.
Qed.

(** After a [tick] whose test succeeded the gate is set and one more
    attempt is logged. *)
Lemma ds_tick_due_effect (h : Recognizer_handlers) (s : Recognizer_state) (now : Z) :
  MoveRecognition._pos_checked s = false →
  MoveRecognition._physical_pos_timestamp s + MoveRecognition._move_delay s ≤ now →
  MoveRecognition.bits (MoveRecognition._physical_pos s)
    ≠ MoveRecognition.bits (MoveRecognition.known_position s) →
  let s' := MoveRecognition.tick h s now in
  MoveRecognition._pos_checked s' = true
  ∧ attempts (MoveRecognition.events s') = S (attempts (MoveRecognition.events s)).
Proof.
  intros Hgate Hlate Hne. cbv zeta.
  rewrite (ds_tick_due h s now Hgate Hlate Hne).
  set (s1 := ds_classifying s).
  assert (MoveRecognition._pos_checked s1 = true
          ∧ attempts (MoveRecognition.events s1)
            = S (attempts (MoveRecognition.events s))) as [G1 A1].
  { split; [reflexivity|]. simpl. apply attempts_snoc_attempt. }
  destruct (MoveRecognition.find_move _ _ _ _) as [move|]; [|auto].
  destruct (move_bool move); [|auto].
  destruct (ds_tick_commit_fields h s1 move) as (_ & _ & _ & _ & _ & G & A & _).
  rewrite G, A. auto.
Qed.

Lemma ds_ticks_early (h : Recognizer_handlers) (s : Recognizer_state)
    (clock : list Z) :
  Forall (λ now, now < MoveRecognition._physical_pos_timestamp s
                       + MoveRecognition._move_delay s) clock →
  ds_ticks h s clock = s.
Proof.
  intros Hclock. induction Hclock as [|now later Hc _ IH]; simpl.
  - reflexivity.
  - rewrite ds_tick_not_due by (right; left; exact Hc). exact IH.
Qed.
End SettleTimer.

Section Debounce.
Context {Board Move : Type} `{Oracle Board Move} `{SetOrder}.
Local Abbreviation LiBoard_state := (@LiBoard.state Board Move).
Local Abbreviation LiBoard_handlers := (@LiBoard.handlers Board Move).
Local Abbreviation Recognizer_state := (@MoveRecognition.state Board Move).
Local Abbreviation Recognizer_handlers := (@MoveRecognition.handlers Board Move).

(** The [update] that takes a diverging frame in at time [t] and reads
    the clock again before the delay has passed only does the intake. *)
Lemma li_update_frame_early (h : LiBoard_handlers) (s : LiBoard_state)
    (t now_check : Z) (frame rest : list byte) :
  LiBoard.serial_in s = frame ++ rest →
  length frame = 8%nat →
  Bits_of_bytes frame ≠ LiBoard.STARTING_POSITION →
  now_check < t + LiBoard._move_delay s * 10 ^ 6 →
  LiBoard.update h s t now_check = LiBoard._get_board_data h s t.
Proof.
  intros Hin Hlen Hne Hearly. unfold LiBoard.update.
  rewrite (li_get_board_data_frame h s t frame rest Hin Hlen Hne).
  cbn [LiBoard._last_change LiBoard._move_delay].
  assert ((t + LiBoard._move_delay s * 10 ^ 6 <=? now_check) = false) as ->
    by (apply Z.leb_gt; exact Hearly).
  rewrite andb_false_r. reflexivity.
Qed.

(** C3. A frame that makes the Physical Position differ from the Known
    Position is taken in at time [t], and no further frame arrives.  With
    a delay [D > 0] (milliseconds for [LiBoard], whose clock counts
    nanoseconds, hence [D * 10^6]; clock units for
    [DoubleSidedMoveRecognizer]), the updates or ticks that read the
    clock before [t + D] attempt no classification and change nothing;
    the first one that reads it at or after [t + D] attempts one. *)
Theorem C3_debounce
    (lh : LiBoard_handlers) (ls0 : LiBoard_state)
    (dh : Recognizer_handlers) (ds0 : Recognizer_state)
    (D t check0 late_read late : Z) (frame rest : list byte)
    (early : list (Z * Z)) (ticks : list Z) :
  0 < D →
  length frame = 8%nat →
  (length rest < 8)%nat →
  Bits_of_bytes frame ≠ Bits_hex_FFFF00000000FFFF →
  (LiBoard.serial_in ls0 = frame ++ rest →
   LiBoard._move_delay ls0 = D →
   Bits_of_bytes frame ≠ LiBoard._known_position_data ls0 →
   Forall (λ c, c.2 < t + D * 10 ^ 6) ((t, check0) :: early) →
   t + D * 10 ^ 6 ≤ late →
   let ls := li_updates lh ls0 ((t, check0) :: early) in
   let ls' := LiBoard.update lh ls late_read late in
   ls = LiBoard._get_board_data lh ls0 t
   ∧ attempts (LiBoard.events ls) = attempts (LiBoard.events ls0)
   ∧ attempts (LiBoard.events ls') = S (attempts (LiBoard.events ls0))
   ∧ LiBoard._pos_checked ls' = true)
  ∧
  (MoveRecognition._move_delay ds0 = D →
   Bits_of_bytes frame ≠ MoveRecognition.bits (MoveRecognition.known_position ds0) →
   Forall (λ now, now < t + D) ticks →
   t + D ≤ late →
   let ds1 := (MoveRecognition.new_board_data dh ds0 (Bits_of_bytes frame) t).2 in
   let ds := ds_ticks dh ds1 ticks in
   let ds' := MoveRecognition.tick dh ds late in
   ds = ds1
   ∧ attempts (MoveRecognition.events ds) = attempts (MoveRecognition.events ds0)
   ∧ attempts (MoveRecognition.events ds') = S (attempts (MoveRecognition.events ds0))
   ∧ MoveRecognition._pos_checked ds' = true).
Proof.
  intros HD Hlen Hrest Hne. split.
  - intros Hin Hdelay Hdiverge Hearly Hlate.
    apply Forall_cons in Hearly as [Hcheck0 Hearly]. simpl in Hcheck0.
    cbv zeta. cbn [li_updates].
    rewrite (li_update_frame_early lh ls0 t check0 frame rest Hin Hlen Hne)
      by (rewrite Hdelay; exact Hcheck0).
    rewrite (li_get_board_data_frame lh ls0 t frame rest Hin Hlen Hne).
    match goal with |- context [li_updates lh ?s1 early] => set (ls1 := s1) end.
    assert (li_updates lh ls1 early = ls1) as ->.
    { apply li_updates_early; [exact Hrest|].
      subst ls1. cbn [LiBoard._last_change LiBoard._move_delay].
      rewrite Hdelay. exact Hearly. }
    split; [reflexivity|]. split; [reflexivity|].
    rewrite li_update_due.
    + destruct (li_generate_move_effect lh ls1) as (Hg & Ha & _).
      split; [exact Ha | exact Hg].
    + exact Hrest.
    + exact Hdiverge.
    + subst ls1. cbn [LiBoard._last_change LiBoard._move_delay].
      rewrite Hdelay. exact Hlate.
    + reflexivity.
  - intros Hdelay Hdiverge Hearly Hlate. cbv zeta.
    rewrite (ds_new_board_data_frame dh ds0 _ t Hne). cbn [snd].
    match goal with |- context [ds_ticks dh ?s1 ticks] => set (ds1 := s1) end.
    assert (ds_ticks dh ds1 ticks = ds1) as ->.
    { apply ds_ticks_early. subst ds1.
      cbn [MoveRecognition._physical_pos_timestamp MoveRecognition._move_delay].
      rewrite Hdelay. exact Hearly. }
    split; [reflexivity|]. split; [reflexivity|].
    destruct (ds_tick_due_effect dh ds1 late) as (Hg & Ha).
    + reflexivity.
    + subst ds1.
      cbn [MoveRecognition._physical_pos_timestamp MoveRecognition._move_delay].
      rewrite Hdelay. exact Hlate.
    + exact Hdiverge.
    + split; [exact Ha | exact Hg].
Qed.
End Debounce.

(** C3 with a delay of 2 ms after the e2 pawn has been lifted at time
    1000: nothing is attempted at 1500 and at 2000999, an attempt is made
    at 2001000.  (For the recognizer the delay is 2 clock units.) *)
Lemma C3_debounce_witness :
  let frame := GameTree.wire Examples.e2_lifted in
  let ls0 := Examples.li_at GameTree.start 2 frame in
  let ls := li_updates Examples.li_no_handlers ls0 [(1000, 1500); (2000000, 2000999)] in
  let ds0 := Examples.ds_at GameTree.start 2 GameTree.start_occupied ∅ in
  let ds := ds_ticks Examples.ds_no_handlers
              (MoveRecognition.new_board_data Examples.ds_no_handlers ds0
                 (Bits_of_bytes frame) 1000).2 [1000; 1001] in
  attempts (LiBoard.events ls) = 0%nat
  ∧ attempts (LiBoard.events
                (LiBoard.update Examples.li_no_handlers ls 2001000 2001000)) = 1%nat
  ∧ attempts (MoveRecognition.events ds) = 0%nat
  ∧ attempts (MoveRecognition.events
                (MoveRecognition.tick Examples.ds_no_handlers ds 1002)) = 1%nat.
Proof.
  pose proof (C3_debounce Examples.li_no_handlers
      (Examples.li_at GameTree.start 2 (GameTree.wire Examples.e2_lifted))
      Examples.ds_no_handlers
      (Examples.ds_at GameTree.start 2 GameTree.start_occupied ∅)
      2 1000 1500 2001000 2001000 (GameTree.wire Examples.e2_lifted) []
      [(2000000, 2000999)] []
      ltac:(lia) eq_refl ltac:(simpl; lia) ltac:(vm_compute; discriminate))
    as [HA _].
  specialize (HA eq_refl eq_refl ltac:(vm_compute; discriminate)
                ltac:(repeat constructor) ltac:(lia)).
  pose proof (C3_debounce Examples.li_no_handlers
      (Examples.li_at GameTree.start 2 (GameTree.wire Examples.e2_lifted))
      Examples.ds_no_handlers
      (Examples.ds_at GameTree.start 2 GameTree.start_occupied ∅)
      2 1000 1500 1002 1002 (GameTree.wire Examples.e2_lifted) []
      [] [1000; 1001]
      ltac:(lia) eq_refl ltac:(simpl; lia) ltac:(vm_compute; discriminate))
    as [_ HB].
  specialize (HB eq_refl ltac:(vm_compute; discriminate)
                ltac:(repeat constructor) ltac:(lia)).
  cbv zeta in HA, HB. cbv zeta.
  destruct HA as (_ & HA1 & HA2 & _). destruct HB as (_ & HB1 & HB2 & _).
  repeat split; assumption.
Defined.

(** ** The recognition gate *)

Section RecognitionGate.
Context {Board Move : Type} `{Oracle Board Move} `{SetOrder}.
Local Abbreviation LiBoard_state := (@LiBoard.state Board Move).
Local Abbreviation LiBoard_handlers := (@LiBoard.handlers Board Move).
Local Abbreviation Recognizer_state := (@MoveRecognition.state Board Move).
Local Abbreviation Recognizer_handlers := (@MoveRecognition.handlers Board Move).

Lemma li_update_idle_cases (h : LiBoard_handlers) (s : LiBoard_state)
    (now_read now_check : Z) :
  (length (LiBoard.serial_in s) < 8)%nat →
  LiBoard.update h s now_read now_check = s
  ∨ LiBoard.update h s now_read now_check = (LiBoard._generate_move h s).2.
Proof.
  intros Hidle. unfold LiBoard.update.
  rewrite (li_get_board_data_idle h s now_read Hidle).
  destruct (_ && _); [right | left]; reflexivity.
Qed.

Lemma li_updates_gate_set (h : LiBoard_handlers) (s : LiBoard_state)
    (clock : list (Z * Z)) :
  (length (LiBoard.serial_in s) < 8)%nat →
  LiBoard._pos_checked s = true →
  li_updates h s clock = s.
Proof.
  intros Hidle Hgate. induction clock as [|[now_read now_check] later IH]; simpl.
  - reflexivity.
  - rewrite li_update_not_due by auto. exact IH.
Qed.

(** With nothing arriving on the line, any number of updates makes at
    most one classification attempt. *)
Lemma li_updates_at_most_one (h : LiBoard_handlers) (clock : list (Z * Z)) :
  ∀ s : LiBoard_state,
    (length (LiBoard.serial_in s) < 8)%nat →
    (attempts (LiBoard.events (li_updates h s clock))
     ≤ S (attempts (LiBoard.events s)))%nat.
Proof.
  induction clock as [|[now_read now_check] later IH]; intros s Hidle; simpl.
  - lia.
  - destruct (li_update_idle_cases h s now_read now_check Hidle) as [-> | ->].
    + apply IH. exact Hidle.
    + destruct (li_generate_move_effect h s) as (Hg & Ha & Hs & _).
      rewrite li_updates_gate_set; [lia | rewrite Hs; exact Hidle | exact Hg].
Qed.

Lemma ds_tick_cases (h : Recognizer_handlers) (s : Recognizer_state) (now : Z) :
  MoveRecognition.tick h s now = s
  ∨ (MoveRecognition._pos_checked (MoveRecognition.tick h s now) = true
     ∧ attempts (MoveRecognition.events (MoveRecognition.tick h s now))
       = S (attempts (MoveRecognition.events s))).
Proof.
  destruct (MoveRecognition._pos_checked s) eqn:Hgate.
  { left. apply ds_tick_not_due. left. exact Hgate. }
  destruct (Z.ltb_spec now (MoveRecognition._physical_pos_timestamp s
                            + MoveRecognition._move_delay s)) as [Hearly|Hlate].
  { left. apply ds_tick_not_due. right. left. exact Hearly. }
  destruct (decide (MoveRecognition.bits (MoveRecognition._physical_pos s)
                    = MoveRecognition.bits (MoveRecognition.known_position s)))
    as [Heq|Hne].
  { left. apply ds_tick_not_due. right. right. exact Heq. }
  right. apply ds_tick_due_effect; assumption.
Qed.

Lemma ds_ticks_gate_set (h : Recognizer_handlers) (s : Recognizer_state)
    (clock : list Z) :
  MoveRecognition._pos_checked s = true → ds_ticks h s clock = s.
Proof.
  intros Hgate. induction clock as [|now later IH]; simpl.
  - reflexivity.
  - rewrite ds_tick_not_due by auto. exact IH.
Qed.

Lemma ds_ticks_at_most_one (h : Recognizer_handlers) (clock : list Z) :
  ∀ s : Recognizer_state,
    (attempts (MoveRecognition.events (ds_ticks h s clock))
     ≤ S (attempts (MoveRecognition.events s)))%nat.
Proof.
  induction clock as [|now later IH]; intros s; simpl.
  - lia.
  - destruct (ds_tick_cases h s now) as [-> | [Hg Ha]].
    + apply IH.
    + rewrite ds_ticks_gate_set by exact Hg. lia.
Qed.

(** C4 (amended). Frame intake clears the Recognition Gate and restarts
    the delay for every snapshot other than the starting pattern; the
    snapshot is not compared with the Physical Position it replaces.
    Between two frame arrivals at most one classification attempt is
    made, however often the clock is read. *)
Theorem C4_gate_cleared_by_every_frame
    (lh : LiBoard_handlers) (ls : LiBoard_state)
    (dh : Recognizer_handlers) (ds : Recognizer_state)
    (now : Z) (frame rest : list byte)
    (li_clock : list (Z * Z)) (ds_clock : list Z) :
  LiBoard.serial_in ls = frame ++ rest →
  length frame = 8%nat →
  (length rest < 8)%nat →
  Bits_of_bytes frame ≠ Bits_hex_FFFF00000000FFFF →
  (let ls1 := LiBoard._get_board_data lh ls now in
   LiBoard._pos_checked ls1 = false
   ∧ LiBoard._last_change ls1 = now
   ∧ (attempts (LiBoard.events (li_updates lh ls1 li_clock))
      ≤ S (attempts (LiBoard.events ls)))%nat)
  ∧
  (let ds1 := (MoveRecognition.new_board_data dh ds (Bits_of_bytes frame) now).2 in
   MoveRecognition._pos_checked ds1 = false
   ∧ MoveRecognition._physical_pos_timestamp ds1 = now
   ∧ (attempts (MoveRecognition.events (ds_ticks dh ds1 ds_clock))
      ≤ S (attempts (MoveRecognition.events ds)))%nat).
Proof.
  intros Hin Hlen Hrest Hne. split; cbv zeta.
  - pose proof (li_updates_at_most_one lh li_clock
                  (LiBoard._get_board_data lh ls now)) as Hone.
    rewrite (li_get_board_data_frame lh ls now frame rest Hin Hlen Hne) in *.
    split; [reflexivity|]. split; [reflexivity|].
    apply Hone. exact Hrest.
  - pose proof (ds_ticks_at_most_one dh ds_clock
                  (MoveRecognition.new_board_data dh ds (Bits_of_bytes frame) now).2)
      as Hone.
    rewrite (ds_new_board_data_frame dh ds _ now Hne) in *.
    split; [reflexivity|]. split; [reflexivity|]. exact Hone.
Qed.
End RecognitionGate.

(** C4 (amended) when the frame that arrives repeats the Physical
    Position and the gate is set. *)
Lemma C4_gate_cleared_by_every_frame_witness :
  let frame := GameTree.wire Examples.e2_lifted in
  let ls := LiBoard.serial_receive
              (LiBoard.update Examples.li_no_handlers
                 (Examples.li_at GameTree.start 0 frame) 1 2) frame in
  let ls' := li_updates Examples.li_no_handlers
               (LiBoard._get_board_data Examples.li_no_handlers ls 3)
               [(4, 5); (6, 7)] in
  LiBoard._physical_position_data ls = Bits_of_bytes frame
  ∧ LiBoard._pos_checked ls = true
  ∧ LiBoard._pos_checked (LiBoard._get_board_data Examples.li_no_handlers ls 3) = false
  ∧ (attempts (LiBoard.events ls') ≤ 2)%nat.
Proof.
  pose proof (C4_gate_cleared_by_every_frame Examples.li_no_handlers
      (LiBoard.serial_receive
         (LiBoard.update Examples.li_no_handlers
            (Examples.li_at GameTree.start 0 (GameTree.wire Examples.e2_lifted)) 1 2)
         (GameTree.wire Examples.e2_lifted))
      Examples.ds_no_handlers (MoveRecognition.init 0) 3
      (GameTree.wire Examples.e2_lifted) [] [(4, 5); (6, 7)] []
      ltac:(vm_compute; reflexivity) eq_refl ltac:(simpl; lia)
      ltac:(vm_compute; discriminate)) as [HA _].
  cbv zeta in HA. cbv zeta. destruct HA as (Hg & _ & Hone).
  split; [vm_compute; reflexivity|]. split; [vm_compute; reflexivity|].
  split; [exact Hg|]. exact Hone.
Defined.

(** C4 as stated fails.  With a delay of 1 ms the e2 pawn is lifted at
    time 0; the classification at 2 ms finds nothing and sets the gate.
    The board sends the same snapshot again at 2.5 ms: the intake clears
    the gate although the Physical Position has not changed, and a second
    classification of that same position is attempted at 4 ms. *)
Lemma C4_counterexample_resent_snapshot :
  let frame := GameTree.wire Examples.e2_lifted in
  let lh := Examples.li_no_handlers in
  let ls1 := LiBoard.update lh (Examples.li_at GameTree.start 1 frame) 0 2000000 in
  let ls2 := LiBoard.serial_receive ls1 frame in
  let ls3 := LiBoard.update lh ls2 2500000 4000000 in
  let dh := Examples.ds_no_handlers in
  let ds0 := Examples.ds_at GameTree.start 1 GameTree.start_occupied ∅ in
  let ds1 := MoveRecognition.tick dh
               (MoveRecognition.new_board_data dh ds0 (Bits_of_bytes frame) 0).2 2 in
  let ds2 := (MoveRecognition.new_board_data dh ds1 (Bits_of_bytes frame) 3).2 in
  let ds3 := MoveRecognition.tick dh ds2 5 in
  (LiBoard._pos_checked ls1 = true
   ∧ attempts (LiBoard.events ls1) = 1%nat
   ∧ LiBoard._physical_position_data ls1 = Bits_of_bytes frame
   ∧ LiBoard._pos_checked (LiBoard._get_board_data lh ls2 2500000) = false
   ∧ LiBoard._physical_position_data ls3 = LiBoard._physical_position_data ls1
   ∧ attempts (LiBoard.events ls3) = 2%nat)
  ∧
  (MoveRecognition._pos_checked ds1 = true
   ∧ attempts (MoveRecognition.events ds1) = 1%nat
   ∧ MoveRecognition._physical_pos ds1 = MoveRecognition._Position_of_Bits (Bits_of_bytes frame)
   ∧ MoveRecognition._pos_checked ds2 = false
   ∧ MoveRecognition._physical_pos ds3 = MoveRecognition._physical_pos ds1
   ∧ attempts (MoveRecognition.events ds3) = 2%nat).
Proof. vm_compute. repeat split. Qed.

(** ** The classifier *)

Section FirstAccepted.
Context {Move : Type}.
Variable find : Z → Z → FindResult Move.
Variable kind : Move → bool.

Lemma first_accepted_functional (cands : list (Z * Z)) (r1 r2 : option Move) :
  first_accepted find kind cands r1 → first_accepted find kind cands r2 → r1 = r2.
Proof.
  intros H1. revert r2.
  induction H1 as [|f t m rest Hf Hk|f t rest r Hf _ IH|f t m rest r Hf Hk _ IH];
    intros r2 H2; inversion H2; subst; try congruence; auto.
Qed.

(** The accepted move belongs to a candidate pair, and every pair tried
    before it was turned down. *)
Lemma first_accepted_Some (cands : list (Z * Z)) (m : Move) :
  first_accepted find kind cands (Some m) →
  ∃ before f t after,
    cands = before ++ (f, t) :: after
    ∧ find f t = Found m ∧ kind m = true
    ∧ ∀ f' t' m', (f', t') ∈ before → find f' t' = Found m' → kind m' = false.
Proof.
  intros Hfa. remember (Some m) as r eqn:Hr.
  induction Hfa as [|f t m0 rest Hf Hk|f t rest r Hf _ IH|f t m0 rest r Hf Hk _ IH].
  - discriminate.
  - inversion Hr; subst m0. exists [], f, t, rest. repeat split; auto.
    intros f' t' m' Hin. inversion Hin.
  - destruct (IH Hr) as (before & f0 & t0 & after & -> & Hf0 & Hk0 & Hbefore).
    exists ((f, t) :: before), f0, t0, after. repeat split; auto.
    intros f' t' m' Hin Hf'. apply elem_of_cons in Hin as [Heq|Hin].
    + inversion Heq; subst. congruence.
    + eapply Hbefore; eauto.
  - destruct (IH Hr) as (before & f0 & t0 & after & -> & Hf0 & Hk0 & Hbefore).
    exists ((f, t) :: before), f0, t0, after. repeat split; auto.
    intros f' t' m' Hin Hf'. apply elem_of_cons in Hin as [Heq|Hin].
    + inversion Heq; subst. congruence.
    + eapply Hbefore; eauto.
Qed.

(** No move is returned exactly when no candidate pair qualifies. *)
Lemma first_accepted_None (cands : list (Z * Z)) :
  first_accepted find kind cands None ↔
  ∀ f t m, (f, t) ∈ cands → find f t = Found m → kind m = false.
Proof.
  split.
  - intros Hfa. remember None as r eqn:Hr.
    induction Hfa as [|f t m0 rest Hf Hk|f t rest r Hf _ IH|f t m0 rest r Hf Hk _ IH];
      intros f' t' m' Hin Hf'.
    + inversion Hin.
    + discriminate.
    + apply elem_of_cons in Hin as [Heq|Hin]; [inversion Heq; subst; congruence|].
      eapply IH; eauto.
    + apply elem_of_cons in Hin as [Heq|Hin]; [inversion Heq; subst; congruence|].
      eapply IH; eauto.
  - induction cands as [|[f t] rest IH]; intros Hall; [constructor|].
    destruct (find f t) as [m|] eqn:Hf.
    + eapply fa_other_kind; [exact Hf | |].
      * eapply Hall; [left | exact Hf].
      * apply IH. intros f' t' m' Hin. apply Hall. right. exact Hin.
    + eapply fa_no_legal_move; [exact Hf|].
      apply IH. intros f' t' m' Hin. apply Hall. right. exact Hin.
Qed.

Lemma first_accepted_app_Some (l1 l2 : list (Z * Z)) (m : Move) :
  first_accepted find kind l1 (Some m) →
  first_accepted find kind (l1 ++ l2) (Some m).
Proof.
  intros Hfa. remember (Some m) as r eqn:Hr.
  induction Hfa; simpl; subst.
  - discriminate.
  - inversion Hr; subst. eapply fa_accept; eauto.
  - eapply fa_no_legal_move; eauto.
  - eapply fa_other_kind; eauto.
Qed.

Lemma first_accepted_app_None (l1 l2 : list (Z * Z)) (r : option Move) :
  first_accepted find kind l1 None →
  first_accepted find kind l2 r →
  first_accepted find kind (l1 ++ l2) r.
Proof.
  intros Hfa. remember None as r1 eqn:Hr.
  induction Hfa; simpl; intros H2; subst.
  - exact H2.
  - discriminate.
  - eapply fa_no_legal_move; eauto.
  - eapply fa_other_kind; eauto.
Qed.
End FirstAccepted.

Section Classifier.
Context {Board Move : Type} `{Oracle Board Move} `{SetOrder}.
Local Abbreviation LiBoard_state := (@LiBoard.state Board Move).
Local Abbreviation LiBoard_handlers := (@LiBoard.handlers Board Move).
Local Abbreviation Recognizer_state := (@MoveRecognition.state Board Move).
Local Abbreviation Recognizer_handlers := (@MoveRecognition.handlers Board Move).

Hypothesis oracle_sound : find_move_sound.

Lemma found_is_truthy (b : Board) (f t : Z) (m : Move) :
  board_find_move b f t = Found m → move_bool m = true.
Proof. intros Hf. exact (proj1 (oracle_sound b f t m Hf)). Qed.

Lemma found_is_legal (b : Board) (f t : Z) (m : Move) :
  board_find_move b f t = Found m → board_is_legal b m = true.
Proof. intros Hf. exact (proj2 (oracle_sound b f t m Hf)). Qed.

(** *** The loops of [MoveRecognizer.find_move] *)

Lemma mr_capture_loop_first (b : Board) (from_square : Z) (tlps : list Z) :
  first_accepted (board_find_move b) (board_is_capture b)
    (map (λ tlp, (from_square, tlp)) tlps)
    (MoveRecognition.capture_loop b from_square tlps).
Proof.
  induction tlps as [|tlp rest IH]; simpl; [constructor|].
  unfold MoveRecognition._find_candidate_move.
  destruct (board_find_move b from_square tlp) as [m|] eqn:Hf.
  - rewrite (found_is_truthy b _ _ m Hf). simpl.
    destruct (board_is_capture b m) eqn:Hk.
    + eapply fa_accept; eauto.
    + eapply fa_other_kind; eauto.
  - eapply fa_no_legal_move; eauto.
Qed.

Lemma mr_en_passant_loop_first (b : Board) (froms : list Z) (to_square : Z) :
  first_accepted (board_find_move b) (board_is_en_passant b)
    (map (λ from_square, (from_square, to_square)) froms)
    (MoveRecognition.en_passant_loop b froms to_square).
Proof.
  induction froms as [|from_square rest IH]; simpl; [constructor|].
  unfold MoveRecognition._find_candidate_move.
  destruct (board_find_move b from_square to_square) as [m|] eqn:Hf.
  - rewrite (found_is_truthy b _ _ m Hf). simpl.
    destruct (board_is_en_passant b m) eqn:Hk.
    + eapply fa_accept; eauto.
    + eapply fa_other_kind; eauto.
  - eapply fa_no_legal_move; eauto.
Qed.

Lemma mr_castling_inner_first (b : Board) (from_square : Z) (tos : list Z) :
  first_accepted (board_find_move b) (board_is_castling b)
    (map (λ to_square, (from_square, to_square)) tos)
    (MoveRecognition.castling_inner b from_square tos).
Proof.
  induction tos as [|to_square rest IH]; simpl; [constructor|].
  unfold MoveRecognition._find_candidate_move.
  destruct (board_find_move b from_square to_square) as [m|] eqn:Hf.
  - rewrite (found_is_truthy b _ _ m Hf). simpl.
    destruct (board_is_castling b m) eqn:Hk.
    + eapply fa_accept; eauto.
    + eapply fa_other_kind; eauto.
  - eapply fa_no_legal_move; eauto.
Qed.

Lemma mr_castling_outer_first (b : Board) (froms tos : list Z) :
  first_accepted (board_find_move b) (board_is_castling b)
    (candidate_pairs froms tos)
    (MoveRecognition.castling_outer b froms tos).
Proof.
  induction froms as [|from_square rest IH]; simpl; [constructor|].
  pose proof (mr_castling_inner_first b from_square tos) as Hinner.
  destruct (MoveRecognition.castling_inner b from_square tos) as [m|].
  - apply first_accepted_app_Some. exact Hinner.
  - apply first_accepted_app_None; [exact Hinner | exact IH].
Qed.

(** *** The branches of [MoveRecognizer.find_move] *)

(** One square vacated, one newly occupied. *)
Lemma mr_find_move_quiet (b : Board) (f a : Z) (temp_lifted : gset Z) :
  MoveRecognition.find_move b {[a]} {[f]} temp_lifted =
    match board_find_move b f a with
    | Found m =>
        if negb (board_is_capture b m) && negb (board_is_castling b m)
        then Some m else None
    | NoLegalMove => None
    end.
Proof.
  unfold MoveRecognition.find_move.
  rewrite !py_len_singleton, !py_pop_singleton. simpl.
  unfold MoveRecognition._find_candidate_move.
  destruct (board_find_move b f a) as [m|] eqn:Hf; [|reflexivity].
  rewrite (found_is_truthy b _ _ m Hf). reflexivity.
Qed.

(** One square vacated, none newly occupied, some square vacated
    earlier and occupied again. *)
Lemma mr_find_move_capture (b : Board) (f : Z) (temp_lifted : gset Z) :
  temp_lifted ≠ ∅ →
  MoveRecognition.find_move b ∅ {[f]} temp_lifted =
    MoveRecognition.capture_loop b f (set_iter temp_lifted).
Proof.
  intros Hne. unfold MoveRecognition.find_move.
  rewrite py_len_singleton, py_len_empty, py_pop_singleton. simpl.
  assert ((py_len temp_lifted =? 0)%nat = false) as ->; [|reflexivity].
  apply Nat.eqb_neq. unfold py_len. intros Hsize.
  apply Hne. apply size_empty_inv in Hsize. apply leibniz_equiv. exact Hsize.
Qed.

(** Two squares vacated, two newly occupied. *)
Lemma mr_find_move_castling (b : Board) (appearances disappearances temp_lifted : gset Z) :
  size disappearances = 2%nat →
  size appearances = 2%nat →
  MoveRecognition.find_move b appearances disappearances temp_lifted =
    MoveRecognition.castling_outer b (set_iter disappearances) (set_iter appearances).
Proof.
  intros Hd Ha. unfold MoveRecognition.find_move, py_len.
  rewrite Hd, Ha. reflexivity.
Qed.

(** Whatever [find_move] returns was found by the oracle. *)
Lemma mr_find_move_found (b : Board) (appearances disappearances temp_lifted : gset Z)
    (m : Move) :
  MoveRecognition.find_move b appearances disappearances temp_lifted = Some m →
  ∃ f t, board_find_move b f t = Found m.
Proof.
  assert (∀ kind cands, first_accepted (board_find_move b) kind cands (Some m) →
                        ∃ f t, board_find_move b f t = Found m) as Hfa.
  { intros kind cands Hfa.
    destruct (first_accepted_Some _ _ _ _ Hfa) as (_ & f & t & _ & _ & Hf & _).
    eauto. }
  unfold MoveRecognition.find_move.
  repeat match goal with
  | |- (if ?c then _ else _) = Some m → _ => destruct c
  | |- match py_pop ?X with Some _ => _ | None => _ end = Some m → _ =>
      destruct (py_pop X)
  end; try discriminate.
  - unfold MoveRecognition._find_candidate_move.
    destruct (board_find_move b z z0) as [m'|] eqn:Hf; [|discriminate].
    destruct (_ && _); [|discriminate]. intros [= ->]. eauto.
  - intros Hloop. eapply Hfa. rewrite <- Hloop. apply mr_capture_loop_first.
  - intros Hloop. eapply Hfa. rewrite <- Hloop. apply mr_en_passant_loop_first.
  - intros Hloop. eapply Hfa. rewrite <- Hloop. apply mr_castling_outer_first.
Qed.
End Classifier.

(** ** The two implementations classify alike *)

Section Agreement.
Context {Board Move : Type} `{Oracle Board Move} `{SetOrder}.
Local Abbreviation LiBoard_state := (@LiBoard.state Board Move).
Local Abbreviation LiBoard_handlers := (@LiBoard.handlers Board Move).
Local Abbreviation Recognizer_state := (@MoveRecognition.state Board Move).
Local Abbreviation Recognizer_handlers := (@MoveRecognition.handlers Board Move).

Hypothesis oracle_sound : find_move_sound.

Lemma li_capture_loop_agrees (h : LiBoard_handlers) (s : LiBoard_state)
    (from_square : Z) (tlps : list Z) :
  LiBoard.capture_loop h s from_square tlps =
    match MoveRecognition.capture_loop (LiBoard.chessboard s) from_square tlps with
    | Some m => LiBoard._make_move h s m
    | None => (false, s)
    end.
Proof.
  induction tlps as [|tlp rest IH]; simpl; [reflexivity|].
  unfold LiBoard._find_candidate_move, MoveRecognition._find_candidate_move.
  destruct (board_find_move (LiBoard.chessboard s) from_square tlp) as [m|] eqn:Hf;
    [|exact IH].
  destruct (move_bool m && board_is_capture (LiBoard.chessboard s) m); [|exact IH].
  destruct (li_make_move_legal h s m (found_is_legal oracle_sound _ _ _ _ Hf))
    as (s' & -> & _).
  reflexivity.
Qed.

Lemma li_en_passant_loop_agrees (h : LiBoard_handlers) (s : LiBoard_state)
    (froms : list Z) (to_square : Z) :
  LiBoard.en_passant_loop h s froms to_square =
    match MoveRecognition.en_passant_loop (LiBoard.chessboard s) froms to_square with
    | Some m => LiBoard._make_move h s m
    | None => (false, s)
    end.
Proof.
  induction froms as [|from_square rest IH]; simpl; [reflexivity|].
  unfold LiBoard._find_candidate_move, MoveRecognition._find_candidate_move.
  destruct (board_find_move (LiBoard.chessboard s) from_square to_square)
    as [m|] eqn:Hf; [|exact IH].
  destruct (move_bool m && board_is_en_passant (LiBoard.chessboard s) m); [|exact IH].
  destruct (li_make_move_legal h s m (found_is_legal oracle_sound _ _ _ _ Hf))
    as (s' & -> & _).
  reflexivity.
Qed.

Lemma li_castling_inner_agrees (h : LiBoard_handlers) (s : LiBoard_state)
    (from_square : Z) (tos : list Z) :
  LiBoard.castling_inner h s from_square tos =
    match MoveRecognition.castling_inner (LiBoard.chessboard s) from_square tos with
    | Some m => Some (LiBoard._make_move h s m)
    | None => None
    end.
Proof.
  induction tos as [|to_square rest IH]; simpl; [reflexivity|].
  unfold LiBoard._find_candidate_move, MoveRecognition._find_candidate_move.
  destruct (board_find_move (LiBoard.chessboard s) from_square to_square)
    as [m|]; [|exact IH].
  destruct (move_bool m && board_is_castling (LiBoard.chessboard s) m);
    [reflexivity | exact IH].
Qed.

Lemma li_castling_outer_agrees (h : LiBoard_handlers) (s : LiBoard_state)
    (froms tos : list Z) :
  LiBoard.castling_outer h s froms tos =
    match MoveRecognition.castling_outer (LiBoard.chessboard s) froms tos with
    | Some m => Some (LiBoard._make_move h s m)
    | None => None
    end.
Proof.
  induction froms as [|from_square rest IH]; simpl; [reflexivity|].
  rewrite li_castling_inner_agrees.
  destruct (MoveRecognition.castling_inner (LiBoard.chessboard s) from_square tos);
    [reflexivity | exact IH].
Qed.

(** [LiBoard._generate_move] commits what [MoveRecognizer.find_move]
    returns on the same delta, and nothing when it returns nothing. *)
Lemma li_generate_move_agrees (h : LiBoard_handlers) (s : LiBoard_state) :
  LiBoard._generate_move h s =
    match MoveRecognition.find_move (LiBoard.chessboard s)
            (li_appeared s) (li_disappeared s) (li_temp_lifted s) with
    | Some m => LiBoard._make_move h (li_classifying s) m
    | None => (false, li_classifying s)
    end.
Proof.
  unfold LiBoard._generate_move, MoveRecognition.find_move.
  fold (li_classifying s). cbv zeta.
  change (LiBoard._get_occupied_squares
            (LiBoard._known_position_data (li_classifying s))
          ∖ LiBoard._get_occupied_squares
              (LiBoard._physical_position_data (li_classifying s)))
    with (li_disappeared s).
  change (LiBoard._get_occupied_squares
            (LiBoard._physical_position_data (li_classifying s))
          ∖ LiBoard._get_occupied_squares
              (LiBoard._known_position_data (li_classifying s)))
    with (li_appeared s).
  change (LiBoard._lifted_pieces (li_classifying s)
          ∩ LiBoard._get_occupied_squares
              (LiBoard._physical_position_data (li_classifying s)))
    with (li_temp_lifted s).
  change (LiBoard.chessboard s) with (LiBoard.chessboard (li_classifying s)).
  destruct ((py_len (li_disappeared s) =? 1)%nat && (py_len (li_appeared s) =? 1)%nat).
  { destruct (py_pop (li_disappeared s)) as [f|]; [|reflexivity].
    destruct (py_pop (li_appeared s)) as [a|]; [|reflexivity].
    unfold LiBoard._find_candidate_move, MoveRecognition._find_candidate_move.
    destruct (board_find_move _ f a) as [m|]; [|reflexivity].
    destruct (_ && _); reflexivity. }
  destruct (_ && _).
  { destruct (py_pop (li_disappeared s)) as [f|]; [|reflexivity].
    apply li_capture_loop_agrees. }
  destruct (_ && _).
  { destruct (py_pop (li_appeared s)) as [a|]; [|reflexivity].
    apply li_en_passant_loop_agrees. }
  destruct (_ && _); [|reflexivity].
  rewrite li_castling_outer_agrees.
  destruct (MoveRecognition.castling_outer _ _ _); reflexivity.
Qed.

(** What [LiBoard._generate_move] yields, in terms of the answer of the
    classifier. *)
Lemma li_generate_move_outcome (h : LiBoard_handlers) (s : LiBoard_state) :
  li_outcome s
    (MoveRecognition.find_move (LiBoard.chessboard s)
       (li_appeared s) (li_disappeared s) (li_temp_lifted s))
    (LiBoard._generate_move h s).
Proof.
  rewrite li_generate_move_agrees.
  destruct (MoveRecognition.find_move _ _ _ _) as [m|] eqn:Hfind; simpl;
    [|reflexivity].
  destruct (mr_find_move_found oracle_sound _ _ _ _ _ Hfind) as (f & t & Hf).
  destruct (li_make_move_legal h (li_classifying s) m)
    as (s' & -> & Hk & Hl & Hb & (_ & _ & _ & _ & Hg & _) & _).
  { exact (found_is_legal oracle_sound _ _ _ _ Hf). }
  simpl. rewrite Hk, Hl, Hb, Hg. repeat split.
Qed.

(** What a [tick] whose test succeeded yields, in terms of the answer
    of the classifier. *)
Lemma ds_tick_outcome (h : Recognizer_handlers) (s : Recognizer_state) (now : Z) :
  MoveRecognition._pos_checked s = false →
  MoveRecognition._physical_pos_timestamp s + MoveRecognition._move_delay s ≤ now →
  MoveRecognition.bits (MoveRecognition._physical_pos s)
    ≠ MoveRecognition.bits (MoveRecognition.known_position s) →
  ds_outcome s
    (MoveRecognition.find_move (MoveRecognition._board s)
       (ds_appeared s) (ds_disappeared s) (ds_temp_lifted s))
    (MoveRecognition.tick h s now).
Proof.
  intros Hgate Hlate Hne.
  rewrite (ds_tick_due h s now Hgate Hlate Hne).
  destruct (MoveRecognition.find_move _ _ _ _) as [m|] eqn:Hfind;
    unfold ds_outcome; [|reflexivity].
  destruct (mr_find_move_found oracle_sound _ _ _ _ _ Hfind) as (f & t & Hf).
  rewrite (found_is_truthy oracle_sound _ _ _ _ Hf).
  destruct (ds_tick_commit_fields h (ds_classifying s) m)
    as (Hb & Hl & _ & _ & _ & Hg & _).
  rewrite Hb, Hl, Hg. repeat split.
Qed.

(** A delta that is not empty makes the two positions differ. *)
Lemma ds_delta_diverges (s : Recognizer_state) (x : Z) :
  x ∈ ds_disappeared s →
  MoveRecognition.bits (MoveRecognition._physical_pos s)
    ≠ MoveRecognition.bits (MoveRecognition.known_position s).
Proof.
  unfold ds_disappeared, MoveRecognition.occupied_squares. intros Hx Heq.
  rewrite Heq in Hx. apply elem_of_difference in Hx as [Hin Hout].
  exact (Hout Hin).
Qed.
End Agreement.

(** ** The rules of the classifier *)

Section Rules.
Context {Board Move : Type} `{Oracle Board Move} `{SetOrder}.
Local Abbreviation LiBoard_state := (@LiBoard.state Board Move).
Local Abbreviation LiBoard_handlers := (@LiBoard.handlers Board Move).
Local Abbreviation Recognizer_state := (@MoveRecognition.state Board Move).
Local Abbreviation Recognizer_handlers := (@MoveRecognition.handlers Board Move).

Lemma set_iter_pair (X : gset Z) :
  size X = 2%nat → ∃ x y, set_iter X = [x; y].
Proof.
  intros Hsize. rewrite <- set_iter_length in Hsize.
  destruct (set_iter X) as [|x [|y [|z l]]]; try discriminate. eauto.
Qed.

Lemma candidate_pairs_elem (froms tos : list Z) (f t : Z) :
  (f, t) ∈ candidate_pairs froms tos ↔ f ∈ froms ∧ t ∈ tos.
Proof.
  unfold candidate_pairs. rewrite list_elem_of_In, in_flat_map. split.
  - intros (f' & Hf & Hin). apply in_map_iff in Hin as (t' & Heq & Ht).
    inversion Heq; subst. split; apply list_elem_of_In; assumption.
  - intros [Hf Ht]. exists f. split; [apply list_elem_of_In; exact Hf|].
    apply in_map_iff. exists t. split; [reflexivity|].
    apply list_elem_of_In. exact Ht.
Qed.

(** C5. When exactly one square [f] has been vacated and exactly one
    square [a] newly occupied, the oracle is asked for a legal move from
    [f] to [a]; that move is returned, and committed, exactly when the
    oracle finds one and classifies it neither as a capture nor as
    castling, and otherwise no move is returned and nothing is
    committed. *)
Theorem C5_quiet_move
    (b : Board) (f a : Z) (temp_lifted : gset Z)
    (lh : LiBoard_handlers) (ls : LiBoard_state)
    (dh : Recognizer_handlers) (ds : Recognizer_state) (now : Z) :
  find_move_sound →
  let accepted :=
    match board_find_move b f a with
    | Found m =>
        if negb (board_is_capture b m) && negb (board_is_castling b m)
        then Some m else None
    | NoLegalMove => None
    end in
  MoveRecognition.find_move b {[a]} {[f]} temp_lifted = accepted
  ∧ (LiBoard.chessboard ls = b →
     li_disappeared ls = {[f]} →
     li_appeared ls = {[a]} →
     li_outcome ls accepted (LiBoard._generate_move lh ls))
  ∧ (MoveRecognition._board ds = b →
     ds_disappeared ds = {[f]} →
     ds_appeared ds = {[a]} →
     MoveRecognition._pos_checked ds = false →
     MoveRecognition._physical_pos_timestamp ds + MoveRecognition._move_delay ds ≤ now →
     ds_outcome ds accepted (MoveRecognition.tick dh ds now)).
Proof.
  intros Hsound accepted. split; [|split].
  - apply mr_find_move_quiet. exact Hsound.
  - intros Hb Hd Ha.
    pose proof (li_generate_move_outcome Hsound lh ls) as Hout.
    rewrite Hb, Hd, Ha, (mr_find_move_quiet Hsound) in Hout. exact Hout.
  - intros Hb Hd Ha Hgate Hlate.
    pose proof (ds_tick_outcome Hsound dh ds now Hgate Hlate) as Hout.
    rewrite Hb, Hd, Ha, (mr_find_move_quiet Hsound) in Hout.
    apply Hout. apply (ds_delta_diverges ds f). rewrite Hd.
    apply elem_of_singleton. reflexivity.
Qed.

(** C6. When exactly one square [f] has been vacated, none newly
    occupied, and the set of squares vacated earlier and occupied again
    is not empty, each of those squares is tried in turn as destination
    of a move from [f]; the first legal move the oracle finds and
    classifies as a capture is returned and committed, and when there is
    none no move is returned and nothing is committed. *)
Theorem C6_simple_capture
    (b : Board) (f : Z) (temp_lifted : gset Z)
    (lh : LiBoard_handlers) (ls : LiBoard_state)
    (dh : Recognizer_handlers) (ds : Recognizer_state) (now : Z) :
  find_move_sound →
  temp_lifted ≠ ∅ →
  let cands := map (λ tlp, (f, tlp)) (set_iter temp_lifted) in
  let accepted := MoveRecognition.find_move b ∅ {[f]} temp_lifted in
  cands ≡ₚ map (λ tlp, (f, tlp)) (elements temp_lifted)
  ∧ first_accepted (board_find_move b) (board_is_capture b) cands accepted
  ∧ (LiBoard.chessboard ls = b →
     li_disappeared ls = {[f]} →
     li_appeared ls = ∅ →
     li_temp_lifted ls = temp_lifted →
     li_outcome ls accepted (LiBoard._generate_move lh ls))
  ∧ (MoveRecognition._board ds = b →
     ds_disappeared ds = {[f]} →
     ds_appeared ds = ∅ →
     ds_temp_lifted ds = temp_lifted →
     MoveRecognition._pos_checked ds = false →
     MoveRecognition._physical_pos_timestamp ds + MoveRecognition._move_delay ds ≤ now →
     ds_outcome ds accepted (MoveRecognition.tick dh ds now)).
Proof.
  intros Hsound Hne cands accepted. split; [|split; [|split]].
  - subst cands. rewrite (set_iter_perm temp_lifted). reflexivity.
  - subst cands accepted. rewrite mr_find_move_capture by exact Hne.
    apply mr_capture_loop_first. exact Hsound.
  - intros Hb Hd Ha Ht.
    pose proof (li_generate_move_outcome Hsound lh ls) as Hout.
    rewrite Hb, Hd, Ha, Ht in Hout. exact Hout.
  - intros Hb Hd Ha Ht Hgate Hlate.
    pose proof (ds_tick_outcome Hsound dh ds now Hgate Hlate) as Hout.
    rewrite Hb, Hd, Ha, Ht in Hout.
    apply Hout. apply (ds_delta_diverges ds f). rewrite Hd.
    apply elem_of_singleton. reflexivity.
Qed.

(** C7. When exactly two squares have been vacated and exactly two
    newly occupied, the four pairs (vacated square, newly occupied
    square) are tried in turn; the first legal move the oracle finds and
    classifies as castling is returned and committed, and when no pair
    has one no move is returned and nothing is committed. *)
Theorem C7_castling
    (b : Board) (appearances disappearances temp_lifted : gset Z)
    (lh : LiBoard_handlers) (ls : LiBoard_state)
    (dh : Recognizer_handlers) (ds : Recognizer_state) (now : Z) :
  find_move_sound →
  size disappearances = 2%nat →
  size appearances = 2%nat →
  let cands := candidate_pairs (set_iter disappearances) (set_iter appearances) in
  let accepted := MoveRecognition.find_move b appearances disappearances temp_lifted in
  length cands = 4%nat
  ∧ (∀ from_square to_square,
       (from_square, to_square) ∈ cands
       ↔ from_square ∈ disappearances ∧ to_square ∈ appearances)
  ∧ first_accepted (board_find_move b) (board_is_castling b) cands accepted
  ∧ (LiBoard.chessboard ls = b →
     li_disappeared ls = disappearances →
     li_appeared ls = appearances →
     li_temp_lifted ls = temp_lifted →
     li_outcome ls accepted (LiBoard._generate_move lh ls))
  ∧ (MoveRecognition._board ds = b →
     ds_disappeared ds = disappearances →
     ds_appeared ds = appearances →
     ds_temp_lifted ds = temp_lifted →
     MoveRecognition._pos_checked ds = false →
     MoveRecognition._physical_pos_timestamp ds + MoveRecognition._move_delay ds ≤ now →
     ds_outcome ds accepted (MoveRecognition.tick dh ds now)).
Proof.
  intros Hsound Hd Ha cands accepted. split; [|split; [|split; [|split]]].
  - subst cands.
    destruct (set_iter_pair _ Hd) as (x & y & ->).
    destruct (set_iter_pair _ Ha) as (u & v & ->). reflexivity.
  - intros from_square to_square. subst cands.
    rewrite candidate_pairs_elem, !set_iter_elem. reflexivity.
  - subst cands accepted. rewrite mr_find_move_castling by assumption.
    apply mr_castling_outer_first. exact Hsound.
  - intros Hb Hdis Happ Ht.
    pose proof (li_generate_move_outcome Hsound lh ls) as Hout.
    rewrite Hb, Hdis, Happ, Ht in Hout. exact Hout.
  - intros Hb Hdis Happ Ht Hgate Hlate.
    pose proof (ds_tick_outcome Hsound dh ds now Hgate Hlate) as Hout.
    rewrite Hb, Hdis, Happ, Ht in Hout.
    apply Hout.
    destruct (size_pos_elem_of disappearances) as [x Hx]; [lia|].
    apply (ds_delta_diverges ds x). rewrite Hdis. exact Hx.
Qed.
End Rules.

(** C5 on 1. e4 played from the starting position. *)
Lemma C5_quiet_move_witness :
  let ls := Examples.li_seen GameTree.start 0 (GameTree.occupied GameTree.after_e4)
              {[ GameTree.e2 ]} in
  let ds := Examples.ds_at GameTree.start 0 (GameTree.occupied GameTree.after_e4) ∅ in
  MoveRecognition.find_move GameTree.start {[ GameTree.e4 ]} {[ GameTree.e2 ]} ∅
    = Some (GameTree.quiet GameTree.e2 GameTree.e4)
  ∧ LiBoard.chessboard (LiBoard._generate_move Examples.li_no_handlers ls).2
    = GameTree.after_e4
  ∧ MoveRecognition._board (MoveRecognition.tick Examples.ds_no_handlers ds 5)
    = GameTree.after_e4.
Proof.
  pose proof (C5_quiet_move GameTree.start GameTree.e2 GameTree.e4 ∅
      Examples.li_no_handlers
      (Examples.li_seen GameTree.start 0 (GameTree.occupied GameTree.after_e4)
         {[ GameTree.e2 ]})
      Examples.ds_no_handlers
      (Examples.ds_at GameTree.start 0 (GameTree.occupied GameTree.after_e4) ∅)
      5 GameTree_find_move_sound) as Hc.
  cbv zeta in Hc. destruct Hc as (Hfind & Hli & Hds).
  specialize (Hli eq_refl ltac:(vm_compute; reflexivity) ltac:(vm_compute; reflexivity)).
  specialize (Hds eq_refl ltac:(vm_compute; reflexivity) ltac:(vm_compute; reflexivity)
                eq_refl ltac:(cbn; lia)).
  cbv zeta. split; [exact Hfind|].
  destruct Hli as (_ & Hb & _). destruct Hds as (Hdb & _).
  split; [exact Hb | exact Hdb].
Defined.

(** C6 on the capture e4 x d5 after 1. e4 d5, both pieces having been
    lifted before the capturing pawn was set down on d5. *)
Lemma C6_simple_capture_witness :
  let lifted : gset Z := {[ GameTree.e4; GameTree.d5 ]} in
  let ls := Examples.li_seen GameTree.e4_d5 0
              (GameTree.occupied GameTree.after_exd5) lifted in
  let ds := Examples.ds_at GameTree.e4_d5 0
              (GameTree.occupied GameTree.after_exd5) lifted in
  MoveRecognition.find_move GameTree.e4_d5 ∅ {[ GameTree.e4 ]} {[ GameTree.d5 ]}
    = Some (GameTree.takes GameTree.e4 GameTree.d5)
  ∧ LiBoard.chessboard (LiBoard._generate_move Examples.li_no_handlers ls).2
    = GameTree.after_exd5
  ∧ MoveRecognition._board (MoveRecognition.tick Examples.ds_no_handlers ds 5)
    = GameTree.after_exd5.
Proof.
  assert (MoveRecognition.find_move GameTree.e4_d5 ∅ {[ GameTree.e4 ]} {[ GameTree.d5 ]}
          = Some (GameTree.takes GameTree.e4 GameTree.d5)) as Hfind
    by (vm_compute; reflexivity).
  pose proof (C6_simple_capture GameTree.e4_d5 GameTree.e4 {[ GameTree.d5 ]}
      Examples.li_no_handlers
      (Examples.li_seen GameTree.e4_d5 0 (GameTree.occupied GameTree.after_exd5)
         {[ GameTree.e4; GameTree.d5 ]})
      Examples.ds_no_handlers
      (Examples.ds_at GameTree.e4_d5 0 (GameTree.occupied GameTree.after_exd5)
         {[ GameTree.e4; GameTree.d5 ]})
      5 GameTree_find_move_sound (non_empty_singleton_L GameTree.d5)) as Hc.
  cbv zeta in Hc. destruct Hc as (_ & _ & Hli & Hds).
  specialize (Hli eq_refl ltac:(vm_compute; reflexivity) ltac:(vm_compute; reflexivity)
                ltac:(vm_compute; reflexivity)).
  specialize (Hds eq_refl ltac:(vm_compute; reflexivity) ltac:(vm_compute; reflexivity)
                ltac:(vm_compute; reflexivity) eq_refl ltac:(cbn; lia)).
  rewrite Hfind in Hli, Hds.
  cbv zeta. split; [exact Hfind|].
  destruct Hli as (_ & Hb & _). destruct Hds as (Hdb & _).
  split; [exact Hb | exact Hdb].
Defined.

(** C7 on White castling short after 1. e4 e5 2. Nf3 Nc6 3. Bc4 Bc5. *)
Lemma C7_castling_witness :
  let ls := Examples.li_seen GameTree.italian 0
              (GameTree.occupied GameTree.after_castling) ∅ in
  let ds := Examples.ds_at GameTree.italian 0
              (GameTree.occupied GameTree.after_castling) ∅ in
  MoveRecognition.find_move GameTree.italian
      {[ GameTree.f1; GameTree.g1 ]} {[ GameTree.e1; GameTree.h1 ]} ∅
    = Some (GameTree.castles GameTree.e1 GameTree.g1)
  ∧ LiBoard.chessboard (LiBoard._generate_move Examples.li_no_handlers ls).2
    = GameTree.after_castling
  ∧ MoveRecognition._board (MoveRecognition.tick Examples.ds_no_handlers ds 5)
    = GameTree.after_castling.
Proof.
  assert (MoveRecognition.find_move GameTree.italian
            {[ GameTree.f1; GameTree.g1 ]} {[ GameTree.e1; GameTree.h1 ]} ∅
          = Some (GameTree.castles GameTree.e1 GameTree.g1)) as Hfind
    by (vm_compute; reflexivity).
  assert (size ({[ GameTree.e1; GameTree.h1 ]} : gset Z) = 2%nat) as Hd
    by (vm_compute; reflexivity).
  assert (size ({[ GameTree.f1; GameTree.g1 ]} : gset Z) = 2%nat) as Ha
    by (vm_compute; reflexivity).
  pose proof (C7_castling GameTree.italian
      {[ GameTree.f1; GameTree.g1 ]} {[ GameTree.e1; GameTree.h1 ]} ∅
      Examples.li_no_handlers
      (Examples.li_seen GameTree.italian 0 (GameTree.occupied GameTree.after_castling) ∅)
      Examples.ds_no_handlers
      (Examples.ds_at GameTree.italian 0 (GameTree.occupied GameTree.after_castling) ∅)
      5 GameTree_find_move_sound Hd Ha) as Hc.
  cbv zeta in Hc. destruct Hc as (_ & _ & _ & Hli & Hds).
  specialize (Hli eq_refl ltac:(vm_compute; reflexivity) ltac:(vm_compute; reflexivity)
                ltac:(vm_compute; reflexivity)).
  specialize (Hds eq_refl ltac:(vm_compute; reflexivity) ltac:(vm_compute; reflexivity)
                ltac:(vm_compute; reflexivity) eq_refl ltac:(cbn; lia)).
  rewrite Hfind in Hli, Hds.
  cbv zeta. split; [exact Hfind|].
  destruct Hli as (_ & Hb & _). destruct Hds as (Hdb & _).
  split; [exact Hb | exact Hdb].
Defined.

(** ** Committing a move *)

Section Commit.
Context {Board Move : Type} `{Oracle Board Move} `{SetOrder}.
Local Abbreviation LiBoard_state := (@LiBoard.state Board Move).
Local Abbreviation LiBoard_handlers := (@LiBoard.handlers Board Move).
Local Abbreviation Recognizer_state := (@MoveRecognition.state Board Move).
Local Abbreviation Recognizer_handlers := (@MoveRecognition.handlers Board Move).



End Commit.


(** ** Handlers are only notified *)

Section HandlersLiBoard.
Context {Board Move : Type} `{Oracle Board Move} `{SetOrder}.
Local Abbreviation LiBoard_state := (@LiBoard.state Board Move).
Local Abbreviation LiBoard_handlers := (@LiBoard.handlers Board Move).

Lemma li_mute_same (h1 h2 : LiBoard_handlers) :
  li_same_registration h1 h2 → li_mute h1 = li_mute h2.
Proof.
  intros [Hs Hm]. unfold li_mute.
  destruct h1 as [s1 m1], h2 as [s2 m2]. simpl in *.
  assert (∀ (A B : Type) (c : B) (o1 o2 : option A),
            (is_Some o1 ↔ is_Some o2) →
            match o1 with Some _ => Some c | None => None end
            = match o2 with Some _ => Some c | None => None end) as Hopt.
  { intros A B c [x|] [y|] Hiff; try reflexivity.
    - destruct (proj1 Hiff (ex_intro _ x eq_refl)) as [z Hz]. discriminate.
    - destruct (proj2 Hiff (ex_intro _ y eq_refl)) as [z Hz]. discriminate. }
  rewrite (Hopt _ _ _ s1 s2 Hs), (Hopt _ _ _ m1 m2 Hm). reflexivity.
Qed.

(** The fields other than the log are those of the object itself. *)
Lemma li_erase_serial_in (s : LiBoard_state) :
  LiBoard.serial_in (li_erase s) = LiBoard.serial_in s.
Proof. reflexivity. Qed.
Lemma li_erase_chessboard (s : LiBoard_state) :
  LiBoard.chessboard (li_erase s) = LiBoard.chessboard s.
Proof. reflexivity. Qed.
Lemma li_erase_move_delay (s : LiBoard_state) :
  LiBoard._move_delay (li_erase s) = LiBoard._move_delay s.
Proof. reflexivity. Qed.
Lemma li_erase_known (s : LiBoard_state) :
  LiBoard._known_position_data (li_erase s) = LiBoard._known_position_data s.
Proof. reflexivity. Qed.
Lemma li_erase_physical (s : LiBoard_state) :
  LiBoard._physical_position_data (li_erase s) = LiBoard._physical_position_data s.
Proof. reflexivity. Qed.
Lemma li_erase_last_change (s : LiBoard_state) :
  LiBoard._last_change (li_erase s) = LiBoard._last_change s.
Proof. reflexivity. Qed.
Lemma li_erase_pos_checked (s : LiBoard_state) :
  LiBoard._pos_checked (li_erase s) = LiBoard._pos_checked s.
Proof. reflexivity. Qed.
Lemma li_erase_lifted (s : LiBoard_state) :
  LiBoard._lifted_pieces (li_erase s) = LiBoard._lifted_pieces s.
Proof. reflexivity. Qed.

Local Ltac li_fields :=
  rewrite ?li_erase_serial_in, ?li_erase_chessboard, ?li_erase_move_delay,
    ?li_erase_known, ?li_erase_physical, ?li_erase_last_change,
    ?li_erase_pos_checked, ?li_erase_lifted.

Lemma li_erase_record_event (s : LiBoard_state) (e : Event Move) :
  li_erase (LiBoard.record_event s e) = LiBoard.record_event (li_erase s) (forget_ret e).
Proof.
  unfold li_erase, LiBoard.record_event. simpl. rewrite map_app. reflexivity.
Qed.

Lemma li_erase_classifying (s : LiBoard_state) :
  li_erase (li_classifying s) = li_classifying (li_erase s).
Proof.
  unfold li_classifying.
  change (li_erase (LiBoard.set_pos_checked
                      (LiBoard.record_event s ClassificationAttempt) true))
    with (LiBoard.set_pos_checked
            (li_erase (LiBoard.record_event s ClassificationAttempt)) true).
  rewrite li_erase_record_event. reflexivity.
Qed.

Lemma li_erase_start_game (h : LiBoard_handlers) (s : LiBoard_state) :
  li_erase (LiBoard.start_game h s) = LiBoard.start_game (li_mute h) (li_erase s).
Proof.
  unfold LiBoard.start_game, li_mute. cbn [LiBoard._start_handler].
  destruct (LiBoard._start_handler h) as [handler|]; [|reflexivity].
  rewrite li_erase_record_event. reflexivity.
Qed.

Lemma li_erase_get_board_data (h : LiBoard_handlers) (s : LiBoard_state) (now : Z) :
  li_erase (LiBoard._get_board_data h s now)
  = LiBoard._get_board_data (li_mute h) (li_erase s) now.
Proof.
  unfold LiBoard._get_board_data. li_fields.
  destruct (8 <=? length (LiBoard.serial_in s))%nat; [|reflexivity].
  cbv zeta.
  change (LiBoard._physical_position_data
            (LiBoard.set_serial_in
               (LiBoard.set_physical_position_data (li_erase s)
                  (Bits_of_bytes (take 8 (LiBoard.serial_in s))))
               (drop 8 (LiBoard.serial_in s))))
    with (Bits_of_bytes (take 8 (LiBoard.serial_in s))).
  change (LiBoard._physical_position_data
            (LiBoard.set_serial_in
               (LiBoard.set_physical_position_data s
                  (Bits_of_bytes (take 8 (LiBoard.serial_in s))))
               (drop 8 (LiBoard.serial_in s))))
    with (Bits_of_bytes (take 8 (LiBoard.serial_in s))).
  destruct (LiBoard._is_starting_position _).
  - rewrite li_erase_start_game. reflexivity.
  - reflexivity.
Qed.

Lemma li_erase_make_move (h : LiBoard_handlers) (s : LiBoard_state) (m : Move) :
  li_erase_result (LiBoard._make_move h s m)
  = LiBoard._make_move (li_mute h) (li_erase s) m.
Proof.
  unfold LiBoard._make_move, li_mute. li_fields. cbn [LiBoard._move_handler].
  destruct (board_is_legal (LiBoard.chessboard s) m); [|reflexivity].
  destruct (LiBoard._move_handler h) as [handler|]; [|reflexivity].
  cbv zeta. unfold li_erase_result. cbn [fst snd].
  rewrite li_erase_record_event. reflexivity.
Qed.

Lemma li_find_candidate_move_erase (s : LiBoard_state) (f t : Z) :
  LiBoard._find_candidate_move (li_erase s) f t = LiBoard._find_candidate_move s f t.
Proof. reflexivity. Qed.

Lemma li_erase_capture_loop (h : LiBoard_handlers) (from_square : Z) (tlps : list Z) :
  ∀ s : LiBoard_state,
    li_erase_result (LiBoard.capture_loop h s from_square tlps)
    = LiBoard.capture_loop (li_mute h) (li_erase s) from_square tlps.
Proof.
  induction tlps as [|tlp rest IH]; intros s; [reflexivity|].
  cbn [LiBoard.capture_loop]. rewrite li_find_candidate_move_erase. li_fields.
  destruct (LiBoard._find_candidate_move s from_square tlp) as [move|]; [|apply IH].
  destruct (move_bool move && board_is_capture (LiBoard.chessboard s) move);
    [|apply IH].
  rewrite <- li_erase_make_move.
  destruct (LiBoard._make_move h s move) as [made s'].
  unfold li_erase_result at 2. cbn [fst snd].
  destruct made; [reflexivity | apply IH].
Qed.

Lemma li_erase_en_passant_loop (h : LiBoard_handlers) (to_square : Z) (froms : list Z) :
  ∀ s : LiBoard_state,
    li_erase_result (LiBoard.en_passant_loop h s froms to_square)
    = LiBoard.en_passant_loop (li_mute h) (li_erase s) froms to_square.
Proof.
  induction froms as [|from_square rest IH]; intros s; [reflexivity|].
  cbn [LiBoard.en_passant_loop]. rewrite li_find_candidate_move_erase. li_fields.
  destruct (LiBoard._find_candidate_move s from_square to_square) as [move|];
    [|apply IH].
  destruct (move_bool move && board_is_en_passant (LiBoard.chessboard s) move);
    [|apply IH].
  rewrite <- li_erase_make_move.
  destruct (LiBoard._make_move h s move) as [made s'].
  unfold li_erase_result at 2. cbn [fst snd].
  destruct made; [reflexivity | apply IH].
Qed.

Lemma li_erase_castling_inner (h : LiBoard_handlers) (s : LiBoard_state)
    (from_square : Z) (tos : list Z) :
  li_erase_result <$> LiBoard.castling_inner h s from_square tos
  = LiBoard.castling_inner (li_mute h) (li_erase s) from_square tos.
Proof.
  induction tos as [|to_square rest IH]; [reflexivity|].
  cbn [LiBoard.castling_inner]. rewrite li_find_candidate_move_erase. li_fields.
  destruct (LiBoard._find_candidate_move s from_square to_square) as [move|];
    [|apply IH].
  destruct (move_bool move && board_is_castling (LiBoard.chessboard s) move);
    [|apply IH].
  rewrite <- li_erase_make_move. reflexivity.
Qed.

Lemma li_erase_castling_outer (h : LiBoard_handlers) (s : LiBoard_state)
    (froms tos : list Z) :
  li_erase_result <$> LiBoard.castling_outer h s froms tos
  = LiBoard.castling_outer (li_mute h) (li_erase s) froms tos.
Proof.
  induction froms as [|from_square rest IH]; [reflexivity|].
  cbn [LiBoard.castling_outer]. rewrite <- li_erase_castling_inner.
  destruct (LiBoard.castling_inner h s from_square tos) as [r|];
    [reflexivity | apply IH].
Qed.
End HandlersLiBoard.

Section HandlersRuns.
Context {Board Move : Type} `{Oracle Board Move} `{SetOrder}.
Local Abbreviation LiBoard_state := (@LiBoard.state Board Move).
Local Abbreviation LiBoard_handlers := (@LiBoard.handlers Board Move).
Local Abbreviation Recognizer_state := (@MoveRecognition.state Board Move).
Local Abbreviation Recognizer_handlers := (@MoveRecognition.handlers Board Move).

Lemma li_erase_generate_move (h : LiBoard_handlers) (s : LiBoard_state) :
  li_erase_result (LiBoard._generate_move h s)
  = LiBoard._generate_move (li_mute h) (li_erase s).
Proof.
  unfold LiBoard._generate_move.
  fold (li_classifying s). fold (li_classifying (li_erase s)).
  rewrite <- li_erase_classifying. cbv zeta.
  rewrite ?li_erase_known, ?li_erase_physical, ?li_erase_lifted.
  destruct (_ && _).
  { destruct (py_pop _) as [f|]; [|reflexivity].
    destruct (py_pop _) as [a|]; [|reflexivity].
    rewrite li_find_candidate_move_erase, ?li_erase_chessboard.
    destruct (LiBoard._find_candidate_move _ f a) as [move|]; [|reflexivity].
    destruct (_ && _); [|reflexivity].
    apply li_erase_make_move. }
  destruct (_ && _).
  { destruct (py_pop _) as [f|]; [|reflexivity]. apply li_erase_capture_loop. }
  destruct (_ && _).
  { destruct (py_pop _) as [a|]; [|reflexivity]. apply li_erase_en_passant_loop. }
  destruct (_ && _); [|reflexivity].
  rewrite <- li_erase_castling_outer.
  destruct (LiBoard.castling_outer h _ _ _) as [r|]; reflexivity.
Qed.

Lemma li_erase_update (h : LiBoard_handlers) (s : LiBoard_state)
    (now_read now_check : Z) :
  li_erase (LiBoard.update h s now_read now_check)
  = LiBoard.update (li_mute h) (li_erase s) now_read now_check.
Proof.
  unfold LiBoard.update. cbv zeta.
  rewrite <- li_erase_get_board_data.
  rewrite li_erase_known, li_erase_physical, li_erase_last_change,
    li_erase_move_delay, li_erase_pos_checked.
  destruct (_ && _); [|reflexivity].
  rewrite <- li_erase_generate_move. reflexivity.
Qed.

Lemma li_erase_step (h : LiBoard_handlers) (s : LiBoard_state) (i : li_input) :
  li_erase (li_step h s i) = li_step (li_mute h) (li_erase s) i.
Proof.
  destruct i as [data|now_read now_check|]; cbn [li_step].
  - reflexivity.
  - apply li_erase_update.
  - apply li_erase_start_game.
Qed.

Lemma li_erase_run (h : LiBoard_handlers) (inputs : list li_input) :
  ∀ s : LiBoard_state,
    li_erase (li_run h s inputs) = li_run (li_mute h) (li_erase s) inputs.
Proof.
  unfold li_run. induction inputs as [|i rest IH]; intros s; [reflexivity|].
  cbn [fold_left]. rewrite IH, li_erase_step. reflexivity.
Qed.

Lemma li_erase_same_core (s1 s2 : LiBoard_state) :
  li_erase s1 = li_erase s2 → li_same_core s1 s2.
Proof.
  unfold li_erase, li_same_core. intros [= ? ? ? ? ? ? ? ? ?].
  repeat split; assumption.
Qed.

(** *** DoubleSidedMoveRecognizer *)

Lemma ds_mute_same (h1 h2 : Recognizer_handlers) :
  ds_same_registration h1 h2 → ds_mute h1 = ds_mute h2.
Proof.
  intros [Hs Hm]. unfold ds_mute.
  destruct h1 as [s1 m1], h2 as [s2 m2]. simpl in *.
  assert (∀ (A B : Type) (c : B) (o1 o2 : option A),
            (is_Some o1 ↔ is_Some o2) →
            match o1 with Some _ => Some c | None => None end
            = match o2 with Some _ => Some c | None => None end) as Hopt.
  { intros A B c [x|] [y|] Hiff; try reflexivity.
    - destruct (proj1 Hiff (ex_intro _ x eq_refl)) as [z Hz]. discriminate.
    - destruct (proj2 Hiff (ex_intro _ y eq_refl)) as [z Hz]. discriminate. }
  rewrite (Hopt _ _ _ s1 s2 Hs), (Hopt _ _ _ m1 m2 Hm). reflexivity.
Qed.

Lemma ds_erase_record_event (s : Recognizer_state) (e : Event Move) :
  ds_erase (MoveRecognition.record_event s e)
  = MoveRecognition.record_event (ds_erase s) (forget_ret e).
Proof.
  unfold ds_erase, MoveRecognition.record_event. simpl. rewrite map_app. reflexivity.
Qed.

Lemma ds_erase_classifying (s : Recognizer_state) :
  ds_erase (ds_classifying s) = ds_classifying (ds_erase s).
Proof.
  unfold ds_classifying.
  change (ds_erase (MoveRecognition.set_pos_checked
                      (MoveRecognition.record_event s ClassificationAttempt) true))
    with (MoveRecognition.set_pos_checked
            (ds_erase (MoveRecognition.record_event s ClassificationAttempt)) true).
  rewrite ds_erase_record_event. reflexivity.
Qed.

Lemma ds_erase_start_game (h : Recognizer_handlers) (s : Recognizer_state) :
  ds_erase (MoveRecognition.start_game h s)
  = MoveRecognition.start_game (ds_mute h) (ds_erase s).
Proof.
  unfold MoveRecognition.start_game, ds_mute. cbn [MoveRecognition._start_handler].
  destruct (MoveRecognition._start_handler h) as [handler|]; [|reflexivity].
  cbv zeta. rewrite ds_erase_record_event. reflexivity.
Qed.

Lemma ds_erase_new_board_data (h : Recognizer_handlers) (s : Recognizer_state)
    (bits : Bits) (now : Z) :
  let r := MoveRecognition.new_board_data h s bits now in
  (r.1, ds_erase r.2) = MoveRecognition.new_board_data (ds_mute h) (ds_erase s) bits now.
Proof.
  unfold MoveRecognition.new_board_data. cbv zeta.
  change (MoveRecognition._physical_pos
            (MoveRecognition.set_physical_pos (ds_erase s)
               (MoveRecognition._Position_of_Bits bits)))
    with (MoveRecognition._Position_of_Bits bits).
  change (MoveRecognition._physical_pos
            (MoveRecognition.set_physical_pos s
               (MoveRecognition._Position_of_Bits bits)))
    with (MoveRecognition._Position_of_Bits bits).
  destruct (MoveRecognition._Position_eq _ _).
  - cbn [fst snd]. rewrite ds_erase_start_game. reflexivity.
  - unfold set_iadd. reflexivity.
Qed.

Lemma ds_erase_tick_commit (h : Recognizer_handlers) (s : Recognizer_state) (m : Move) :
  ds_erase (MoveRecognition.tick_commit h s m)
  = MoveRecognition.tick_commit (ds_mute h) (ds_erase s) m.
Proof.
  unfold MoveRecognition.tick_commit, ds_mute. cbn [MoveRecognition._move_handler].
  destruct (MoveRecognition._move_handler h) as [handler|]; [|reflexivity].
  cbv zeta. rewrite ds_erase_record_event. reflexivity.
Qed.

Lemma ds_erase_tick (h : Recognizer_handlers) (s : Recognizer_state) (now : Z) :
  ds_erase (MoveRecognition.tick h s now)
  = MoveRecognition.tick (ds_mute h) (ds_erase s) now.
Proof.
  unfold MoveRecognition.tick.
  change (MoveRecognition._pos_checked (ds_erase s))
    with (MoveRecognition._pos_checked s).
  change (MoveRecognition._physical_pos_timestamp (ds_erase s))
    with (MoveRecognition._physical_pos_timestamp s).
  change (MoveRecognition._move_delay (ds_erase s))
    with (MoveRecognition._move_delay s).
  change (MoveRecognition._physical_pos (ds_erase s))
    with (MoveRecognition._physical_pos s).
  change (MoveRecognition._board (ds_erase s)) with (MoveRecognition._board s).
  destruct (_ && _); [|reflexivity].
  cbv zeta. fold (ds_classifying s). fold (ds_classifying (ds_erase s)).
  rewrite <- ds_erase_classifying.
  change (MoveRecognition._board (ds_erase (ds_classifying s)))
    with (MoveRecognition._board (ds_classifying s)).
  change (MoveRecognition._physical_pos (ds_erase (ds_classifying s)))
    with (MoveRecognition._physical_pos (ds_classifying s)).
  change (MoveRecognition._lifted (ds_erase (ds_classifying s)))
    with (MoveRecognition._lifted (ds_classifying s)).
  destruct (MoveRecognition.find_move _ _ _ _) as [move|]; [|reflexivity].
  destruct (move_bool move); [|reflexivity].
  apply ds_erase_tick_commit.
Qed.

Lemma ds_erase_step (h : Recognizer_handlers) (s : Recognizer_state) (i : ds_input) :
  ds_erase (ds_step h s i) = ds_step (ds_mute h) (ds_erase s) i.
Proof.
  destruct i as [bits now|now|]; cbn [ds_step].
  - pose proof (ds_erase_new_board_data h s bits now) as E. cbv zeta in E.
    rewrite <- E. reflexivity.
  - apply ds_erase_tick.
  - apply ds_erase_start_game.
Qed.

Lemma ds_erase_run (h : Recognizer_handlers) (inputs : list ds_input) :
  ∀ s : Recognizer_state,
    ds_erase (ds_run h s inputs) = ds_run (ds_mute h) (ds_erase s) inputs.
Proof.
  unfold ds_run. induction inputs as [|i rest IH]; intros s; [reflexivity|].
  cbn [fold_left]. rewrite IH, ds_erase_step. reflexivity.
Qed.

Lemma ds_erase_same_core (s1 s2 : Recognizer_state) :
  ds_erase s1 = ds_erase s2 → ds_same_core s1 s2.
Proof.
  unfold ds_erase, ds_same_core, MoveRecognition.known_position.
  intros [= ? ? ? ? ? ? ?].
  repeat split; try assumption. congruence.
Qed.
End HandlersRuns.

Section HandlerResults.
Context {Board Move : Type} `{Oracle Board Move} `{SetOrder}.
Local Abbreviation LiBoard_state := (@LiBoard.state Board Move).
Local Abbreviation LiBoard_handlers := (@LiBoard.handlers Board Move).
Local Abbreviation Recognizer_state := (@MoveRecognition.state Board Move).
Local Abbreviation Recognizer_handlers := (@MoveRecognition.handlers Board Move).

(** C10. Two runs that differ only in the values the start and move
    handlers return end with the same Known Position, Physical Position,
    Transiently-Lifted Set, Recognition Gate and oracle board (and the
    same handler calls and classification attempts in the log); the move
    applier returns the same value in both and leaves the same object,
    and so does [start_game], which returns nothing. *)
Theorem C10_handler_results_ignored
    (lh1 lh2 : LiBoard_handlers) (ls : LiBoard_state) (li_inputs : list li_input)
    (dh1 dh2 : Recognizer_handlers) (ds : Recognizer_state)
    (ds_inputs : list ds_input) (m : Move) (bits : Bits) (now : Z) :
  li_same_registration lh1 lh2 →
  ds_same_registration dh1 dh2 →
  (li_same_core (li_run lh1 ls li_inputs) (li_run lh2 ls li_inputs)
   ∧ (LiBoard._make_move lh1 ls m).1 = (LiBoard._make_move lh2 ls m).1
   ∧ li_same_core (LiBoard._make_move lh1 ls m).2 (LiBoard._make_move lh2 ls m).2
   ∧ li_same_core (LiBoard.start_game lh1 ls) (LiBoard.start_game lh2 ls))
  ∧
  (ds_same_core (ds_run dh1 ds ds_inputs) (ds_run dh2 ds ds_inputs)
   ∧ (MoveRecognition.new_board_data dh1 ds bits now).1
     = (MoveRecognition.new_board_data dh2 ds bits now).1
   ∧ ds_same_core (MoveRecognition.tick_commit dh1 ds m)
       (MoveRecognition.tick_commit dh2 ds m)
   ∧ ds_same_core (MoveRecognition.start_game dh1 ds)
       (MoveRecognition.start_game dh2 ds)).
Proof.
  intros Hli Hds.
  apply li_mute_same in Hli. apply ds_mute_same in Hds. split.
  - split; [|split; [|split]].
    + apply li_erase_same_core. rewrite !li_erase_run, Hli. reflexivity.
    + pose proof (li_erase_make_move lh1 ls m) as E1.
      pose proof (li_erase_make_move lh2 ls m) as E2.
      rewrite <- Hli, <- E1 in E2. unfold li_erase_result in E2.
      symmetry. exact (f_equal fst E2).
    + apply li_erase_same_core.
      pose proof (li_erase_make_move lh1 ls m) as E1.
      pose proof (li_erase_make_move lh2 ls m) as E2.
      rewrite <- Hli, <- E1 in E2. unfold li_erase_result in E2.
      symmetry. exact (f_equal snd E2).
    + apply li_erase_same_core. rewrite !li_erase_start_game, Hli. reflexivity.
  - split; [|split; [|split]].
    + apply ds_erase_same_core. rewrite !ds_erase_run, Hds. reflexivity.
    + pose proof (ds_erase_new_board_data dh1 ds bits now) as E1.
      pose proof (ds_erase_new_board_data dh2 ds bits now) as E2.
      cbv zeta in E1, E2. rewrite <- Hds, <- E1 in E2.
      symmetry. exact (f_equal fst E2).
    + apply ds_erase_same_core. rewrite !ds_erase_tick_commit, Hds. reflexivity.
    + apply ds_erase_same_core. rewrite !ds_erase_start_game, Hds. reflexivity.
Qed.
End HandlerResults.

Lemma li_handlers_same_registration (r1 r2 : bool) :
  li_same_registration (Examples.li_handlers r1) (Examples.li_handlers r2).
Proof. split; split; intros _; eexists; reflexivity. Qed.

Lemma ds_handlers_same_registration (r1 r2 : bool) :
  ds_same_registration (Examples.ds_handlers r1) (Examples.ds_handlers r2).
Proof. split; split; intros _; eexists; reflexivity. Qed.

(** C10 on a game in which 1. e4 is played and the pieces are then set
    up again, once with handlers that return [True] and once with
    handlers that return [False]. *)
Lemma C10_handler_results_ignored_witness :
  let inputs := [ LiReceive (GameTree.wire (GameTree.occupied GameTree.after_e4));
                  LiUpdate 1 2;
                  LiReceive (GameTree.wire GameTree.start_occupied);
                  LiUpdate 3 4 ] in
  let ls := Examples.li_at GameTree.start 0 [] in
  let run1 := li_run (Examples.li_handlers true) ls inputs in
  let run2 := li_run (Examples.li_handlers false) ls inputs in
  li_same_core run1 run2
  ∧ LiBoard.events run1
    = [ ClassificationAttempt;
        MoveHandlerCalled (GameTree.quiet GameTree.e2 GameTree.e4) true;
        StartHandlerCalled true ]
  ∧ LiBoard.events run2
    = [ ClassificationAttempt;
        MoveHandlerCalled (GameTree.quiet GameTree.e2 GameTree.e4) false;
        StartHandlerCalled false ].
Proof.
  pose proof (C10_handler_results_ignored
      (Examples.li_handlers true) (Examples.li_handlers false)
      (Examples.li_at GameTree.start 0 [])
      [ LiReceive (GameTree.wire (GameTree.occupied GameTree.after_e4));
        LiUpdate 1 2;
        LiReceive (GameTree.wire GameTree.start_occupied);
        LiUpdate 3 4 ]
      (Examples.ds_handlers true) (Examples.ds_handlers false)
      (MoveRecognition.init 0) [] (GameTree.quiet GameTree.e2 GameTree.e4)
      (GameTree.snapshot GameTree.start_occupied) 0
      (li_handlers_same_registration true false)
      (ds_handlers_same_registration true false)) as [(Hrun & _) _].
  cbv zeta. split; [exact Hrun|]. split; vm_compute; reflexivity.
Defined.

(** * Further properties of the code *)

(** ** Squares and bits *)

Lemma findall_from_elem (b : list bool) :
  ∀ (k i : Z),
    i ∈ findall_from k b ↔ ∃ j : nat, b !! j = Some true ∧ i = k + Z.of_nat j.
Proof.
  induction b as [|x r IH]; intros k i; simpl.
  - split; [intros Hin; inversion Hin | intros (j & Hj & _); discriminate].
  - destruct x.
    + rewrite elem_of_cons, IH. split.
      * intros [-> | (j & Hj & ->)].
        -- exists 0%nat. split; [reflexivity | lia].
        -- exists (S j). split; [exact Hj | lia].
      * intros (j & Hj & ->). destruct j as [|j].
        -- left. lia.
        -- right. exists j. split; [exact Hj | lia].
    + rewrite IH. split.
      * intros (j & Hj & ->). exists (S j). split; [exact Hj | lia].
      * intros (j & Hj & ->). destruct j as [|j]; [discriminate|].
        exists j. split; [exact Hj | lia].
Qed.

(** Square [63 - j] is reported exactly when bit [j] of the snapshot,
    counted from its first bit, is set. *)
Lemma squares_of_bits_elem (b : list bool) (s : Z) :
  s ∈ squares_of_bits b ↔ ∃ j : nat, b !! j = Some true ∧ s = 63 - Z.of_nat j.
Proof.
  unfold squares_of_bits, findall_1.
  rewrite elem_of_list_to_set.
  change (map (λ i : Z, 63 - i) (findall_from 0 b))
    with ((λ i : Z, 63 - i) <$> findall_from 0 b).
  rewrite list_elem_of_fmap. split.
  - intros (i & -> & Hi). apply findall_from_elem in Hi as (j & Hj & ->).
    exists j. split; [exact Hj | lia].
  - intros (j & Hj & ->). exists (Z.of_nat j). split; [reflexivity|].
    apply findall_from_elem. exists j. split; [exact Hj | lia].
Qed.

Lemma Bits_of_uint_length (n : Z) (len : nat) : length (Bits_of_uint n len) = len.
Proof. unfold Bits_of_uint. rewrite length_map, length_rev, length_seq. reflexivity. Qed.

Lemma Bits_of_uint_lookup (n : Z) (len j : nat) :
  (j < len)%nat →
  (Bits_of_uint n len : list bool) !! j
  = Some (Z.testbit n (Z.of_nat (len - 1 - j))).
Proof.
  intros Hj. unfold Bits_of_uint.
  change (map (λ i : nat, Z.testbit n (Z.of_nat i)) (rev (seq 0 len)))
    with ((λ i : nat, Z.testbit n (Z.of_nat i)) <$> rev (seq 0 len)).
  rewrite list_lookup_fmap, rev_alt.
  change (rev_append (seq 0 len) []) with (reverse (seq 0 len)).
  rewrite reverse_lookup by (rewrite length_seq; exact Hj).
  rewrite length_seq, lookup_seq_lt by lia. simpl.
  do 3 f_equal. lia.
Qed.

Section SquaresOfBoard.
Context {Board Move : Type} `{Oracle Board Move}.

(** X1. The squares of [_Position(board)] are exactly the squares
    0..63 whose bit is set in [board.occupied]: writing the occupancy
    most significant bit first and reading square [63 - i] at position
    [i] cancel out. *)
Theorem X1_position_of_board_squares (b : Board) (s : Z) :
  s ∈ MoveRecognition.occupied_squares (MoveRecognition._Position_of_Board b)
  ↔ 0 ≤ s < 64 ∧ Z.testbit (board_occupied b) s = true.
Proof.
  unfold MoveRecognition.occupied_squares, MoveRecognition._Position_of_Board.
  cbn [MoveRecognition.bits MoveRecognition._Position_of_Bits].
  rewrite squares_of_bits_elem. split.
  - intros (j & Hj & ->).
    assert (j < 64)%nat as Hlt.
    { apply lookup_lt_Some in Hj. rewrite Bits_of_uint_length in Hj. exact Hj. }
    rewrite Bits_of_uint_lookup in Hj by exact Hlt.
    inversion Hj as [Hbit]. split; [lia|].
    rewrite Hbit. replace (63 - Z.of_nat j) with (Z.of_nat (64 - 1 - j)) by lia.
    exact Hbit.
  - intros [Hrange Hbit]. exists (Z.to_nat (63 - s)). split; [|lia].
    rewrite Bits_of_uint_lookup by lia.
    replace (Z.of_nat (64 - 1 - Z.to_nat (63 - s))) with s by lia.
    rewrite Hbit. reflexivity.
Qed.
End SquaresOfBoard.

Lemma byte_bits_length (b : byte) : length (byte_bits b) = 8%nat.
Proof.
  unfold byte_bits.
  destruct (Byte.to_bits b) as (b0 & b1 & b2 & b3 & b4 & b5 & b6 & b7).
  reflexivity.
Qed.

Lemma byte_bits_lookup (b : byte) (k : nat) :
  (k < 8)%nat →
  byte_bits b !! k = Some (N.testbit (Byte.to_N b) (N.of_nat (7 - k))).
Proof.
  intros Hk.
  do 8 (destruct k as [|k]; [destruct b; reflexivity|]).
  lia.
Qed.

Lemma Bits_of_bytes_length (frame : list byte) :
  length (Bits_of_bytes frame) = (8 * length frame)%nat.
Proof.
  unfold Bits_of_bytes. induction frame as [|b r IH]; [reflexivity|].
  cbn [map concat length]. rewrite length_app, byte_bits_length, IH. lia.
Qed.

Lemma Bits_of_bytes_lookup (frame : list byte) :
  ∀ (i k : nat) (b : byte),
    frame !! i = Some b → (k < 8)%nat →
    (Bits_of_bytes frame : list bool) !! (8 * i + k)%nat = byte_bits b !! k.
Proof.
  unfold Bits_of_bytes.
  induction frame as [|b0 r IH]; intros i k b Hi Hk; [discriminate|].
  cbn [map concat]. destruct i as [|i].
  - inversion Hi; subst b0. rewrite Nat.mul_0_r, Nat.add_0_l.
    apply lookup_app_l. rewrite byte_bits_length. exact Hk.
  - rewrite lookup_app_r by (rewrite byte_bits_length; lia).
    rewrite byte_bits_length.
    replace (8 * S i + k - 8)%nat with (8 * i + k)%nat by lia.
    apply IH; assumption.
Qed.

(** X2. The wire format of a frame: bit [7 - k] of byte [i] (the
    [k]-th bit of that byte counted from its most significant one) is
    square [63 - (8 i + k)], so the frame lists h8, g8, ..., a1; and a
    frame of eight bytes only reports squares 0..63. *)
Theorem X2_wire_format (frame : list byte) (i k : nat) (b : byte) :
  frame !! i = Some b →
  (k < 8)%nat →
  (63 - Z.of_nat (8 * i + k) ∈ LiBoard._get_occupied_squares (Bits_of_bytes frame)
   ↔ N.testbit (Byte.to_N b) (N.of_nat (7 - k)) = true)
  ∧ (length frame = 8%nat →
     ∀ s, s ∈ LiBoard._get_occupied_squares (Bits_of_bytes frame) → 0 ≤ s ≤ 63).
Proof.
  intros Hi Hk. unfold LiBoard._get_occupied_squares. split.
  - rewrite squares_of_bits_elem. split.
    + intros (j & Hj & Heq).
      assert (j = 8 * i + k)%nat as -> by lia.
      rewrite (Bits_of_bytes_lookup frame i k b Hi Hk), byte_bits_lookup in Hj
        by exact Hk.
      inversion Hj as [Hbit]. rewrite Hbit. reflexivity.
    + intros Hbit. exists (8 * i + k)%nat. split; [|reflexivity].
      rewrite (Bits_of_bytes_lookup frame i k b Hi Hk), byte_bits_lookup
        by exact Hk.
      rewrite Hbit. reflexivity.
  - intros Hlen s Hs. apply squares_of_bits_elem in Hs as (j & Hj & ->).
    apply lookup_lt_Some in Hj. rewrite Bits_of_bytes_length, Hlen in Hj. lia.
Qed.

(** X2 on the frame sent when the e2 pawn is lifted from the starting
    position: e2 is bit 4 of the seventh byte, [0xEF], and is clear; d2
    is bit 3 and is set. *)
Lemma X2_wire_format_witness :
  let frame := [xff; xff; x00; x00; x00; x00; xef; xff] in
  (12 ∉ LiBoard._get_occupied_squares (Bits_of_bytes frame))
  ∧ (11 ∈ LiBoard._get_occupied_squares (Bits_of_bytes frame)).
Proof.
  cbv zeta. split.
  - intros Hin.
    destruct (X2_wire_format [xff; xff; x00; x00; x00; x00; xef; xff]
                6 3 xef eq_refl ltac:(lia)) as [Hiff _].
    apply Hiff in Hin. vm_compute in Hin. discriminate.
  - destruct (X2_wire_format [xff; xff; x00; x00; x00; x00; xef; xff]
                6 4 xef eq_refl ltac:(lia)) as [Hiff _].
    apply Hiff. vm_compute. reflexivity.
Defined.

(** ** What LiBoard does to the oracle's board and to its own sets *)

Section LiBoardSafety.
Context {Board Move : Type} `{Oracle Board Move} `{SetOrder}.
Local Abbreviation LiBoard_state := (@LiBoard.state Board Move).
Local Abbreviation LiBoard_handlers := (@LiBoard.handlers Board Move).

Lemma li_capture_loop_cases (h : LiBoard_handlers) (from_square : Z) (tlps : list Z) :
  ∀ s : LiBoard_state,
    LiBoard.capture_loop h s from_square tlps = (false, s)
    ∨ ∃ m, board_is_legal (LiBoard.chessboard s) m = true
           ∧ LiBoard.capture_loop h s from_square tlps = LiBoard._make_move h s m.
Proof.
  induction tlps as [|tlp rest IH]; intros s; simpl; [left; reflexivity|].
  destruct (LiBoard._find_candidate_move s from_square tlp) as [move|]; [|apply IH].
  destruct (move_bool move && board_is_capture (LiBoard.chessboard s) move);
    [|apply IH].
  destruct (board_is_legal (LiBoard.chessboard s) move) eqn:Hlegal.
  - right. exists move. split; [exact Hlegal|].
    destruct (li_make_move_legal h s move Hlegal) as (s' & -> & _). reflexivity.
  - rewrite (li_make_move_illegal h s move Hlegal). apply IH.
Qed.

Lemma li_en_passant_loop_cases (h : LiBoard_handlers) (to_square : Z) (froms : list Z) :
  ∀ s : LiBoard_state,
    LiBoard.en_passant_loop h s froms to_square = (false, s)
    ∨ ∃ m, board_is_legal (LiBoard.chessboard s) m = true
           ∧ LiBoard.en_passant_loop h s froms to_square = LiBoard._make_move h s m.
Proof.
  induction froms as [|from_square rest IH]; intros s; simpl; [left; reflexivity|].
  destruct (LiBoard._find_candidate_move s from_square to_square) as [move|];
    [|apply IH].
  destruct (move_bool move && board_is_en_passant (LiBoard.chessboard s) move);
    [|apply IH].
  destruct (board_is_legal (LiBoard.chessboard s) move) eqn:Hlegal.
  - right. exists move. split; [exact Hlegal|].
    destruct (li_make_move_legal h s move Hlegal) as (s' & -> & _). reflexivity.
  - rewrite (li_make_move_illegal h s move Hlegal). apply IH.
Qed.

Lemma li_castling_inner_cases (h : LiBoard_handlers) (s : LiBoard_state)
    (from_square : Z) (tos : list Z) :
  LiBoard.castling_inner h s from_square tos = None
  ∨ LiBoard.castling_inner h s from_square tos = Some (false, s)
  ∨ ∃ m, board_is_legal (LiBoard.chessboard s) m = true
         ∧ LiBoard.castling_inner h s from_square tos
           = Some (LiBoard._make_move h s m).
Proof.
  induction tos as [|to_square rest IH]; simpl; [left; reflexivity|].
  destruct (LiBoard._find_candidate_move s from_square to_square) as [move|];
    [|exact IH].
  destruct (move_bool move && board_is_castling (LiBoard.chessboard s) move);
    [|exact IH].
  destruct (board_is_legal (LiBoard.chessboard s) move) eqn:Hlegal.
  - right. right. exists move. split; [exact Hlegal | reflexivity].
  - right. left. rewrite (li_make_move_illegal h s move Hlegal). reflexivity.
Qed.

Lemma li_castling_outer_cases (h : LiBoard_handlers) (s : LiBoard_state)
    (froms tos : list Z) :
  LiBoard.castling_outer h s froms tos = None
  ∨ LiBoard.castling_outer h s froms tos = Some (false, s)
  ∨ ∃ m, board_is_legal (LiBoard.chessboard s) m = true
         ∧ LiBoard.castling_outer h s froms tos
           = Some (LiBoard._make_move h s m).
Proof.
  induction froms as [|from_square rest IH]; simpl; [left; reflexivity|].
  destruct (li_castling_inner_cases h s from_square tos) as [-> | [-> | (m & Hm & ->)]].
  - exact IH.
  - right. left. reflexivity.
  - right. right. exists m. split; [exact Hm | reflexivity].
Qed.

Lemma li_generate_move_cases (h : LiBoard_handlers) (s : LiBoard_state) :
  LiBoard._generate_move h s = (false, li_classifying s)
  ∨ ∃ m, board_is_legal (LiBoard.chessboard s) m = true
         ∧ LiBoard._generate_move h s = LiBoard._make_move h (li_classifying s) m.
Proof.
  unfold LiBoard._generate_move. fold (li_classifying s). cbv zeta.
  change (LiBoard.chessboard s) with (LiBoard.chessboard (li_classifying s)).
  destruct (_ && _).
  { destruct (py_pop _) as [f|]; [|left; reflexivity].
    destruct (py_pop _) as [a|]; [|left; reflexivity].
    destruct (LiBoard._find_candidate_move _ f a) as [move|]; [|left; reflexivity].
    destruct (_ && _); [|left; reflexivity].
    destruct (board_is_legal (LiBoard.chessboard (li_classifying s)) move) eqn:Hlegal.
    - right. exists move. split; [exact Hlegal | reflexivity].
    - left. apply li_make_move_illegal. exact Hlegal. }
  destruct (_ && _).
  { destruct (py_pop _) as [f|]; [|left; reflexivity]. apply li_capture_loop_cases. }
  destruct (_ && _).
  { destruct (py_pop _) as [a|]; [|left; reflexivity]. apply li_en_passant_loop_cases. }
  destruct (_ && _); [|left; reflexivity].
  destruct (li_castling_outer_cases h (li_classifying s)
              (set_iter
                 (LiBoard._get_occupied_squares
                    (LiBoard._known_position_data (li_classifying s))
                  ∖ LiBoard._get_occupied_squares
                      (LiBoard._physical_position_data (li_classifying s))))
              (set_iter
                 (LiBoard._get_occupied_squares
                    (LiBoard._physical_position_data (li_classifying s))
                  ∖ LiBoard._get_occupied_squares
                      (LiBoard._known_position_data (li_classifying s)))))
    as [-> | [-> | (m & Hm & ->)]].
  - left. reflexivity.
  - left. reflexivity.
  - right. exists m. split; [exact Hm | reflexivity].
Qed.

(** X3. The result of [LiBoard._generate_move] says whether a move was
    committed, and only moves the oracle holds legal are ever pushed,
    whatever the oracle's [find_move] returns.  Either the result is
    false and nothing but the gate (and the log) has changed; or it is
    true, a move that is legal on the old board has been pushed, the
    Known Position is the Physical Position and the Transiently-Lifted
    Set is empty. *)
Theorem X3_generate_move_reports_commit (h : LiBoard_handlers) (s : LiBoard_state) :
  LiBoard._generate_move h s = (false, li_classifying s)
  ∨ ∃ m s',
      LiBoard._generate_move h s = (true, s')
      ∧ board_is_legal (LiBoard.chessboard s) m = true
      ∧ LiBoard.chessboard s' = board_push (LiBoard.chessboard s) m
      ∧ LiBoard._known_position_data s' = LiBoard._physical_position_data s
      ∧ LiBoard._physical_position_data s' = LiBoard._physical_position_data s
      ∧ LiBoard._lifted_pieces s' = ∅
      ∧ LiBoard._pos_checked s' = true.
Proof.
  destruct (li_generate_move_cases h s) as [Hnone | (m & Hlegal & Heq)].
  - left. exact Hnone.
  - right. exists m.
    destruct (li_make_move_legal h (li_classifying s) m Hlegal)
      as (s' & Hmade & Hk & Hl & Hb & (_ & _ & Hp & _ & Hg & _) & _).
    exists s'. rewrite Heq, Hmade.
    split; [reflexivity|]. split; [exact Hlegal|].
    split; [exact Hb|]. split; [exact Hk|]. split; [exact Hp|].
    split; [exact Hl|]. rewrite Hg. reflexivity.
Qed.

(** *** The Transiently-Lifted Set stays within the Known Position *)

Lemma li_lifted_known_start_game (h : LiBoard_handlers) (s : LiBoard_state) :
  li_lifted_known (LiBoard.start_game h s).
Proof.
  unfold li_lifted_known.
  destruct (li_start_game_fields h s) as (_ & _ & _ & _ & _ & _ & _ & -> & _).
  apply empty_subseteq.
Qed.

Lemma li_lifted_known_get_board_data (h : LiBoard_handlers) (s : LiBoard_state)
    (now : Z) :
  li_lifted_known s → li_lifted_known (LiBoard._get_board_data h s now).
Proof.
  intros Hinv. unfold LiBoard._get_board_data.
  destruct (8 <=? length (LiBoard.serial_in s))%nat; [|exact Hinv].
  cbv zeta. destruct (LiBoard._is_starting_position _).
  - apply li_lifted_known_start_game.
  - unfold li_lifted_known in *.
    cbn [LiBoard._lifted_pieces LiBoard._known_position_data
         LiBoard._physical_position_data LiBoard.set_lifted_pieces
         LiBoard.set_last_change LiBoard.set_pos_checked LiBoard.set_serial_in
         LiBoard.set_physical_position_data].
    unfold LiBoard._get_occupied_squares.
    apply union_least; [exact Hinv|]. apply subseteq_difference_l. reflexivity.
Qed.

Lemma li_lifted_known_generate_move (h : LiBoard_handlers) (s : LiBoard_state) :
  li_lifted_known s → li_lifted_known (LiBoard._generate_move h s).2.
Proof.
  intros Hinv.
  destruct (li_generate_move_cases h s) as [-> | (m & Hlegal & ->)].
  - exact Hinv.
  - destruct (li_make_move_legal h (li_classifying s) m Hlegal)
      as (s' & -> & _ & Hl & _).
    unfold li_lifted_known. cbn [snd]. rewrite Hl. apply empty_subseteq.
Qed.

Lemma li_lifted_known_step (h : LiBoard_handlers) (s : LiBoard_state) (i : li_input) :
  li_lifted_known s → li_lifted_known (li_step h s i).
Proof.
  intros Hinv. destruct i as [data|now_read now_check|]; cbn [li_step].
  - exact Hinv.
  - unfold LiBoard.update. cbv zeta.
    pose proof (li_lifted_known_get_board_data h s now_read Hinv) as Hinv1.
    destruct (_ && _); [|exact Hinv1].
    apply li_lifted_known_generate_move. exact Hinv1.
  - apply li_lifted_known_start_game.
Qed.

Lemma li_lifted_known_run (h : LiBoard_handlers) (inputs : list li_input) :
  ∀ s : LiBoard_state, li_lifted_known s → li_lifted_known (li_run h s inputs).
Proof.
  unfold li_run. induction inputs as [|i rest IH]; intros s Hinv; [exact Hinv|].
  cbn [fold_left]. apply IH. apply li_lifted_known_step. exact Hinv.
Qed.
End LiBoardSafety.

Section LiBoardRuns.
Context {Board Move : Type} `{Oracle Board Move} `{SetOrder}.
Local Abbreviation LiBoard_state := (@LiBoard.state Board Move).
Local Abbreviation LiBoard_handlers := (@LiBoard.handlers Board Move).
Local Abbreviation Recognizer_state := (@MoveRecognition.state Board Move).
Local Abbreviation Recognizer_handlers := (@MoveRecognition.handlers Board Move).

(** X4. Whatever arrives on the line and whichever methods are called,
    the Transiently-Lifted Set of a [LiBoard] stays within the squares
    occupied in its Known Position.  Hence the squares the capture rule
    tries as destinations are occupied both in the Known and in the
    Physical Position, and are neither newly occupied nor vacated. *)
Theorem X4_lifted_within_known
    (h : LiBoard_handlers) (s : LiBoard_state) (inputs : list li_input) :
  li_lifted_known s →
  let s' := li_run h s inputs in
  LiBoard._lifted_pieces s' ⊆ squares_of_bits (LiBoard._known_position_data s')
  ∧ li_temp_lifted s'
    ⊆ squares_of_bits (LiBoard._known_position_data s')
      ∩ squares_of_bits (LiBoard._physical_position_data s')
  ∧ li_temp_lifted s' ## li_appeared s'
  ∧ li_temp_lifted s' ## li_disappeared s'.
Proof.
  intros Hinv. cbv zeta.
  pose proof (li_lifted_known_run h inputs s Hinv) as Hrun.
  unfold li_lifted_known in Hrun.
  unfold li_temp_lifted, li_appeared, li_disappeared.
  generalize dependent (LiBoard._lifted_pieces (li_run h s inputs)).
  generalize (squares_of_bits (LiBoard._known_position_data (li_run h s inputs))).
  generalize (squares_of_bits (LiBoard._physical_position_data (li_run h s inputs))).
  clear. intros P K L HL. split; [exact HL|]. split; [|split].
  - intros x. rewrite !elem_of_intersection. intros [Hl Hp].
    split; [apply HL; exact Hl | exact Hp].
  - apply elem_of_disjoint. intros x.
    rewrite elem_of_intersection, elem_of_difference.
    intros [Hl _] [_ Hk]. apply Hk, HL, Hl.
  - apply elem_of_disjoint. intros x.
    rewrite elem_of_intersection, elem_of_difference.
    intros [_ Hp] [_ Hnp]. exact (Hnp Hp).
Qed.

(** X5. One call of [update] takes at most one frame from the line: the
    first eight bytes when at least eight are waiting, which become the
    Physical Position, and nothing otherwise; the bytes behind them stay
    on the line in order. *)
Theorem X5_update_takes_one_frame
    (h : LiBoard_handlers) (s : LiBoard_state) (now_read now_check : Z) :
  let s' := LiBoard.update h s now_read now_check in
  if (8 <=? length (LiBoard.serial_in s))%nat then
    LiBoard.serial_in s' = drop 8 (LiBoard.serial_in s)
    ∧ LiBoard._physical_position_data s'
      = Bits_of_bytes (take 8 (LiBoard.serial_in s))
  else
    LiBoard.serial_in s' = LiBoard.serial_in s
    ∧ LiBoard._physical_position_data s' = LiBoard._physical_position_data s.
Proof.
  cbv zeta.
  assert (LiBoard.serial_in (LiBoard.update h s now_read now_check)
          = LiBoard.serial_in (LiBoard._get_board_data h s now_read)
          ∧ LiBoard._physical_position_data (LiBoard.update h s now_read now_check)
            = LiBoard._physical_position_data (LiBoard._get_board_data h s now_read))
    as [-> ->].
  { unfold LiBoard.update. cbv zeta. destruct (_ && _); [|split; reflexivity].
    destruct (li_generate_move_effect h (LiBoard._get_board_data h s now_read))
      as (_ & _ & Hs & Hp & _).
    split; assumption. }
  unfold LiBoard._get_board_data.
  destruct (8 <=? length (LiBoard.serial_in s))%nat; [|split; reflexivity].
  cbv zeta. destruct (LiBoard._is_starting_position _).
  - match goal with |- context [LiBoard.start_game h ?s0] =>
      destruct (li_start_game_fields h s0) as (-> & _ & _ & _ & -> & _)
    end.
    split; reflexivity.
  - split; reflexivity.
Qed.

(** X6. With the default delay of 0 and a clock that does not run
    backwards between its two readings, the [update] that takes in a
    frame differing from the Known Position classifies it in the same
    call. *)
Theorem X6_no_delay_classifies_at_once
    (h : LiBoard_handlers) (s : LiBoard_state) (now_read now_check : Z)
    (frame rest : list byte) :
  LiBoard.serial_in s = frame ++ rest →
  length frame = 8%nat →
  Bits_of_bytes frame ≠ Bits_hex_FFFF00000000FFFF →
  Bits_of_bytes frame ≠ LiBoard._known_position_data s →
  LiBoard._move_delay s = 0 →
  now_read ≤ now_check →
  let s' := LiBoard.update h s now_read now_check in
  attempts (LiBoard.events s') = S (attempts (LiBoard.events s))
  ∧ LiBoard._pos_checked s' = true
  ∧ LiBoard._physical_position_data s' = Bits_of_bytes frame.
Proof.
  intros Hin Hlen Hne Hdiverge Hdelay Hclock. cbv zeta.
  unfold LiBoard.update. cbv zeta.
  rewrite (li_get_board_data_frame h s now_read frame rest Hin Hlen Hne).
  cbn [LiBoard._physical_position_data LiBoard._known_position_data
       LiBoard._last_change LiBoard._move_delay LiBoard._pos_checked].
  rewrite bool_decide_eq_true_2 by exact Hdiverge.
  rewrite Hdelay.
  assert ((now_read + 0 * 10 ^ 6 <=? now_check) = true) as ->
    by (apply Z.leb_le; lia).
  cbn [andb negb].
  match goal with |- context [LiBoard._generate_move h ?s1] =>
    destruct (li_generate_move_effect h s1) as (Hg & Ha & _ & Hp & _)
  end.
  rewrite Hg, Ha, Hp. repeat split.
Qed.

Lemma li_updates_no_divergence (h : LiBoard_handlers) (s : LiBoard_state)
    (clock : list (Z * Z)) :
  (length (LiBoard.serial_in s) < 8)%nat →
  LiBoard._physical_position_data s = LiBoard._known_position_data s →
  li_updates h s clock = s.
Proof.
  intros Hidle Heq. induction clock as [|[now_read now_check] later IH]; simpl.
  - reflexivity.
  - rewrite li_update_not_due by auto. exact IH.
Qed.

Lemma ds_ticks_no_divergence (h : Recognizer_handlers) (s : Recognizer_state)
    (clock : list Z) :
  MoveRecognition.bits (MoveRecognition._physical_pos s)
    = MoveRecognition.bits (MoveRecognition.known_position s) →
  ds_ticks h s clock = s.
Proof.
  intros Heq. induction clock as [|now later IH]; simpl.
  - reflexivity.
  - rewrite ds_tick_not_due by auto. exact IH.
Qed.

(** X7. Reading the clock is idempotent when nothing is pending: with
    no complete frame on the line, any number of [update] calls leaves a
    [LiBoard] exactly as it is (no event, no change) when its gate is set
    or its Physical Position is its Known Position; and any number of
    [tick] calls does the same to a [DoubleSidedMoveRecognizer]. *)
Theorem X7_clock_idempotent
    (lh : LiBoard_handlers) (ls : LiBoard_state) (li_clock : list (Z * Z))
    (dh : Recognizer_handlers) (ds : Recognizer_state) (ds_clock : list Z) :
  ((length (LiBoard.serial_in ls) < 8)%nat →
   LiBoard._pos_checked ls = true
   ∨ LiBoard._physical_position_data ls = LiBoard._known_position_data ls →
   li_updates lh ls li_clock = ls)
  ∧ (MoveRecognition._pos_checked ds = true
     ∨ MoveRecognition._physical_pos ds = MoveRecognition.known_position ds →
     ds_ticks dh ds ds_clock = ds).
Proof.
  split.
  - intros Hidle [Hgate | Heq].
    + apply li_updates_gate_set; assumption.
    + apply li_updates_no_divergence; assumption.
  - intros [Hgate | Heq].
    + apply ds_ticks_gate_set. exact Hgate.
    + apply ds_ticks_no_divergence. rewrite Heq. reflexivity.
Qed.

(** X8. The two implementations classify alike.  When the oracle's
    [find_move] is sound, a [LiBoard] and a [DoubleSidedMoveRecognizer]
    that hold the same board and see the same delta end with the same
    board: both push the move [MoveRecognizer.find_move] returns, or
    neither pushes anything. *)
Theorem X8_implementations_agree
    (lh : LiBoard_handlers) (ls : LiBoard_state)
    (dh : Recognizer_handlers) (ds : Recognizer_state) (now : Z) :
  find_move_sound →
  LiBoard.chessboard ls = MoveRecognition._board ds →
  li_appeared ls = ds_appeared ds →
  li_disappeared ls = ds_disappeared ds →
  li_temp_lifted ls = ds_temp_lifted ds →
  ds_disappeared ds ∪ ds_appeared ds ≠ ∅ →
  MoveRecognition._pos_checked ds = false →
  MoveRecognition._physical_pos_timestamp ds + MoveRecognition._move_delay ds ≤ now →
  let r := LiBoard._generate_move lh ls in
  let ds' := MoveRecognition.tick dh ds now in
  LiBoard.chessboard r.2 = MoveRecognition._board ds'
  ∧ LiBoard._lifted_pieces r.2
    = (if r.1 then MoveRecognition._lifted ds' else LiBoard._lifted_pieces ls)
  ∧ (r.1 = true
     ↔ is_Some (MoveRecognition.find_move (MoveRecognition._board ds)
                  (ds_appeared ds) (ds_disappeared ds) (ds_temp_lifted ds))).
Proof.
  intros Hsound Hb Ha Hd Ht Hdelta Hgate Hlate. cbv zeta.
  assert (MoveRecognition.bits (MoveRecognition._physical_pos ds)
          ≠ MoveRecognition.bits (MoveRecognition.known_position ds)) as Hne.
  { intros Heq. apply Hdelta.
    unfold ds_disappeared, ds_appeared, MoveRecognition.occupied_squares.
    rewrite Heq.
    generalize (squares_of_bits
                  (MoveRecognition.bits (MoveRecognition.known_position ds))).
    clear. intros K. apply leibniz_equiv. intros x.
    rewrite elem_of_union, !elem_of_difference, elem_of_empty. tauto. }
  pose proof (li_generate_move_outcome Hsound lh ls) as Hli.
  pose proof (ds_tick_outcome Hsound dh ds now Hgate Hlate Hne) as Hds.
  rewrite Hb, Ha, Hd, Ht in Hli.
  destruct (MoveRecognition.find_move (MoveRecognition._board ds)
              (ds_appeared ds) (ds_disappeared ds) (ds_temp_lifted ds))
    as [m|] eqn:Hfind; unfold li_outcome in Hli; unfold ds_outcome in Hds.
  - destruct Hli as (Hr & Hlb & _ & Hll & _). destruct Hds as (Hdb & Hdl & _).
    rewrite Hr, Hlb, Hll, Hdb, Hdl, Hb.
    split; [reflexivity|]. split; [reflexivity|].
    split; [intros _; exists m; reflexivity | reflexivity].
  - rewrite Hli, Hds. cbn [fst snd]. unfold li_classifying, ds_classifying.
    cbn [LiBoard.chessboard LiBoard._lifted_pieces LiBoard.set_pos_checked
         LiBoard.record_event MoveRecognition._board
         MoveRecognition.set_pos_checked MoveRecognition.record_event].
    split; [exact Hb|]. split; [reflexivity|].
    split; [discriminate|]. intros [m Hm]. discriminate.
Qed.
End LiBoardRuns.

(** X4 on a new [LiBoard] from which the e2 pawn is lifted. *)
Lemma X4_lifted_within_known_witness :
  let s' := li_run Examples.li_no_handlers
              (LiBoard.init 0 0 : Examples.li_state)
              [ LiReceive (GameTree.wire Examples.e2_lifted); LiUpdate 1 2 ] in
  LiBoard._lifted_pieces s' = {[ GameTree.e2 ]}
  ∧ LiBoard._lifted_pieces s' ⊆ squares_of_bits (LiBoard._known_position_data s').
Proof.
  assert (li_lifted_known (LiBoard.init 0 0 : Examples.li_state)) as Hinit
    by apply empty_subseteq.
  destruct (X4_lifted_within_known Examples.li_no_handlers
              (LiBoard.init 0 0 : Examples.li_state)
              [ LiReceive (GameTree.wire Examples.e2_lifted); LiUpdate 1 2 ]
              Hinit) as (Hsub & _).
  cbv zeta. split; [vm_compute; reflexivity | exact Hsub].
Defined.

(** X6 when the e2 pawn is lifted from the starting position. *)
Lemma X6_no_delay_classifies_at_once_witness :
  let s := Examples.li_at GameTree.start 0 (GameTree.wire Examples.e2_lifted) in
  let s' := LiBoard.update Examples.li_no_handlers s 5 5 in
  attempts (LiBoard.events s') = 1%nat ∧ LiBoard._pos_checked s' = true.
Proof.
  destruct (X6_no_delay_classifies_at_once Examples.li_no_handlers
              (Examples.li_at GameTree.start 0 (GameTree.wire Examples.e2_lifted))
              5 5 (GameTree.wire Examples.e2_lifted) []
              eq_refl eq_refl ltac:(vm_compute; discriminate)
              ltac:(vm_compute; discriminate) eq_refl ltac:(lia))
    as (Ha & Hg & _).
  cbv zeta. split; [exact Ha | exact Hg].
Defined.

(** X7 after a classification that found nothing: the gate is set. *)
Lemma X7_clock_idempotent_witness :
  let ls := LiBoard.update Examples.li_no_handlers
              (Examples.li_at GameTree.start 0 (GameTree.wire Examples.e2_lifted)) 1 2 in
  let ds := MoveRecognition.tick Examples.ds_no_handlers
              (Examples.ds_at GameTree.start 0 Examples.e2_lifted ∅) 2 in
  li_updates Examples.li_no_handlers ls [(3, 4); (5, 6)] = ls
  ∧ ds_ticks Examples.ds_no_handlers ds [3; 4] = ds.
Proof.
  destruct (X7_clock_idempotent Examples.li_no_handlers
              (LiBoard.update Examples.li_no_handlers
                 (Examples.li_at GameTree.start 0 (GameTree.wire Examples.e2_lifted)) 1 2)
              [(3, 4); (5, 6)]
              Examples.ds_no_handlers
              (MoveRecognition.tick Examples.ds_no_handlers
                 (Examples.ds_at GameTree.start 0 Examples.e2_lifted ∅) 2)
              [3; 4]) as [Hli Hds].
  cbv zeta. split.
  - apply Hli; [vm_compute; lia | left; vm_compute; reflexivity].
  - apply Hds. left. vm_compute. reflexivity.
Defined.

(** X8 on White castling short after 1. e4 e5 2. Nf3 Nc6 3. Bc4 Bc5. *)
Lemma X8_implementations_agree_witness :
  let ls := Examples.li_seen GameTree.italian 0
              (GameTree.occupied GameTree.after_castling) ∅ in
  let ds := Examples.ds_at GameTree.italian 0
              (GameTree.occupied GameTree.after_castling) ∅ in
  LiBoard.chessboard (LiBoard._generate_move Examples.li_no_handlers ls).2
  = MoveRecognition._board (MoveRecognition.tick Examples.ds_no_handlers ds 5).
Proof.
  assert (ds_disappeared
            (Examples.ds_at GameTree.italian 0
               (GameTree.occupied GameTree.after_castling) ∅)
          ∪ ds_appeared
              (Examples.ds_at GameTree.italian 0
                 (GameTree.occupied GameTree.after_castling) ∅) ≠ ∅) as Hdelta.
  { intros E. assert (GameTree.e1 ∈ (∅ : gset Z)) as Hin; [|inversion Hin].
    rewrite <- E. vm_compute. reflexivity. }
  destruct (X8_implementations_agree Examples.li_no_handlers
              (Examples.li_seen GameTree.italian 0
                 (GameTree.occupied GameTree.after_castling) ∅)
              Examples.ds_no_handlers
              (Examples.ds_at GameTree.italian 0
                 (GameTree.occupied GameTree.after_castling) ∅)
              5 GameTree_find_move_sound eq_refl
              ltac:(vm_compute; reflexivity) ltac:(vm_compute; reflexivity)
              ltac:(vm_compute; reflexivity) Hdelta eq_refl ltac:(cbn; lia))
    as (Hb & _).
  exact Hb.
Defined.

(** ** The Transiently-Lifted Set of DoubleSidedMoveRecognizer *)

Section RecognizerLifted.
Context {Board Move : Type} `{Oracle Board Move} `{SetOrder}.
Local Abbreviation Recognizer_state := (@MoveRecognition.state Board Move).
Local Abbreviation Recognizer_handlers := (@MoveRecognition.handlers Board Move).

Lemma ds_new_board_data_lifted (h : Recognizer_handlers) (s : Recognizer_state)
    (bits : Bits) (now : Z) :
  MoveRecognition._lifted s = ∅ →
  MoveRecognition._lifted (MoveRecognition.new_board_data h s bits now).2 = ∅.
Proof.
  intros Hempty. destruct (decide (bits = Bits_hex_FFFF00000000FFFF)) as [-> | Hne].
  - rewrite ds_new_board_data_start, ds_start_game_eq. reflexivity.
  - rewrite (ds_new_board_data_frame h s bits now Hne). exact Hempty.
Qed.

Lemma ds_tick_lifted (h : Recognizer_handlers) (s : Recognizer_state) (now : Z) :
  MoveRecognition._lifted s = ∅ →
  MoveRecognition._lifted (MoveRecognition.tick h s now) = ∅.
Proof.
  intros Hempty. unfold MoveRecognition.tick.
  destruct (_ && _); [|exact Hempty]. cbv zeta.
  destruct (MoveRecognition.find_move _ _ _ _) as [move|]; [|exact Hempty].
  destruct (move_bool move); [|exact Hempty].
  match goal with |- context [MoveRecognition.tick_commit h ?s1 move] =>
    destruct (ds_tick_commit_fields h s1 move) as (_ & Hl & _)
  end.
  exact Hl.
Qed.

Lemma ds_step_lifted (h : Recognizer_handlers) (s : Recognizer_state) (i : ds_input) :
  MoveRecognition._lifted s = ∅ → MoveRecognition._lifted (ds_step h s i) = ∅.
Proof.
  intros Hempty. destruct i as [bits now|now|]; cbn [ds_step].
  - apply ds_new_board_data_lifted. exact Hempty.
  - apply ds_tick_lifted. exact Hempty.
  - rewrite ds_start_game_eq. reflexivity.
Qed.

Lemma ds_run_lifted (h : Recognizer_handlers) (inputs : list ds_input) :
  ∀ s : Recognizer_state,
    MoveRecognition._lifted s = ∅ → MoveRecognition._lifted (ds_run h s inputs) = ∅.
Proof.
  unfold ds_run. induction inputs as [|i rest IH]; intros s Hempty; [exact Hempty|].
  cbn [fold_left]. apply IH. apply ds_step_lifted. exact Hempty.
Qed.

(** With an empty Transiently-Lifted Set, one vacated square and none
    newly occupied, the classifier has no rule. *)
Lemma mr_find_move_lone_vacated (b : Board) (disappearances : gset Z) :
  size disappearances = 1%nat →
  MoveRecognition.find_move b ∅ disappearances ∅ = None.
Proof.
  intros Hd. unfold MoveRecognition.find_move, py_len.
  rewrite Hd, size_empty. reflexivity.
Qed.

(** X9. In a [DoubleSidedMoveRecognizer] the Transiently-Lifted Set is
    empty after every run: no call ever adds to it, the only statement
    meant to ([self._lifted += ...]) raising instead.  So when one square
    has been vacated and none newly occupied -- a capture, once the
    capturing piece stands on the square of the captured one -- [tick]
    never commits a move. *)
Theorem X9_recognizer_lifted_always_empty
    (h : Recognizer_handlers) (move_delay : Z) (inputs : list ds_input) (now : Z) :
  let s := ds_run h (MoveRecognition.init move_delay) inputs in
  MoveRecognition._lifted s = ∅
  ∧ (size (ds_disappeared s) = 1%nat →
     ds_appeared s = ∅ →
     MoveRecognition._board (MoveRecognition.tick h s now) = MoveRecognition._board s
     ∧ filter (λ e, is_move_event e = true)
         (MoveRecognition.events (MoveRecognition.tick h s now))
       = filter (λ e, is_move_event e = true) (MoveRecognition.events s)).
Proof.
  cbv zeta.
  pose proof (ds_run_lifted h inputs (MoveRecognition.init move_delay) eq_refl)
    as Hempty.
  split; [exact Hempty|]. intros Hd Ha.
  generalize dependent (ds_run h (MoveRecognition.init move_delay) inputs).
  intros s Hempty Hd Ha.
  destruct (MoveRecognition._pos_checked s) eqn:Hgate.
  { rewrite ds_tick_not_due by (left; exact Hgate). split; reflexivity. }
  destruct (Z.ltb_spec now (MoveRecognition._physical_pos_timestamp s
                            + MoveRecognition._move_delay s)) as [Hearly|Hlate].
  { rewrite ds_tick_not_due by (right; left; exact Hearly). split; reflexivity. }
  destruct (decide (MoveRecognition.bits (MoveRecognition._physical_pos s)
                    = MoveRecognition.bits (MoveRecognition.known_position s)))
    as [Heq|Hne].
  { rewrite ds_tick_not_due by (right; right; exact Heq). split; reflexivity. }
  rewrite (ds_tick_due h s now Hgate Hlate Hne).
  assert (ds_temp_lifted s = ∅) as ->.
  { unfold ds_temp_lifted. rewrite Hempty. apply intersection_empty_l_L. }
  rewrite Ha, (mr_find_move_lone_vacated _ _ Hd).
  split; [reflexivity|].
  unfold ds_classifying.
  cbn [MoveRecognition.events MoveRecognition.set_pos_checked
       MoveRecognition.record_event].
  rewrite filter_app, filter_cons_False by (simpl; discriminate).
  rewrite filter_nil. apply app_nil_r.
Qed.
End RecognizerLifted.

(** X9 on a new recognizer: the e2 pawn is lifted and the clock is
    read. *)
Lemma X9_recognizer_lifted_always_empty_witness :
  let s := ds_run Examples.ds_no_handlers
             (MoveRecognition.init 0 : Examples.ds_state)
             [ DsFrame (GameTree.snapshot Examples.e2_lifted) 1 ] in
  ds_disappeared s = {[ GameTree.e2 ]}
  ∧ MoveRecognition._lifted s = ∅
  ∧ MoveRecognition._board (MoveRecognition.tick Examples.ds_no_handlers s 2)
    = GameTree.start.
Proof.
  destruct (X9_recognizer_lifted_always_empty Examples.ds_no_handlers 0
              [ DsFrame (GameTree.snapshot Examples.e2_lifted) 1 ] 2)
    as (Hempty & Hcase).
  cbv zeta. split; [vm_compute; reflexivity|]. split; [exact Hempty|].
  destruct Hcase as (Hb & _);
    [vm_compute; reflexivity | vm_compute; reflexivity |].
  rewrite Hb. vm_compute. reflexivity.
Defined.

(** ** More on the classifier *)

Section ClassifierMore.
Context {Board Move : Type} `{Oracle Board Move} `{SetOrder}.
Local Abbreviation LiBoard_state := (@LiBoard.state Board Move).
Local Abbreviation LiBoard_handlers := (@LiBoard.handlers Board Move).
Local Abbreviation Recognizer_state := (@MoveRecognition.state Board Move).
Local Abbreviation Recognizer_handlers := (@MoveRecognition.handlers Board Move).

(** Two squares vacated, one newly occupied. *)
Lemma mr_find_move_en_passant (b : Board) (t : Z)
    (disappearances temp_lifted : gset Z) :
  size disappearances = 2%nat →
  MoveRecognition.find_move b {[t]} disappearances temp_lifted =
    MoveRecognition.en_passant_loop b (set_iter disappearances) t.
Proof.
  intros Hd. unfold MoveRecognition.find_move.
  rewrite py_len_singleton, py_pop_singleton. unfold py_len. rewrite Hd.
  reflexivity.
Qed.

(** X10. When exactly two squares have been vacated and exactly one
    square [t] newly occupied, each vacated square is tried in turn as
    origin of a move to [t]; the first legal move the oracle finds and
    classifies as en passant is returned and committed, and when neither
    has one no move is returned and nothing is committed. *)
Theorem X10_en_passant
    (b : Board) (t : Z) (disappearances temp_lifted : gset Z)
    (lh : LiBoard_handlers) (ls : LiBoard_state)
    (dh : Recognizer_handlers) (ds : Recognizer_state) (now : Z) :
  find_move_sound →
  size disappearances = 2%nat →
  let cands := map (λ from_square, (from_square, t)) (set_iter disappearances) in
  let accepted := MoveRecognition.find_move b {[t]} disappearances temp_lifted in
  length cands = 2%nat
  ∧ cands ≡ₚ map (λ from_square, (from_square, t)) (elements disappearances)
  ∧ first_accepted (board_find_move b) (board_is_en_passant b) cands accepted
  ∧ (LiBoard.chessboard ls = b →
     li_disappeared ls = disappearances →
     li_appeared ls = {[t]} →
     li_temp_lifted ls = temp_lifted →
     li_outcome ls accepted (LiBoard._generate_move lh ls))
  ∧ (MoveRecognition._board ds = b →
     ds_disappeared ds = disappearances →
     ds_appeared ds = {[t]} →
     ds_temp_lifted ds = temp_lifted →
     MoveRecognition._pos_checked ds = false →
     MoveRecognition._physical_pos_timestamp ds + MoveRecognition._move_delay ds ≤ now →
     ds_outcome ds accepted (MoveRecognition.tick dh ds now)).
Proof.
  intros Hsound Hd cands accepted. split; [|split; [|split; [|split]]].
  - subst cands. rewrite length_map, set_iter_length. exact Hd.
  - subst cands. rewrite (set_iter_perm disappearances). reflexivity.
  - subst cands accepted. rewrite mr_find_move_en_passant by exact Hd.
    apply mr_en_passant_loop_first. exact Hsound.
  - intros Hb Hdis Happ Ht.
    pose proof (li_generate_move_outcome Hsound lh ls) as Hout.
    rewrite Hb, Hdis, Happ, Ht in Hout. exact Hout.
  - intros Hb Hdis Happ Ht Hgate Hlate.
    pose proof (ds_tick_outcome Hsound dh ds now Hgate Hlate) as Hout.
    rewrite Hb, Hdis, Happ, Ht in Hout.
    apply Hout.
    destruct (size_pos_elem_of disappearances) as [x Hx]; [lia|].
    apply (ds_delta_diverges ds x). rewrite Hdis. exact Hx.
Qed.

(** No rule applies when no square has been vacated, or more than two
    have, or more than two are newly occupied. *)
Lemma mr_find_move_no_rule (b : Board)
    (appearances disappearances temp_lifted : gset Z) :
  size disappearances = 0%nat ∨ (2 < size disappearances)%nat
  ∨ (2 < size appearances)%nat →
  MoveRecognition.find_move b appearances disappearances temp_lifted = None.
Proof.
  intros Hsizes. unfold MoveRecognition.find_move, py_len.
  destruct (size disappearances) as [|[|[|n]]];
    destruct (size appearances) as [|[|[|m]]];
    cbn [Nat.eqb andb negb]; try reflexivity; exfalso; lia.
Qed.

(** X11. When no square has been vacated, or more than two have, or
    more than two squares are newly occupied, no move is recognised and
    the oracle's board, the Known Position and the Transiently-Lifted Set
    stay as they are; only the gate is set. *)
Theorem X11_no_rule_no_move
    (b : Board) (appearances disappearances temp_lifted : gset Z)
    (lh : LiBoard_handlers) (ls : LiBoard_state)
    (dh : Recognizer_handlers) (ds : Recognizer_state) (now : Z) :
  size disappearances = 0%nat ∨ (2 < size disappearances)%nat
  ∨ (2 < size appearances)%nat →
  MoveRecognition.find_move b appearances disappearances temp_lifted = None
  ∧ (li_disappeared ls = disappearances →
     li_appeared ls = appearances →
     LiBoard._generate_move lh ls = (false, li_classifying ls))
  ∧ (ds_disappeared ds = disappearances →
     ds_appeared ds = appearances →
     MoveRecognition._pos_checked ds = false →
     MoveRecognition._physical_pos_timestamp ds + MoveRecognition._move_delay ds ≤ now →
     MoveRecognition.bits (MoveRecognition._physical_pos ds)
       ≠ MoveRecognition.bits (MoveRecognition.known_position ds) →
     MoveRecognition.tick dh ds now = ds_classifying ds).
Proof.
  intros Hsizes. split; [|split].
  - apply mr_find_move_no_rule. exact Hsizes.
  - intros Hd Ha. unfold LiBoard._generate_move.
    fold (li_classifying ls). cbv zeta.
    change (LiBoard._get_occupied_squares
              (LiBoard._known_position_data (li_classifying ls))
            ∖ LiBoard._get_occupied_squares
                (LiBoard._physical_position_data (li_classifying ls)))
      with (li_disappeared ls).
    change (LiBoard._get_occupied_squares
              (LiBoard._physical_position_data (li_classifying ls))
            ∖ LiBoard._get_occupied_squares
                (LiBoard._known_position_data (li_classifying ls)))
      with (li_appeared ls).
    rewrite Hd, Ha. unfold py_len.
    destruct (size disappearances) as [|[|[|n]]];
      destruct (size appearances) as [|[|[|m]]];
      cbn [Nat.eqb andb negb]; try reflexivity; exfalso; lia.
  - intros Hd Ha Hgate Hlate Hne.
    rewrite (ds_tick_due dh ds now Hgate Hlate Hne), Hd, Ha.
    rewrite (mr_find_move_no_rule _ _ _ _ Hsizes). reflexivity.
Qed.

(** *** The squares of a returned move *)

Lemma py_pop_elem (X : gset Z) (x : Z) : py_pop X = Some x → x ∈ X.
Proof.
  unfold py_pop. intros Hhead. apply set_iter_elem.
  destruct (set_iter X) as [|y l]; [discriminate|].
  inversion Hhead; subst. left.
Qed.

Lemma mr_capture_loop_from (b : Board) (from_square : Z) (tlps : list Z) (m : Move) :
  MoveRecognition.capture_loop b from_square tlps = Some m →
  ∃ t, t ∈ tlps ∧ board_find_move b from_square t = Found m ∧ move_bool m = true.
Proof.
  induction tlps as [|tlp rest IH]; simpl; [discriminate|].
  unfold MoveRecognition._find_candidate_move.
  destruct (board_find_move b from_square tlp) as [move|] eqn:Hf.
  - destruct (move_bool move) eqn:Hbool; simpl.
    + destruct (board_is_capture b move).
      * intros [= ->]. exists tlp. split; [left | split; assumption].
      * intros Hrest. destruct (IH Hrest) as (t & Hin & Hfound).
        exists t. split; [right; exact Hin | exact Hfound].
    + intros Hrest. destruct (IH Hrest) as (t & Hin & Hfound).
      exists t. split; [right; exact Hin | exact Hfound].
  - intros Hrest. destruct (IH Hrest) as (t & Hin & Hfound).
    exists t. split; [right; exact Hin | exact Hfound].
Qed.

Lemma mr_en_passant_loop_from (b : Board) (froms : list Z) (to_square : Z) (m : Move) :
  MoveRecognition.en_passant_loop b froms to_square = Some m →
  ∃ f, f ∈ froms ∧ board_find_move b f to_square = Found m ∧ move_bool m = true.
Proof.
  induction froms as [|from_square rest IH]; simpl; [discriminate|].
  unfold MoveRecognition._find_candidate_move.
  destruct (board_find_move b from_square to_square) as [move|] eqn:Hf.
  - destruct (move_bool move) eqn:Hbool; simpl.
    + destruct (board_is_en_passant b move).
      * intros [= ->]. exists from_square. split; [left | split; assumption].
      * intros Hrest. destruct (IH Hrest) as (f & Hin & Hfound).
        exists f. split; [right; exact Hin | exact Hfound].
    + intros Hrest. destruct (IH Hrest) as (f & Hin & Hfound).
      exists f. split; [right; exact Hin | exact Hfound].
  - intros Hrest. destruct (IH Hrest) as (f & Hin & Hfound).
    exists f. split; [right; exact Hin | exact Hfound].
Qed.

Lemma mr_castling_inner_from (b : Board) (from_square : Z) (tos : list Z) (m : Move) :
  MoveRecognition.castling_inner b from_square tos = Some m →
  ∃ t, t ∈ tos ∧ board_find_move b from_square t = Found m ∧ move_bool m = true.
Proof.
  induction tos as [|to_square rest IH]; simpl; [discriminate|].
  unfold MoveRecognition._find_candidate_move.
  destruct (board_find_move b from_square to_square) as [move|] eqn:Hf.
  - destruct (move_bool move) eqn:Hbool; simpl.
    + destruct (board_is_castling b move).
      * intros [= ->]. exists to_square. split; [left | split; assumption].
      * intros Hrest. destruct (IH Hrest) as (t & Hin & Hfound).
        exists t. split; [right; exact Hin | exact Hfound].
    + intros Hrest. destruct (IH Hrest) as (t & Hin & Hfound).
      exists t. split; [right; exact Hin | exact Hfound].
  - intros Hrest. destruct (IH Hrest) as (t & Hin & Hfound).
    exists t. split; [right; exact Hin | exact Hfound].
Qed.

Lemma mr_castling_outer_from (b : Board) (froms tos : list Z) (m : Move) :
  MoveRecognition.castling_outer b froms tos = Some m →
  ∃ f t, f ∈ froms ∧ t ∈ tos
         ∧ board_find_move b f t = Found m ∧ move_bool m = true.
Proof.
  induction froms as [|from_square rest IH]; simpl; [discriminate|].
  destruct (MoveRecognition.castling_inner b from_square tos) as [move|] eqn:Hinner.
  - intros [= ->]. destruct (mr_castling_inner_from _ _ _ _ Hinner) as (t & Hin & Hfound).
    exists from_square, t. split; [left | split; [exact Hin | exact Hfound]].
  - intros Hrest. destruct (IH Hrest) as (f & t & Hf & Ht & Hfound).
    exists f, t. split; [right; exact Hf | split; [exact Ht | exact Hfound]].
Qed.

(** X12. A move returned by [MoveRecognizer.find_move] is one the
    oracle found from a vacated square to a newly occupied square or to
    a square of the temporarily-lifted set, and it is not the null move;
    this does not depend on what the oracle answers. *)
Theorem X12_returned_move_explains_squares
    (b : Board) (appearances disappearances temp_lifted : gset Z) (m : Move) :
  MoveRecognition.find_move b appearances disappearances temp_lifted = Some m →
  ∃ f t, f ∈ disappearances
         ∧ t ∈ appearances ∪ temp_lifted
         ∧ board_find_move b f t = Found m
         ∧ move_bool m = true.
Proof.
  unfold MoveRecognition.find_move.
  destruct (_ && _).
  { destruct (py_pop disappearances) as [f|] eqn:Hpf; [|discriminate].
    destruct (py_pop appearances) as [a|] eqn:Hpa; [|discriminate].
    unfold MoveRecognition._find_candidate_move.
    destruct (board_find_move b f a) as [move|] eqn:Hf; [|discriminate].
    destruct (move_bool move) eqn:Hbool; [|discriminate].
    destruct (_ && _); [|discriminate]. intros [= ->].
    exists f, a. split; [exact (py_pop_elem _ _ Hpf)|].
    split; [apply elem_of_union_l; exact (py_pop_elem _ _ Hpa)|].
    split; assumption. }
  destruct (_ && _).
  { destruct (py_pop disappearances) as [f|] eqn:Hpf; [|discriminate].
    intros Hloop. destruct (mr_capture_loop_from _ _ _ _ Hloop) as (t & Hin & Hfound).
    exists f, t. split; [exact (py_pop_elem _ _ Hpf)|].
    split; [apply elem_of_union_r, set_iter_elem; exact Hin | exact Hfound]. }
  destruct (_ && _).
  { destruct (py_pop appearances) as [a|] eqn:Hpa; [|discriminate].
    intros Hloop. destruct (mr_en_passant_loop_from _ _ _ _ Hloop) as (f & Hin & Hfound).
    exists f, a. split; [apply set_iter_elem; exact Hin|].
    split; [apply elem_of_union_l; exact (py_pop_elem _ _ Hpa) | exact Hfound]. }
  destruct (_ && _); [|discriminate].
  intros Hloop.
  destruct (mr_castling_outer_from _ _ _ _ Hloop) as (f & t & Hf & Ht & Hfound).
  exists f, t. split; [apply set_iter_elem; exact Hf|].
  split; [apply elem_of_union_l, set_iter_elem; exact Ht | exact Hfound].
Qed.
End ClassifierMore.

(** X10 on the capture e5 x d6 en passant after 1. e4 a6 2. e5 d5. *)
Lemma X10_en_passant_witness :
  let ls := Examples.li_seen GameTree.e5_d5 0
              (GameTree.occupied GameTree.after_en_passant) ∅ in
  let ds := Examples.ds_at GameTree.e5_d5 0
              (GameTree.occupied GameTree.after_en_passant) ∅ in
  MoveRecognition.find_move GameTree.e5_d5
      {[ GameTree.d6 ]} {[ GameTree.e5; GameTree.d5 ]} ∅
    = Some (GameTree.takes_en_passant GameTree.e5 GameTree.d6)
  ∧ LiBoard.chessboard (LiBoard._generate_move Examples.li_no_handlers ls).2
    = GameTree.after_en_passant
  ∧ MoveRecognition._board (MoveRecognition.tick Examples.ds_no_handlers ds 5)
    = GameTree.after_en_passant.
Proof.
  assert (MoveRecognition.find_move GameTree.e5_d5
            {[ GameTree.d6 ]} {[ GameTree.e5; GameTree.d5 ]} ∅
          = Some (GameTree.takes_en_passant GameTree.e5 GameTree.d6)) as Hfind
    by (vm_compute; reflexivity).
  assert (size ({[ GameTree.e5; GameTree.d5 ]} : gset Z) = 2%nat) as Hd
    by (vm_compute; reflexivity).
  pose proof (X10_en_passant GameTree.e5_d5 GameTree.d6
      {[ GameTree.e5; GameTree.d5 ]} ∅
      Examples.li_no_handlers
      (Examples.li_seen GameTree.e5_d5 0
         (GameTree.occupied GameTree.after_en_passant) ∅)
      Examples.ds_no_handlers
      (Examples.ds_at GameTree.e5_d5 0
         (GameTree.occupied GameTree.after_en_passant) ∅)
      5 GameTree_find_move_sound Hd) as Hc.
  cbv zeta in Hc. destruct Hc as (_ & _ & _ & Hli & Hds).
  specialize (Hli eq_refl ltac:(vm_compute; reflexivity) ltac:(vm_compute; reflexivity)
                ltac:(vm_compute; reflexivity)).
  specialize (Hds eq_refl ltac:(vm_compute; reflexivity) ltac:(vm_compute; reflexivity)
                ltac:(vm_compute; reflexivity) eq_refl ltac:(cbn; lia)).
  rewrite Hfind in Hli, Hds.
  cbv zeta. split; [exact Hfind|].
  destruct Hli as (_ & Hb & _). destruct Hds as (Hdb & _).
  split; [exact Hb | exact Hdb].
Defined.

(** X11 when the c2, d2 and e2 pawns leave their squares and one pawn
    is set down on e4. *)
Lemma X11_no_rule_no_move_witness :
  let seen := Z.ldiff (Z.ldiff (GameTree.shift_piece GameTree.start_occupied
                                  GameTree.e2 GameTree.e4)
                         (Z.shiftl 1 11)) (Z.shiftl 1 10) in
  let ls := Examples.li_seen GameTree.start 0 seen ∅ in
  li_disappeared ls = {[ 10; 11; 12 ]}
  ∧ li_appeared ls = {[ GameTree.e4 ]}
  ∧ LiBoard._generate_move Examples.li_no_handlers ls = (false, li_classifying ls).
Proof.
  cbv zeta.
  assert (size ({[ 10; 11; 12 ]} : gset Z) = 3%nat) as Hsize
    by (vm_compute; reflexivity).
  destruct (X11_no_rule_no_move GameTree.start {[ GameTree.e4 ]} {[ 10; 11; 12 ]} ∅
              Examples.li_no_handlers
              (Examples.li_seen GameTree.start 0
                 (Z.ldiff (Z.ldiff (GameTree.shift_piece GameTree.start_occupied
                                      GameTree.e2 GameTree.e4)
                             (Z.shiftl 1 11)) (Z.shiftl 1 10)) ∅)
              Examples.ds_no_handlers
              (Examples.ds_at GameTree.start 0 GameTree.start_occupied ∅) 5)
    as (_ & Hli & _).
  { right. left. rewrite Hsize. lia. }
  split; [vm_compute; reflexivity|]. split; [vm_compute; reflexivity|].
  apply Hli; vm_compute; reflexivity.
Defined.

(** X12 on 1. e4 played from the starting position. *)
Lemma X12_returned_move_explains_squares_witness :
  ∃ f t, f ∈ ({[ GameTree.e2 ]} : gset Z)
         ∧ t ∈ ({[ GameTree.e4 ]} : gset Z) ∪ ∅
         ∧ board_find_move GameTree.start f t
           = Found (GameTree.quiet GameTree.e2 GameTree.e4)
         ∧ move_bool (GameTree.quiet GameTree.e2 GameTree.e4) = true.
Proof.
  assert (MoveRecognition.find_move GameTree.start {[ GameTree.e4 ]}
            {[ GameTree.e2 ]} ∅
          = Some (GameTree.quiet GameTree.e2 GameTree.e4)) as Hfind
    by (vm_compute; reflexivity).
  exact (X12_returned_move_explains_squares GameTree.start {[ GameTree.e4 ]}
           {[ GameTree.e2 ]} ∅ (GameTree.quiet GameTree.e2 GameTree.e4) Hfind).
Defined.

(** ** The frame decoder *)

Section Decoder.
Context {Handler : Type}.
Local Abbreviation Protocol_state := (Physical.state Handler).

(** The bitboards a handler is given for a list of frames. *)
Lemma data_received_cases (s : Protocol_state) (data : list byte) :
  let buffer := Physical._bytes s ++ data in
  let s' := Physical.data_received s data in
  Physical._bitboard_handler s' = Physical._bitboard_handler s
  ∧ ((length buffer < 8)%nat
     ∧ Physical._bytes s' = buffer
     ∧ Physical.extracted s' = Physical.extracted s
     ∧ Physical.delivered s' = Physical.delivered s
     ∨ (8 ≤ length buffer)%nat
       ∧ Physical._bytes s' = drop 8 buffer
       ∧ Physical.extracted s' = Physical.extracted s ++ [take 8 buffer]
       ∧ Physical.delivered s'
         = Physical.delivered s
             ++ match Physical._bitboard_handler s with
                | Some _ => [Bits_of_iterable (take 8 buffer)]
                | None => []
                end).
Proof.
  cbv zeta. unfold Physical.data_received. cbv zeta.
  destruct (8 <=? length (Physical._bytes s ++ data))%nat eqn:Hlen.
  - apply Nat.leb_le in Hlen. split; [reflexivity|]. right.
    cbn [Physical._bytes Physical.extracted Physical.delivered].
    repeat (split; [first [exact Hlen | reflexivity]|]).
    destruct (Physical._bitboard_handler s); [reflexivity|].
    symmetry. apply app_nil_r.
  - apply Nat.leb_gt in Hlen. split; [reflexivity|]. left.
    cbn [Physical._bytes Physical.extracted Physical.delivered].
    repeat split. exact Hlen.
Qed.

(** What a sequence of calls adds to the two logs. *)
Lemma receive_all_spec (chunks : list (list byte)) :
  ∀ s : Protocol_state,
    let s' := Physical.receive_all s chunks in
    Physical._bitboard_handler s' = Physical._bitboard_handler s
    ∧ ∃ new : list (list byte),
        Physical.extracted s' = Physical.extracted s ++ new
        ∧ Forall (λ frame, length frame = 8%nat) new
        ∧ (length new ≤ length chunks)%nat
        ∧ concat new ++ Physical._bytes s' = Physical._bytes s ++ concat chunks
        ∧ Physical.delivered s'
          = Physical.delivered s
              ++ match Physical._bitboard_handler s with
                 | Some _ => Bits_of_iterable <$> new
                 | None => []
                 end.
Proof.
  unfold Physical.receive_all.
  induction chunks as [|data rest IH]; intros s; cbv zeta; cbn [fold_left].
  - split; [reflexivity|]. exists []. rewrite !app_nil_r.
    repeat split; [constructor | simpl; lia |].
    destruct (Physical._bitboard_handler s); symmetry; apply app_nil_r.
  - destruct (IH (Physical.data_received s data)) as (Hh & new & He & Hall & Hn & Hc & Hd).
    destruct (data_received_cases s data) as (Hh1 & Hcase). cbv zeta in Hcase.
    rewrite Hh1 in Hh, Hd. split; [exact Hh|].
    destruct Hcase as [(Hshort & Hb & He1 & Hd1) | (Hlong & Hb & He1 & Hd1)].
    + exists new. rewrite He, He1, Hd, Hd1, Hc, Hb. cbn [concat length].
      rewrite <- app_assoc.
      repeat split; [exact Hall | lia].
    + exists (take 8 (Physical._bytes s ++ data) :: new).
      rewrite He, He1, Hd, Hd1. cbn [concat length].
      rewrite <- !app_assoc. split; [reflexivity|].
      split; [constructor; [apply length_take_le; exact Hlong | exact Hall]|].
      split; [lia|]. split.
      * rewrite Hc, Hb, !app_assoc, take_drop. reflexivity.
      * destruct (Physical._bitboard_handler s); reflexivity.
Qed.

(** X13. [data_received] cuts at most one frame per call.  When
    sixteen or more bytes are in hand, a complete frame is left in the
    buffer and is not delivered until more data arrives; and over any
    sequence of calls there are never more frames than calls. *)
Theorem X13_one_frame_per_call
    (s : Protocol_state) (data : list byte) (chunks : list (list byte)) :
  (16 ≤ length (Physical._bytes s ++ data))%nat →
  let s' := Physical.data_received s data in
  length (Physical.extracted s') = S (length (Physical.extracted s))
  ∧ (8 ≤ length (Physical._bytes s'))%nat
  ∧ (length (Physical.extracted (Physical.receive_all s chunks))
     ≤ length (Physical.extracted s) + length chunks)%nat.
Proof.
  intros Hlen. cbv zeta.
  destruct (data_received_cases s data) as (_ & Hcase). cbv zeta in Hcase.
  destruct Hcase as [(Hshort & _) | (_ & Hb & He & _)]; [lia|].
  rewrite Hb, He, length_app, length_drop. cbn [length].
  split; [lia|]. split; [lia|].
  destruct (receive_all_spec chunks s) as (_ & new & Hnew & _ & Hn & _).
  rewrite Hnew, length_app. lia.
Qed.

(** X14. No byte is lost, duplicated or reordered: after any sequence
    of calls on a new protocol object, the frames cut so far followed by
    the buffer are the bytes received, in order; every frame has eight
    bytes, so the number of bytes received is eight times the number of
    frames plus the length of the buffer. *)
Theorem X14_stream_is_preserved
    (handler : option Handler) (chunks : list (list byte)) :
  let s := Physical.receive_all
             (Physical.register_bitboard_handler Physical.init handler) chunks in
  concat (Physical.extracted s) ++ Physical._bytes s = concat chunks
  ∧ Forall (λ frame, length frame = 8%nat) (Physical.extracted s)
  ∧ length (concat chunks)
    = (8 * length (Physical.extracted s) + length (Physical._bytes s))%nat.
Proof.
  cbv zeta.
  destruct (receive_all_spec chunks
              (Physical.register_bitboard_handler Physical.init handler))
    as (_ & new & Hnew & Hall & _ & Hc & _).
  cbn [Physical.extracted Physical._bytes Physical.register_bitboard_handler
       Physical.init app] in Hnew, Hc.
  rewrite Hnew. split; [exact Hc|]. split; [exact Hall|].
  rewrite <- Hc, length_app. f_equal.
  clear Hnew Hc. induction Hall as [|frame rest Hframe _ IH]; [reflexivity|].
  cbn [concat length]. rewrite length_app, Hframe, IH. lia.
Qed.

(** X15. Frames reach the handler once each and in order; with no
    handler registered they are cut from the buffer all the same and
    discarded. *)
Theorem X15_delivery
    (handler : option Handler) (chunks : list (list byte)) :
  let s := Physical.receive_all
             (Physical.register_bitboard_handler Physical.init handler) chunks in
  Physical.delivered s
  = match handler with
    | Some _ => Bits_of_iterable <$> Physical.extracted s
    | None => []
    end.
Proof.
  cbv zeta.
  destruct (receive_all_spec chunks
              (Physical.register_bitboard_handler Physical.init handler))
    as (_ & new & Hnew & _ & _ & _ & Hd).
  cbn [Physical.extracted Physical.delivered Physical._bitboard_handler
       Physical.register_bitboard_handler Physical.init app] in Hnew, Hd.
  rewrite Hd, Hnew. reflexivity.
Qed.
End Decoder.

Lemma X13_one_frame_per_call_witness :
  let s : Physical.state unit := Physical.init in
  let data := [xff; xff; x00; x00; x00; x00; xff; xff;
               xff; xff; x00; x00; x08; x00; xf7; xff] in
  length (Physical.extracted (Physical.data_received s data)) = 1%nat
  ∧ (8 ≤ length (Physical._bytes (Physical.data_received s data)))%nat
  ∧ (length (Physical.extracted (Physical.receive_all s [data; []; []])) ≤ 3)%nat.
Proof.
  cbv zeta.
  assert (16 ≤ length
            (Physical._bytes (@Physical.init unit)
             ++ [xff; xff; x00; x00; x00; x00; xff; xff;
                 xff; xff; x00; x00; x08; x00; xf7; xff]))%nat as Hlen
    by (cbn; lia).
  exact (X13_one_frame_per_call (@Physical.init unit)
           [xff; xff; x00; x00; x00; x00; xff; xff;
            xff; xff; x00; x00; x08; x00; xf7; xff]
           [[xff; xff; x00; x00; x00; x00; xff; xff;
             xff; xff; x00; x00; x08; x00; xf7; xff]; []; []] Hlen).
Defined.

(** ** Comparing positions *)

Lemma squares_of_bits_inj (b1 b2 : list bool) :
  length b1 = length b2 → squares_of_bits b1 = squares_of_bits b2 → b1 = b2.
Proof.
  intros Hlen Heq. apply list_eq. intros j.
  destruct (b1 !! j) as [x|] eqn:H1; destruct (b2 !! j) as [y|] eqn:H2.
  - f_equal.
    assert (∀ (b : list bool) (z : bool),
              b !! j = Some z →
              (63 - Z.of_nat j ∈ squares_of_bits b ↔ z = true)) as Hbit.
    { intros b z Hz. rewrite squares_of_bits_elem. split.
      - intros (k & Hk & Hjk). assert (k = j) as -> by lia. congruence.
      - intros ->. exists j. split; [exact Hz | reflexivity]. }
    pose proof (Hbit b1 x H1) as Hx. pose proof (Hbit b2 y H2) as Hy.
    rewrite Heq in Hx. destruct x, y; try reflexivity.
    + symmetry. apply Hy, Hx. reflexivity.
    + apply Hx, Hy. reflexivity.
  - apply lookup_lt_Some in H1. apply lookup_ge_None in H2. lia.
  - apply lookup_ge_None in H1. apply lookup_lt_Some in H2. lia.
  - reflexivity.
Qed.

Lemma delta_empty_iff (A B : gset Z) : B ∖ A ∪ A ∖ B = ∅ ↔ A = B.
Proof.
  split.
  - intros Hempty. apply leibniz_equiv. intros x.
    assert (x ∉ B ∖ A ∪ A ∖ B) as Hx by (rewrite Hempty; apply not_elem_of_empty).
    rewrite elem_of_union, !elem_of_difference in Hx.
    destruct (decide (x ∈ A)), (decide (x ∈ B)); tauto.
  - intros ->. apply leibniz_equiv. intros x.
    rewrite elem_of_union, !elem_of_difference, elem_of_empty. tauto.
Qed.

Section PositionEquality.
Context {Board Move : Type} `{Oracle Board Move} `{SetOrder}.
Local Abbreviation LiBoard_state := (@LiBoard.state Board Move).
Local Abbreviation Recognizer_state := (@MoveRecognition.state Board Move).

(** X16. Comparing two snapshots of the same length bit for bit is
    comparing their sets of occupied squares.  So for a
    [DoubleSidedMoveRecognizer] that holds a 64-bit snapshot, the test
    [self._physical_pos != _Position(self.board)] of [tick] succeeds
    exactly when some square has been vacated or newly occupied; and the
    same holds of the test of [LiBoard.update] when the Physical and the
    Known Position have the same number of bits. *)
Theorem X16_positions_differ_iff_delta
    (ds : Recognizer_state) (ls : LiBoard_state) :
  (length (MoveRecognition.bits (MoveRecognition._physical_pos ds)) = 64%nat →
   (MoveRecognition._Position_eq (MoveRecognition._physical_pos ds)
      (MoveRecognition._Position_of_Board (MoveRecognition._board ds)) = false
    ↔ ds_disappeared ds ∪ ds_appeared ds ≠ ∅))
  ∧ (length (LiBoard._physical_position_data ls)
     = length (LiBoard._known_position_data ls) →
     (LiBoard._physical_position_data ls ≠ LiBoard._known_position_data ls
      ↔ li_disappeared ls ∪ li_appeared ls ≠ ∅)).
Proof.
  split.
  - intros Hlen. unfold MoveRecognition._Position_eq.
    rewrite bool_decide_eq_false.
    unfold ds_disappeared, ds_appeared, MoveRecognition.known_position,
      MoveRecognition.occupied_squares.
    rewrite delta_empty_iff.
    set (known := MoveRecognition.bits
                    (MoveRecognition._Position_of_Board (MoveRecognition._board ds))).
    assert (length known = 64%nat) as Hknown by apply Bits_of_uint_length.
    clearbody known.
    split; intros Hne Heq; apply Hne.
    + symmetry. apply squares_of_bits_inj; [congruence | exact Heq].
    + rewrite Heq. reflexivity.
  - intros Hlen. unfold li_disappeared, li_appeared.
    rewrite delta_empty_iff.
    split; intros Hne Heq; apply Hne.
    + apply squares_of_bits_inj; [exact Hlen | exact Heq].
    + rewrite Heq. reflexivity.
Qed.
End PositionEquality.

(** X16 on a recognizer and a board from which the e2 pawn has been
    lifted: the positions differ and e2 is in the delta. *)
Lemma X16_positions_differ_iff_delta_witness :
  let ds := Examples.ds_at GameTree.start 0 Examples.e2_lifted ∅ in
  let ls := Examples.li_seen GameTree.start 0 Examples.e2_lifted ∅ in
  ds_disappeared ds ∪ ds_appeared ds ≠ ∅
  ∧ li_disappeared ls ∪ li_appeared ls ≠ ∅.
Proof.
  destruct (X16_positions_differ_iff_delta
              (Examples.ds_at GameTree.start 0 Examples.e2_lifted ∅)
              (Examples.li_seen GameTree.start 0 Examples.e2_lifted ∅))
    as [Hds Hli].
  cbv zeta. split.
  - apply Hds; vm_compute; reflexivity.
  - apply Hli; [vm_compute; reflexivity | vm_compute; discriminate].
Defined.

(** ** The round trip after an accepted move *)



Section RoundTrip.
Context {Board Move : Type} `{Oracle Board Move} `{SetOrder}.
Local Abbreviation LiBoard_state := (@LiBoard.state Board Move).
Local Abbreviation LiBoard_handlers := (@LiBoard.handlers Board Move).
Local Abbreviation Recognizer_state := (@MoveRecognition.state Board Move).
Local Abbreviation Recognizer_handlers := (@MoveRecognition.handlers Board Move).







End RoundTrip.



